(** * smsDbViewer: message store, codecs and view coordinator

    A shallow embedding of the Go sources [db.go], [model.go] and the CSV
    exporter, followed by the properties proved about them.

    Conventions.  Go [string] values are byte strings and are embedded as
    [string] (a list of 8-bit [ascii]).  Go [int] and [int64] are embedded
    as [Z]; where a function does arithmetic on them the 64-bit range is a
    stated hypothesis.  A Go [error] is embedded as [option string]
    ([None] is [nil]). *)

From Stdlib Require Import ZArith List Bool Lia Arith.
From Stdlib Require Import Strings.String Strings.Ascii.
From Stdlib Require Import Numbers.DecimalString.
From Stdlib Require Import Sorting.Sorted Sorting.Permutation.
From Stdlib Require DecimalPos.
Import ListNotations.

Open Scope string_scope.
Open Scope Z_scope.

(* ================================================================== *)
(** * Part I.  Definitions                                              *)
(* ================================================================== *)

(** ** Characters used by the sources *)

Definition quoteChar : ascii := ascii_of_nat 34.
Definition LF : ascii := ascii_of_nat 10.
Definition CR : ascii := ascii_of_nat 13.
Definition TAB : ascii := ascii_of_nat 9.
Definition VT : ascii := ascii_of_nat 11.
Definition FF : ascii := ascii_of_nat 12.

Definition str1 (c : ascii) : string := String c EmptyString.

(** ** Go's [unicode/utf8] and [unicode] packages

    A rune is embedded as the [Z] of its code point, a byte as the [Z]
    below 256 of its value. *)

Module utf8.

Definition RuneError : Z := 0xFFFD.
Definition RuneSelf : Z := 0x80.

Definition byte (c : ascii) : Z := Z.of_nat (nat_of_ascii c).
Definition char (b : Z) : ascii := ascii_of_nat (Z.to_nat b).

(** A continuation byte, [10xxxxxx]. *)
Definition isCont (b : Z) : bool := (0x80 <=? b) && (b <=? 0xBF).

Definition RuneStart (c : ascii) : bool := negb (isCont (byte c)).

(** [DecodeRuneInString]: the first rune of [s] and its width in
    bytes; [(RuneError, 0)] for the empty string and [(RuneError, 1)]
    for an encoding that is not valid: a byte that cannot start a rune,
    a sequence cut short, a second byte outside the range its first
    byte accepts (which excludes the over-long forms, the surrogates
    and the values above U+10FFFF). *)
Definition DecodeRuneInString (s : string) : Z * nat :=
  match s with
  | EmptyString => (RuneError, 0%nat)
  | String c0 s1 =>
      let b0 := byte c0 in
      if b0 <? RuneSelf then (b0, 1%nat)
      else if (b0 <? 0xC2) || (0xF4 <? b0) then (RuneError, 1%nat)
      else
        match s1 with
        | EmptyString => (RuneError, 1%nat)
        | String c1 s2 =>
            let b1 := byte c1 in
            let lo := if b0 =? 0xE0 then 0xA0 else if b0 =? 0xF0 then 0x90 else 0x80 in
            let hi := if b0 =? 0xED then 0x9F else if b0 =? 0xF4 then 0x8F else 0xBF in
            if (b1 <? lo) || (hi <? b1) then (RuneError, 1%nat)
            else if b0 <? 0xE0 then
              (Z.lor (Z.shiftl (Z.land b0 0x1F) 6) (Z.land b1 0x3F), 2%nat)
            else
              match s2 with
              | EmptyString => (RuneError, 1%nat)
              | String c2 s3 =>
                  let b2 := byte c2 in
                  if negb (isCont b2) then (RuneError, 1%nat)
                  else if b0 <? 0xF0 then
                    (Z.lor (Z.lor (Z.shiftl (Z.land b0 0x0F) 12) (Z.shiftl (Z.land b1 0x3F) 6))
                           (Z.land b2 0x3F), 3%nat)
                  else
                    match s3 with
                    | EmptyString => (RuneError, 1%nat)
                    | String c3 _ =>
                        let b3 := byte c3 in
                        if negb (isCont b3) then (RuneError, 1%nat)
                        else
                          (Z.lor (Z.lor (Z.lor (Z.shiftl (Z.land b0 0x07) 18)
                                               (Z.shiftl (Z.land b1 0x3F) 12))
                                        (Z.shiftl (Z.land b2 0x3F) 6))
                                 (Z.land b3 0x3F), 4%nat)
                    end
              end
        end
  end.

(** [AppendRune]: the UTF-8 encoding of [r]; a surrogate or a value
    out of range is encoded as [RuneError]. *)
Definition EncodeRune (r : Z) : string :=
  if (0 <=? r) && (r <=? 0x7F) then str1 (char r)
  else if (0 <=? r) && (r <=? 0x7FF) then
    String (char (Z.lor 0xC0 (Z.shiftr r 6))) (str1 (char (Z.lor 0x80 (Z.land r 0x3F))))
  else
    let r := if (r <? 0) || (0x10FFFF <? r) || ((0xD800 <=? r) && (r <=? 0xDFFF))
             then RuneError else r in
    if r <=? 0xFFFF then
      String (char (Z.lor 0xE0 (Z.shiftr r 12)))
        (String (char (Z.lor 0x80 (Z.land (Z.shiftr r 6) 0x3F)))
           (str1 (char (Z.lor 0x80 (Z.land r 0x3F)))))
    else
      String (char (Z.lor 0xF0 (Z.shiftr r 18)))
        (String (char (Z.lor 0x80 (Z.land (Z.shiftr r 12) 0x3F)))
           (String (char (Z.lor 0x80 (Z.land (Z.shiftr r 6) 0x3F)))
              (str1 (char (Z.lor 0x80 (Z.land r 0x3F)))))).

Fixpoint lastBytes (s : string) (acc : list ascii) : list ascii :=
  match s with
  | EmptyString => acc
  | String c s' => lastBytes s' (c :: acc)
  end.

Fixpoint ofBytes (l : list ascii) : string :=
  match l with
  | [] => EmptyString
  | c :: l' => String c (ofBytes l')
  end.

(** The rune that [DecodeRuneInString] reads from [bytes], when it
    takes all of them. *)
Definition wholeRune (bytes : list ascii) : Z * nat :=
  let '(r, size) := DecodeRuneInString (ofBytes bytes) in
  if Nat.eqb size (List.length bytes) then (r, size) else (RuneError, 1%nat).

(** [DecodeLastRuneInString]: the last rune of [s] and its width.  An
    ASCII byte is a rune; otherwise the rune starts at the nearest byte
    that can start one among the three bytes before the last, and must
    end with the string. *)
Definition DecodeLastRuneInString (s : string) : Z * nat :=
  match lastBytes s [] with
  | [] => (RuneError, 0%nat)
  | c :: before =>
      if byte c <? RuneSelf then (byte c, 1%nat)
      else
        match before with
        | [] => (RuneError, 1%nat)
        | c1 :: before1 =>
            if RuneStart c1 then wholeRune [c1; c]
            else
              match before1 with
              | [] => (RuneError, 1%nat)
              | c2 :: before2 =>
                  if RuneStart c2 then wholeRune [c2; c1; c]
                  else
                    match before2 with
                    | [] => (RuneError, 1%nat)
                    | c3 :: _ =>
                        if RuneStart c3 then wholeRune [c3; c2; c1; c]
                        else (RuneError, 1%nat)
                    end
              end
        end
  end.

End utf8.

Module unicode.

(** [IsSpace]: the white space of Latin-1, and above it the property
    [White_Space]. *)
Definition IsSpace (r : Z) : bool :=
  if (0 <=? r) && (r <=? 0xFF) then
    (r =? 9) || (r =? 10) || (r =? 11) || (r =? 12) || (r =? 13) || (r =? 32)
    || (r =? 0x85) || (r =? 0xA0)
  else
    (r =? 0x1680) || ((0x2000 <=? r) && (r <=? 0x200A)) || (r =? 0x2028) || (r =? 0x2029)
    || (r =? 0x202F) || (r =? 0x205F) || (r =? 0x3000).

(** The lower-case mappings of the runes above ASCII, as the table
    [CaseRanges] of the package holds them for [LowerCase]: the simple
    lower-case mappings of the Unicode Character Database, here of
    Unicode 15.0.0, the version of the package since Go 1.21.  An entry
    [(lo, hi, stride, delta)] maps every [stride]-th rune from [lo] to
    [hi] to the rune [delta] further on; a stride of 2 is a sequence of
    alternating upper-case and lower-case letters. *)
Definition lowerRanges : list (Z * Z * Z * Z) :=
  [(0x00C0, 0x00D6, 1, 32); (0x00D8, 0x00DE, 1, 32); (0x0100, 0x012E, 2, 1);
   (0x0130, 0x0130, 1, (-199)); (0x0132, 0x0136, 2, 1); (0x0139, 0x0147, 2, 1);
   (0x014A, 0x0176, 2, 1); (0x0178, 0x0178, 1, (-121)); (0x0179, 0x017D, 2, 1);
   (0x0181, 0x0181, 1, 210); (0x0182, 0x0184, 2, 1); (0x0186, 0x0186, 1, 206);
   (0x0187, 0x0187, 1, 1); (0x0189, 0x018A, 1, 205); (0x018B, 0x018B, 1, 1);
   (0x018E, 0x018E, 1, 79); (0x018F, 0x018F, 1, 202); (0x0190, 0x0190, 1, 203);
   (0x0191, 0x0191, 1, 1); (0x0193, 0x0193, 1, 205); (0x0194, 0x0194, 1, 207);
   (0x0196, 0x0196, 1, 211); (0x0197, 0x0197, 1, 209); (0x0198, 0x0198, 1, 1);
   (0x019C, 0x019C, 1, 211); (0x019D, 0x019D, 1, 213); (0x019F, 0x019F, 1, 214);
   (0x01A0, 0x01A4, 2, 1); (0x01A6, 0x01A6, 1, 218); (0x01A7, 0x01A7, 1, 1);
   (0x01A9, 0x01A9, 1, 218); (0x01AC, 0x01AC, 1, 1); (0x01AE, 0x01AE, 1, 218);
   (0x01AF, 0x01AF, 1, 1); (0x01B1, 0x01B2, 1, 217); (0x01B3, 0x01B5, 2, 1);
   (0x01B7, 0x01B7, 1, 219); (0x01B8, 0x01B8, 1, 1); (0x01BC, 0x01BC, 1, 1);
   (0x01C4, 0x01C4, 1, 2); (0x01C5, 0x01C5, 1, 1); (0x01C7, 0x01C7, 1, 2);
   (0x01C8, 0x01C8, 1, 1); (0x01CA, 0x01CA, 1, 2); (0x01CB, 0x01DB, 2, 1);
   (0x01DE, 0x01EE, 2, 1); (0x01F1, 0x01F1, 1, 2); (0x01F2, 0x01F4, 2, 1);
   (0x01F6, 0x01F6, 1, (-97)); (0x01F7, 0x01F7, 1, (-56)); (0x01F8, 0x021E, 2, 1);
   (0x0220, 0x0220, 1, (-130)); (0x0222, 0x0232, 2, 1); (0x023A, 0x023A, 1, 10795);
   (0x023B, 0x023B, 1, 1); (0x023D, 0x023D, 1, (-163)); (0x023E, 0x023E, 1, 10792);
   (0x0241, 0x0241, 1, 1); (0x0243, 0x0243, 1, (-195)); (0x0244, 0x0244, 1, 69);
   (0x0245, 0x0245, 1, 71); (0x0246, 0x024E, 2, 1); (0x0370, 0x0372, 2, 1);
   (0x0376, 0x0376, 1, 1); (0x037F, 0x037F, 1, 116); (0x0386, 0x0386, 1, 38);
   (0x0388, 0x038A, 1, 37); (0x038C, 0x038C, 1, 64); (0x038E, 0x038F, 1, 63);
   (0x0391, 0x03A1, 1, 32); (0x03A3, 0x03AB, 1, 32); (0x03CF, 0x03CF, 1, 8);
   (0x03D8, 0x03EE, 2, 1); (0x03F4, 0x03F4, 1, (-60)); (0x03F7, 0x03F7, 1, 1);
   (0x03F9, 0x03F9, 1, (-7)); (0x03FA, 0x03FA, 1, 1); (0x03FD, 0x03FF, 1, (-130));
   (0x0400, 0x040F, 1, 80); (0x0410, 0x042F, 1, 32); (0x0460, 0x0480, 2, 1);
   (0x048A, 0x04BE, 2, 1); (0x04C0, 0x04C0, 1, 15); (0x04C1, 0x04CD, 2, 1);
   (0x04D0, 0x052E, 2, 1); (0x0531, 0x0556, 1, 48); (0x10A0, 0x10C5, 1, 7264);
   (0x10C7, 0x10C7, 1, 7264); (0x10CD, 0x10CD, 1, 7264); (0x13A0, 0x13EF, 1, 38864);
   (0x13F0, 0x13F5, 1, 8); (0x1C90, 0x1CBA, 1, (-3008)); (0x1CBD, 0x1CBF, 1, (-3008));
   (0x1E00, 0x1E94, 2, 1); (0x1E9E, 0x1E9E, 1, (-7615)); (0x1EA0, 0x1EFE, 2, 1);
   (0x1F08, 0x1F0F, 1, (-8)); (0x1F18, 0x1F1D, 1, (-8)); (0x1F28, 0x1F2F, 1, (-8));
   (0x1F38, 0x1F3F, 1, (-8)); (0x1F48, 0x1F4D, 1, (-8)); (0x1F59, 0x1F5F, 2, (-8));
   (0x1F68, 0x1F6F, 1, (-8)); (0x1F88, 0x1F8F, 1, (-8)); (0x1F98, 0x1F9F, 1, (-8));
   (0x1FA8, 0x1FAF, 1, (-8)); (0x1FB8, 0x1FB9, 1, (-8)); (0x1FBA, 0x1FBB, 1, (-74));
   (0x1FBC, 0x1FBC, 1, (-9)); (0x1FC8, 0x1FCB, 1, (-86)); (0x1FCC, 0x1FCC, 1, (-9));
   (0x1FD8, 0x1FD9, 1, (-8)); (0x1FDA, 0x1FDB, 1, (-100)); (0x1FE8, 0x1FE9, 1, (-8));
   (0x1FEA, 0x1FEB, 1, (-112)); (0x1FEC, 0x1FEC, 1, (-7)); (0x1FF8, 0x1FF9, 1, (-128));
   (0x1FFA, 0x1FFB, 1, (-126)); (0x1FFC, 0x1FFC, 1, (-9)); (0x2126, 0x2126, 1, (-7517));
   (0x212A, 0x212A, 1, (-8383)); (0x212B, 0x212B, 1, (-8262)); (0x2132, 0x2132, 1, 28);
   (0x2160, 0x216F, 1, 16); (0x2183, 0x2183, 1, 1); (0x24B6, 0x24CF, 1, 26);
   (0x2C00, 0x2C2F, 1, 48); (0x2C60, 0x2C60, 1, 1); (0x2C62, 0x2C62, 1, (-10743));
   (0x2C63, 0x2C63, 1, (-3814)); (0x2C64, 0x2C64, 1, (-10727)); (0x2C67, 0x2C6B, 2, 1);
   (0x2C6D, 0x2C6D, 1, (-10780)); (0x2C6E, 0x2C6E, 1, (-10749)); (0x2C6F, 0x2C6F, 1, (-10783));
   (0x2C70, 0x2C70, 1, (-10782)); (0x2C72, 0x2C72, 1, 1); (0x2C75, 0x2C75, 1, 1);
   (0x2C7E, 0x2C7F, 1, (-10815)); (0x2C80, 0x2CE2, 2, 1); (0x2CEB, 0x2CED, 2, 1);
   (0x2CF2, 0x2CF2, 1, 1); (0xA640, 0xA66C, 2, 1); (0xA680, 0xA69A, 2, 1);
   (0xA722, 0xA72E, 2, 1); (0xA732, 0xA76E, 2, 1); (0xA779, 0xA77B, 2, 1);
   (0xA77D, 0xA77D, 1, (-35332)); (0xA77E, 0xA786, 2, 1); (0xA78B, 0xA78B, 1, 1);
   (0xA78D, 0xA78D, 1, (-42280)); (0xA790, 0xA792, 2, 1); (0xA796, 0xA7A8, 2, 1);
   (0xA7AA, 0xA7AA, 1, (-42308)); (0xA7AB, 0xA7AB, 1, (-42319)); (0xA7AC, 0xA7AC, 1, (-42315));
   (0xA7AD, 0xA7AD, 1, (-42305)); (0xA7AE, 0xA7AE, 1, (-42308)); (0xA7B0, 0xA7B0, 1, (-42258));
   (0xA7B1, 0xA7B1, 1, (-42282)); (0xA7B2, 0xA7B2, 1, (-42261)); (0xA7B3, 0xA7B3, 1, 928);
   (0xA7B4, 0xA7C2, 2, 1); (0xA7C4, 0xA7C4, 1, (-48)); (0xA7C5, 0xA7C5, 1, (-42307));
   (0xA7C6, 0xA7C6, 1, (-35384)); (0xA7C7, 0xA7C9, 2, 1); (0xA7D0, 0xA7D0, 1, 1);
   (0xA7D6, 0xA7D8, 2, 1); (0xA7F5, 0xA7F5, 1, 1); (0xFF21, 0xFF3A, 1, 32);
   (0x10400, 0x10427, 1, 40); (0x104B0, 0x104D3, 1, 40); (0x10570, 0x1057A, 1, 39);
   (0x1057C, 0x1058A, 1, 39); (0x1058C, 0x10592, 1, 39); (0x10594, 0x10595, 1, 39);
   (0x10C80, 0x10CB2, 1, 64); (0x118A0, 0x118BF, 1, 32); (0x16E40, 0x16E5F, 1, 32);
   (0x1E900, 0x1E921, 1, 34)].

Definition inRange (r : Z) (e : Z * Z * Z * Z) : bool :=
  let '(lo, hi, stride, _) := e in
  (lo <=? r) && (r <=? hi) && ((r - lo) mod stride =? 0).

(** [unicode.ToLower] *)
Definition ToLower (r : Z) : Z :=
  if r <=? 0x7F then
    (if (65 <=? r) && (r <=? 90) then r + 32 else r)
  else
    match find (inRange r) lowerRanges with
    | Some (_, _, _, delta) => r + delta
    | None => r
    end.

End unicode.


(** ** The fragment of Go's [strings] package the sources call

    Separators and patterns are the non-empty constants of the call
    sites; the empty-separator behaviour of Go (explode into runes) is not
    used by the program and not modelled. *)

Module strings.

Fixpoint HasPrefix (s prefix : string) {struct prefix} : bool :=
  match prefix, s with
  | EmptyString, _ => true
  | String p prefix', String c s' => Ascii.eqb c p && HasPrefix s' prefix'
  | String _ _, EmptyString => false
  end.

Fixpoint drop (n : nat) (s : string) : string :=
  match n, s with
  | O, _ => s
  | S n', String _ s' => drop n' s'
  | S _, EmptyString => EmptyString
  end.

Definition TrimPrefix (s prefix : string) : string :=
  if HasPrefix s prefix then drop (String.length prefix) s else s.

Fixpoint Contains (s substr : string) : bool :=
  HasPrefix s substr ||
  match s with
  | EmptyString => false
  | String _ s' => Contains s' substr
  end.

Fixpoint mem (c : ascii) (chars : string) : bool :=
  match chars with
  | EmptyString => false
  | String d chars' => Ascii.eqb c d || mem c chars'
  end.

(** [ContainsAny] with an ASCII character set: Go takes the byte-wise
    path ([makeASCIISet]). *)
Fixpoint ContainsAny (s chars : string) : bool :=
  match s with
  | EmptyString => false
  | String c s' => mem c chars || ContainsAny s' chars
  end.

(** [genSplit]: cut at every non-overlapping occurrence of [sep], left
    to right.  [skip] counts the bytes of a separator still to be
    consumed, [cur] is the piece being accumulated, and [limit] bounds
    the number of cuts still allowed ([None]: unbounded). *)
Fixpoint genSplit (sep : string) (limit : option nat) (skip : nat)
                  (cur : string) (s : string) : list string :=
  match s with
  | EmptyString => [cur]
  | String c s' =>
      match skip with
      | S k => genSplit sep limit k cur s'
      | O =>
          match limit with
          | Some O => genSplit sep limit O (cur ++ str1 c) s'
          | Some (S l) =>
              if HasPrefix s sep
              then cur :: genSplit sep (Some l) (String.length sep - 1) EmptyString s'
              else genSplit sep limit O (cur ++ str1 c) s'
          | None =>
              if HasPrefix s sep
              then cur :: genSplit sep None (String.length sep - 1) EmptyString s'
              else genSplit sep limit O (cur ++ str1 c) s'
          end
      end
  end.

Definition Split (s sep : string) : list string :=
  genSplit sep None O EmptyString s.

(** [SplitN s sep n]: [n = 0] gives nil, [n < 0] is [Split], [n > 0]
    gives at most [n] pieces, the last being the unsplit remainder. *)
Definition SplitN (s sep : string) (n : Z) : list string :=
  if (n =? 0)%Z then []
  else if (n <? 0)%Z then Split s sep
  else genSplit sep (Some (Z.to_nat n - 1)%nat) O EmptyString s.

Fixpoint Join (elems : list string) (sep : string) : string :=
  match elems with
  | [] => EmptyString
  | [e] => e
  | e :: rest => e ++ sep ++ Join rest sep
  end.

(** [Replace s old new (-1)]: every non-overlapping occurrence of the
    non-empty [old], left to right. *)
Fixpoint replaceGo (old new : string) (skip : nat) (s : string) : string :=
  match s with
  | EmptyString => EmptyString
  | String c s' =>
      match skip with
      | S k => replaceGo old new k s'
      | O =>
          if HasPrefix s old
          then new ++ replaceGo old new (String.length old - 1) s'
          else String c (replaceGo old new O s')
      end
  end.

Definition ReplaceAll (s old new : string) : string :=
  replaceGo old new O s.

Definition isUpper (c : ascii) : bool :=
  (65 <=? nat_of_ascii c)%nat && (nat_of_ascii c <=? 90)%nat.

Definition lowerByte (c : ascii) : ascii :=
  if isUpper c then ascii_of_nat (nat_of_ascii c + 32) else c.

(** No byte of [s] is [utf8.RuneSelf] or more. *)
Fixpoint isASCII (s : string) : bool :=
  match s with
  | EmptyString => true
  | String c s' => (utf8.byte c <? utf8.RuneSelf) && isASCII s'
  end.

Fixpoint hasUpper (s : string) : bool :=
  match s with
  | EmptyString => false
  | String c s' => isUpper c || hasUpper s'
  end.

(** The byte loop of [ToLower] for a string of ASCII bytes. *)
Fixpoint lowerASCII (s : string) : string :=
  match s with
  | EmptyString => EmptyString
  | String c s' => String (lowerByte c) (lowerASCII s')
  end.

(** [Map mapping s]: the runes of [s], read as [range] reads them (a
    byte that starts no valid encoding is the rune [RuneError], of
    width 1), each replaced by its image, and dropped when the image is
    negative.  [skip] counts the bytes still to pass of the rune read
    last. *)
Fixpoint mapRunes (mapping : Z -> Z) (skip : nat) (s : string) : string :=
  match s with
  | EmptyString => EmptyString
  | String _ s' =>
      match skip with
      | S k => mapRunes mapping k s'
      | O =>
          let '(r, width) := utf8.DecodeRuneInString s in
          let r := mapping r in
          (if 0 <=? r then utf8.EncodeRune r else EmptyString)
          ++ mapRunes mapping (width - 1) s'
      end
  end.

Definition Map (mapping : Z -> Z) (s : string) : string := mapRunes mapping 0 s.

(** [ToLower]: byte by byte for a string of ASCII bytes, and through
    [Map] and [unicode.ToLower] as soon as a byte is not ASCII. *)
Definition ToLower (s : string) : string :=
  if isASCII s then (if hasUpper s then lowerASCII s else s)
  else Map unicode.ToLower s.

Definition asciiSpace (c : ascii) : bool :=
  Ascii.eqb c TAB || Ascii.eqb c LF || Ascii.eqb c VT ||
  Ascii.eqb c FF || Ascii.eqb c CR || Ascii.eqb c " ".

Fixpoint trimLeft (s : string) : string :=
  match s with
  | String c s' => if asciiSpace c then trimLeft s' else s
  | EmptyString => EmptyString
  end.

(** Right trim: the result of trimming the tail, dropped when it is
    empty and the head is a space. *)
Fixpoint trimRight (s : string) : string :=
  match s with
  | EmptyString => EmptyString
  | String c s' =>
      match trimRight s' with
      | EmptyString => if asciiSpace c then EmptyString else str1 c
      | t => String c t
      end
  end.

(** [TrimLeftFunc s unicode.IsSpace]: the string from its first rune
    that is not white space. *)
Fixpoint trimLeftSpace (skip : nat) (s : string) : string :=
  match s with
  | EmptyString => EmptyString
  | String _ s' =>
      match skip with
      | S k => trimLeftSpace k s'
      | O =>
          let '(r, width) := utf8.DecodeRuneInString s in
          if unicode.IsSpace r then trimLeftSpace (width - 1) s' else s
      end
  end.

(** [TrimRightFunc s unicode.IsSpace]: the last rune is dropped as long
    as it is white space; [fuel] bounds the number of runes. *)
Fixpoint trimRightSpace (fuel : nat) (s : string) : string :=
  match fuel with
  | O => s
  | S fuel' =>
      let '(r, size) := utf8.DecodeLastRuneInString s in
      if Nat.eqb size 0 then s
      else if unicode.IsSpace r
           then trimRightSpace fuel' (substring 0 (String.length s - size) s)
           else s
  end.

Definition TrimLeftSpace (s : string) : string := trimLeftSpace 0 s.
Definition TrimRightSpace (s : string) : string := trimRightSpace (String.length s) s.

Definition startsNonASCII (s : string) : bool :=
  match s with
  | String c _ => utf8.RuneSelf <=? utf8.byte c
  | EmptyString => false
  end.

Fixpoint endsNonASCII (s : string) : bool :=
  match s with
  | EmptyString => false
  | String c EmptyString => utf8.RuneSelf <=? utf8.byte c
  | String _ s' => endsNonASCII s'
  end.

(** [TrimSpace]: the two loops over the ASCII white space, each giving
    way to the trimming by runes ([TrimFunc], [TrimRightFunc] with
    [unicode.IsSpace]) at the first byte that is not ASCII. *)
Definition TrimSpace (s : string) : string :=
  let s := trimLeft s in
  if startsNonASCII s then TrimRightSpace (TrimLeftSpace s)
  else
    let s := trimRight s in
    if endsNonASCII s then TrimRightSpace s else s.

End strings.

(** ** CSV field escaping (exporter) *)

Definition csvSpecials : string :=
  String "," (String quoteChar (String LF (String CR EmptyString))).

Definition csvEscape (s : string) : string :=
  if strings.ContainsAny s csvSpecials
  then str1 quoteChar ++ strings.ReplaceAll s (str1 quoteChar) (String quoteChar (str1 quoteChar)) ++ str1 quoteChar
  else s.

(** ** [strconv] and [fmt]: decimal text of integers *)

Module strconv.

(** [%d] and [Itoa]: decimal digits with a leading minus sign. *)
Definition Itoa (z : Z) : string := NilZero.string_of_int (Z.to_int z).

Definition isDigit (c : ascii) : bool :=
  (48 <=? nat_of_ascii c)%nat && (nat_of_ascii c <=? 57)%nat.

Definition digitVal (c : ascii) : Z := Z.of_nat (nat_of_ascii c) - 48.

Inductive NumError := ErrSyntax | ErrRange.

Definition maxUint64 : Z := 2 ^ 64 - 1.

(** The digit loop of [ParseUint s 10 64], [n] being the value read so
    far: a byte that is not a digit is a syntax error with value 0;
    overflow returns at once with the largest value and a range
    error. *)
Fixpoint parseUintGo (s : string) (n : Z) : Z * option NumError :=
  match s with
  | EmptyString => (n, None)
  | String c s' =>
      if isDigit c then
        if n >=? maxUint64 / 10 + 1 then (maxUint64, Some ErrRange)
        else
          let n1 := n * 10 + digitVal c in
          if n1 >? maxUint64 then (maxUint64, Some ErrRange)
          else parseUintGo s' n1
      else (0, Some ErrSyntax)
  end.

Definition ParseUint (s : string) : Z * option NumError :=
  match s with
  | EmptyString => (0, Some ErrSyntax)
  | _ => parseUintGo s 0
  end.

(** [ParseInt s 10 64]. *)
Definition ParseInt (s : string) : Z * option NumError :=
  match s with
  | EmptyString => (0, Some ErrSyntax)
  | String c0 s' =>
      let neg := Ascii.eqb c0 "-" in
      let digits := if Ascii.eqb c0 "+" || neg then s' else s in
      let '(un, err) := ParseUint digits in
      match err with
      | Some ErrSyntax => (0, err)
      | _ =>
          let cutoff := 2 ^ 63 in
          if negb neg && (un >=? cutoff) then (cutoff - 1, Some ErrRange)
          else if neg && (un >? cutoff) then (- cutoff, Some ErrRange)
          else ((if neg then - un else un), None)
      end
  end.

End strconv.

Module fmt.

(** Round the rational [num / den] ([den > 0]) to the nearest integer,
    ties to even. *)
Definition roundHalfEven (num den : Z) : Z :=
  let q := num / den in
  let r := num mod den in
  if 2 * r <? den then q
  else if den <? 2 * r then q + 1
  else if Z.even q then q else q + 1.

(** [float64(b)] for an integer [b], as the integer it denotes: exact
    below [2^53], otherwise rounded to a 53-bit significand, ties to
    even. *)
Definition float64 (b : Z) : Z :=
  let a := Z.abs b in
  if a <? 2 ^ 53 then b
  else
    let e := Z.log2 a - 52 in
    Z.sgn b * (roundHalfEven a (2 ^ e) * 2 ^ e).

(** [Sprintf "%.1f"] of the float [num / den], [den] a power of two
    (the quotient of two floats by a power of two is exact): Go prints
    the decimal expansion of the float rounded to one fractional digit,
    ties to even. *)
Definition tenths (num den : Z) : Z := roundHalfEven (10 * Z.abs num) den.

Definition Sprintf_1f (num den : Z) : string :=
  let t := tenths num den in
  (if num <? 0 then "-" else "") ++
  strconv.Itoa (t / 10) ++ "." ++ strconv.Itoa (t mod 10).

End fmt.

(** ** [time]: the instants the program builds

    A [Time] is the pair Go keeps internally: seconds since January 1 of
    year 1 (UTC) and nanoseconds within the second. *)

Module time.

Record Time := mkTime { sec : Z; nsec : Z }.

(** [time.Time{}], the zero time. *)
Definition zeroTime : Time := mkTime 0 0.

(** Seconds from year 1 to 1970. *)
Definition unixToInternal : Z := 62135596800.

Definition Unix (s n : Z) : Time :=
  let '(s, n) :=
    if (n <? 0) || (n >=? 1000000000) then
      let k := Z.quot n 1000000000 in
      let s := s + k in
      let n := n - k * 1000000000 in
      if n <? 0 then (s - 1, n + 1000000000) else (s, n)
    else (s, n) in
  mkTime (s + unixToInternal) n.

Definition IsZero (t : Time) : bool := (sec t =? 0) && (nsec t =? 0).

(** [t.Unix()] and [t.UnixNano()] (the latter without wrap-around). *)
Definition UnixSeconds (t : Time) : Z := sec t - unixToInternal.
Definition UnixNano (t : Time) : Z := UnixSeconds t * 1000000000 + nsec t.

End time.

(** ** db.go: constants and value types *)

Definition appleEpochOffset : Z := 978307200.
Definition messagesPageSize : Z := 200.

Record AttachmentInfo := mkAttachmentInfo {
  TypeLabel : string;
  Filename : string;
  Size : Z
}.

Record Message := mkMessage {
  ROWID : Z;
  Text : string;
  Date : time.Time;
  IsFromMe : bool;
  Sender : string;
  Service : string;
  Attachments : list AttachmentInfo
}.

(** ** db.go: [formatBytes] *)

Definition formatBytes (b : Z) : string :=
  if b >=? Z.shiftl 1 30 then fmt.Sprintf_1f (fmt.float64 b) (fmt.float64 (Z.shiftl 1 30)) ++ " GB"
  else if b >=? Z.shiftl 1 20 then fmt.Sprintf_1f (fmt.float64 b) (fmt.float64 (Z.shiftl 1 20)) ++ " MB"
  else if b >=? Z.shiftl 1 10 then fmt.Sprintf_1f (fmt.float64 b) (fmt.float64 (Z.shiftl 1 10)) ++ " KB"
  else strconv.Itoa b ++ " B".

(** ** db.go: [attachmentLabel] *)

Definition attachmentLabel (mime : string) : string :=
  let mime := strings.TrimSpace (strings.ToLower mime) in
  if strings.HasPrefix mime "image/" then
    let sub := strings.TrimPrefix mime "image/" in
    if String.eqb sub "jpeg" || String.eqb sub "jpg" then "photo"
    else if String.eqb sub "png" then "image"
    else if String.eqb sub "heic" || String.eqb sub "heif" then "photo"
    else if String.eqb sub "gif" then "GIF"
    else if String.eqb sub "webp" then "image"
    else "image"
  else if strings.HasPrefix mime "video/" then "video"
  else if strings.HasPrefix mime "audio/" then "audio"
  else if String.eqb mime "application/pdf" then "PDF"
  else if String.eqb mime "text/vcard" then "contact card"
  else if String.eqb mime "text/x-markdown" then "markdown"
  else if strings.Contains mime "zip" || strings.Contains mime "archive" then "archive"
  else if strings.Contains mime "iwork-numbers" then "Numbers spreadsheet"
  else if strings.Contains mime "iwork-pages" then "Pages document"
  else if strings.Contains mime "iwork-keynote" then "Keynote presentation"
  else if String.eqb mime "" then "attachment"
  else "file".

(** ** db.go: [parseAttachments]

    The body of the [for] loop is [parseEntry]: [None] is the [continue]
    of the null-row test, [Some a] the record appended. *)

Definition parseEntry (entry : string) : option AttachmentInfo :=
  let fields := strings.SplitN entry "||" 3 in
  let mime := if (0 <? List.length fields)%nat then nth 0 fields "" else "" in
  let name := if (1 <? List.length fields)%nat then nth 1 fields "" else "" in
  let size := if (2 <? List.length fields)%nat then fst (strconv.ParseInt (nth 2 fields "")) else 0 in
  if String.eqb mime "" && String.eqb name "" && (size =? 0)%Z then None
  else Some (mkAttachmentInfo (attachmentLabel mime) name size).

Definition parseAttachments (raw : string) : list AttachmentInfo :=
  if String.eqb raw "" then []
  else
    fold_left
      (fun (attachments : list AttachmentInfo) entry =>
         match parseEntry entry with
         | None => attachments
         | Some a => (attachments ++ [a])%list
         end)
      (strings.Split raw ";;") [].

(** ** db.go: [appleNanosToTime] *)

Definition appleNanosToTime (nanos : Z) : time.Time :=
  if (nanos =? 0)%Z then time.zeroTime
  else
    let unixSeconds := Z.quot nanos 1000000000 + appleEpochOffset in
    let remainder := Z.rem nanos 1000000000 in
    time.Unix unixSeconds remainder.

(** ** The database read by the store

    The tables of [chat.db] with the columns the queries select.  A
    nullable column the queries wrap in [COALESCE] is an [option]; the
    columns scanned without it ([date], [chat_identifier],
    [service_name], [handle.id]) are plain values, a [NULL] there being a
    scan error of the driver and not a result of the program.  The
    column [is_from_me] is kept as stored, an integer or [NULL]: the
    message queries scan it into a [bool], the conversation query sums
    it without scanning it. *)

Record chat_row := mkChat {
  chat_ROWID : Z;
  chat_identifier : string;
  chat_display_name : option string;
  chat_service_name : string;
  chat_style : option Z
}.

Record message_row := mkMessageRow {
  message_ROWID : Z;
  message_text : option string;
  message_handle_id : Z;
  message_service : option string;
  message_date : Z;
  message_is_from_me : option Z
}.

Record handle_row := mkHandle {
  handle_ROWID : Z;
  handle_id : string
}.

Record attachment_row := mkAttachment {
  attachment_ROWID : Z;
  attachment_filename : option string;
  attachment_mime_type : option string;
  attachment_transfer_name : option string;
  attachment_total_bytes : option Z
}.

(** Join tables are lists of pairs: [(chat_id, message_id)],
    [(chat_id, handle_id)], [(message_id, attachment_id)]. *)
Record Database := mkDatabase {
  chat : list chat_row;
  message : list message_row;
  handle : list handle_row;
  attachment : list attachment_row;
  chat_message_join : list (Z * Z);
  chat_handle_join : list (Z * Z);
  message_attachment_join : list (Z * Z)
}.

Definition COALESCE {A : Type} (x : option A) (d : A) : A :=
  match x with Some v => v | None => d end.

(** [ORDER BY]: a stable insertion sort; [le a b] says that [a] may
    stand before [b]. *)
Fixpoint insertBy {A : Type} (le : A -> A -> bool) (x : A) (l : list A) : list A :=
  match l with
  | [] => [x]
  | y :: l' => if le x y then x :: y :: l' else y :: insertBy le x l'
  end.

Fixpoint sortBy {A : Type} (le : A -> A -> bool) (l : list A) : list A :=
  match l with
  | [] => []
  | x :: l' => insertBy le x (sortBy le l')
  end.

Definition dateAsc (a b : message_row) : bool := message_date a <=? message_date b.
Definition dateDesc (a b : message_row) : bool := message_date b <=? message_date a.

(** The [chat_message_join] rows that join message [m] under
    [WHERE cmj.chat_id = chatID]. *)
Definition joinsOf (db : Database) (chatID : Z) (m : message_row) : list (Z * Z) :=
  filter (fun j => (fst j =? chatID) && (snd j =? message_ROWID m)) (chat_message_join db).

(** [FROM message m JOIN chat_message_join cmj ... WHERE cmj.chat_id = ?
    GROUP BY m.ROWID]: one group per message of the chat. *)
Definition chatMessages (db : Database) (chatID : Z) : list message_row :=
  filter (fun m => negb (Nat.eqb (List.length (joinsOf db chatID m)) 0)) (message db).

(** [LEFT JOIN handle h ON m.handle_id = h.ROWID], then
    [COALESCE(h.id, '')]. *)
Definition senderOf (db : Database) (m : message_row) : string :=
  match find (fun h => handle_ROWID h =? message_handle_id m) (handle db) with
  | Some h => handle_id h
  | None => ""
  end.

(** One operand of [GROUP_CONCAT]:
    [COALESCE(a.mime_type,'') || '||' || COALESCE(a.transfer_name,'')
     || '||' || COALESCE(a.total_bytes,0)]. *)
Definition packAttachment (a : option attachment_row) : string :=
  match a with
  | Some a =>
      COALESCE (attachment_mime_type a) "" ++ "||" ++
      COALESCE (attachment_transfer_name a) "" ++ "||" ++
      strconv.Itoa (COALESCE (attachment_total_bytes a) 0)
  | None => "" ++ "||" ++ "" ++ "||" ++ strconv.Itoa 0
  end.

(** The joined rows of one message under the two attachment
    [LEFT JOIN]s. *)
Definition attachmentJoin (db : Database) (m : message_row) : list (option attachment_row) :=
  match filter (fun j => fst j =? message_ROWID m) (message_attachment_join db) with
  | [] => [None]
  | js => map (fun j => find (fun a => attachment_ROWID a =? snd j) (attachment db)) js
  end.

(** [GROUP_CONCAT(..., ';;')] over the group of message [m]: the
    attachment rows, once per joining [chat_message_join] row. *)
Definition attachRaw (db : Database) (chatID : Z) (m : message_row) : string :=
  strings.Join
    (flat_map (fun _ => map packAttachment (attachmentJoin db m)) (joinsOf db chatID m))
    ";;".

(** [rows.Scan] of an integer column into a Go [bool]: 1 is [true] and
    0 is [false].  On [NULL] and on every other value [Scan] returns an
    error; the embedding of the queries follows their success path,
    where the value is 0 or 1. *)
Definition scanBool (v : option Z) : bool :=
  match v with
  | Some 1 => true
  | _ => false
  end.

(** [rows.Scan] and the decoding that follows it in the row loop. *)
Definition scanMessage (db : Database) (chatID : Z) (m : message_row) : Message :=
  mkMessage
    (message_ROWID m)
    (COALESCE (message_text m) "")
    (appleNanosToTime (message_date m))
    (scanBool (message_is_from_me m))
    (senderOf db m)
    (COALESCE (message_service m) "")
    (parseAttachments (attachRaw db chatID m)).

(** ** db.go: [Store.FetchMessages] and [Store.FetchAllMessages]

    The functions are embedded on their success path: a failing
    [s.db.Query] or [rows.Scan] returns [(nil, err)] and reaches the
    coordinator as the [err] field of the result message. *)

(** The result set of the page query, newest first. *)
Definition queryPage (db : Database) (chatID cursor pageSize : Z) : list message_row :=
  let rows :=
    if cursor =? 0 then chatMessages db chatID
    else filter (fun m => message_ROWID m <? cursor) (chatMessages db chatID) in
  firstn (Z.to_nat pageSize) (sortBy dateDesc rows).

Definition FetchMessages (db : Database) (chatID cursor pageSize : Z) : list Message :=
  let pageSize := if pageSize <=? 0 then messagesPageSize else pageSize in
  let messages := map (scanMessage db chatID) (queryPage db chatID cursor pageSize) in
  (* Reverse to chronological order *)
  rev messages.

Definition FetchAllMessages (db : Database) (chatID : Z) : list Message :=
  map (scanMessage db chatID) (sortBy dateAsc (chatMessages db chatID)).

(** ** db.go: [Store.FetchConversations] *)

Record Conversation := mkConversation {
  ChatID : Z;
  Identifier : string;
  DisplayName : string;
  Participants : list string;
  ServiceName : string;
  FirstMsgDate : time.Time;
  LastMsgDate : time.Time;
  MessageCount : Z;
  SentCount : Z;
  ReceivedCount : Z;
  Style : Z
}.

(** The rows of [chat_message_join cmj JOIN message m] of one chat. *)
Definition joinedMessages (db : Database) (chatID : Z) : list message_row :=
  flat_map
    (fun j => if fst j =? chatID
              then filter (fun m => message_ROWID m =? snd j) (message db)
              else [])
    (chat_message_join db).

Definition minDate (l : list message_row) : option Z :=
  fold_left (fun acc m => Some (match acc with Some d => Z.min d (message_date m) | None => message_date m end)) l None.

Definition maxDate (l : list message_row) : option Z :=
  fold_left (fun acc m => Some (match acc with Some d => Z.max d (message_date m) | None => message_date m end)) l None.

(** [SUM(x)] over a group: the sum of the values that are not [NULL],
    and [NULL] when there is none.  (SQLite raises an error when the
    sum leaves the 64-bit range, and the query fails.) *)
Definition SUM (l : list (option Z)) : option Z :=
  fold_left (fun acc v => match v with
                          | Some x => Some (COALESCE acc 0 + x)
                          | None => acc
                          end) l None.

(** [CASE WHEN m.is_from_me = 0 THEN 1 ELSE 0 END]: a comparison with
    [NULL] is not true. *)
Definition notFromMe (m : message_row) : option Z :=
  match message_is_from_me m with
  | Some 0 => Some 1
  | _ => Some 0
  end.

(** [ORDER BY sub.last_date DESC]; SQLite orders [NULL] below every
    value. *)
Definition lastDateDesc (db : Database) (a b : chat_row) : bool :=
  match maxDate (joinedMessages db (chat_ROWID b)), maxDate (joinedMessages db (chat_ROWID a)) with
  | None, _ => true
  | Some _, None => false
  | Some x, Some y => x <=? y
  end.

Definition fetchParticipants (db : Database) (chatID : Z) : list string :=
  flat_map
    (fun h => map (fun _ => handle_id h)
                  (filter (fun j => (fst j =? chatID) && (snd j =? handle_ROWID h))
                          (chat_handle_join db)))
    (handle db).

Definition scanConversation (db : Database) (c : chat_row) : Conversation :=
  let sub := joinedMessages db (chat_ROWID c) in
  mkConversation
    (chat_ROWID c)
    (chat_identifier c)
    (COALESCE (chat_display_name c) "")
    (fetchParticipants db (chat_ROWID c))
    (chat_service_name c)
    (appleNanosToTime (COALESCE (minDate sub) 0))
    (appleNanosToTime (COALESCE (maxDate sub) 0))
    (Z.of_nat (List.length sub))
    (COALESCE (SUM (map message_is_from_me sub)) 0)
    (COALESCE (SUM (map notFromMe sub)) 0)
    (COALESCE (chat_style c) 0).

Definition FetchConversations (db : Database) : list Conversation :=
  map (scanConversation db) (sortBy (lastDateDesc db) (chat db)).

(** ** db.go: result types of the other two queries *)

Record ChatAttachment := mkChatAttachment {
  ca_ROWID : Z;
  ca_FilePath : string;
  ca_Filename : string;
  ca_MimeType : string;
  ca_TypeLabel : string;
  ca_Size : Z;
  ca_Date : time.Time;
  ca_IsFromMe : bool;
  ca_Sender : string
}.

Record SearchResult := mkSearchResult {
  sr_Message : Message;
  sr_ChatID : Z;
  sr_ChatName : string
}.

(** ** contacts.go: the contact book as the coordinator reads it *)

Record Contact := mkContact {
  Name : string;
  Phones : list string;
  Emails : list string
}.

(** The two Go maps, as association lists keyed by normalised digits and
    by lower-case e-mail address. *)
Record ContactBook := mkContactBook {
  byDigits : list (string * Contact);
  byEmail : list (string * Contact)
}.

Definition lookup (key : string) (m : list (string * Contact)) : option Contact :=
  option_map snd (find (fun kv => String.eqb (fst kv) key) m).

Fixpoint digitsOf (phone : string) : string :=
  match phone with
  | EmptyString => EmptyString
  | String c s => if strconv.isDigit c then String c (digitsOf s) else digitsOf s
  end.

Definition normalizePhone (phone : string) : string :=
  let d := digitsOf phone in
  if Nat.eqb (String.length d) 11 && strings.HasPrefix d "1" then strings.drop 1 d else d.

Definition Resolve (cb : ContactBook) (h : string) : option Contact :=
  if String.eqb h "" then None
  else if strings.Contains h "@" then lookup (strings.ToLower (strings.TrimSpace h)) (byEmail cb)
  else
    let digits := normalizePhone h in
    if String.eqb digits "" then None
    else
      match lookup digits (byDigits cb) with
      | Some c => Some c
      | None =>
          if (10 <? String.length digits)%nat
          then lookup (strings.drop (String.length digits - 10) digits) (byDigits cb)
          else None
      end.

Definition ResolveName (cb : ContactBook) (h : string) : string :=
  match Resolve cb h with
  | Some c => Name c
  | None => h
  end.

(** ** Bubble Tea: messages and commands

    A [tea.Cmd] is a closure run off the event loop; it is embedded as
    the description of what it will do.  Commands handed back by a widget
    are opaque ([CmdWidget]). *)

Definition error := option string.

Inductive Cmd :=
| CmdNil
| CmdQuit
| CmdBlink
| CmdWidget (tag : nat)
| CmdFetchConversations
| CmdFetchMessages (chatID cursor : Z) (prepend : bool)
| CmdFetchAttachments (chatID : Z)
| CmdOpenAttachment (path : string)
| CmdExport (chatID : Z) (participants : list string) (title : string)
| CmdSearch (term : string)
| CmdBatch (c1 c2 : Cmd).

Inductive MouseEvent := WheelUp | WheelDown | MouseOther.

Inductive Msg :=
| WindowSizeMsg (Width Height : Z)
| KeyMsg (key : string)
| MouseMsg (ev : MouseEvent)
| conversationsLoadedMsg (conversations : list Conversation) (err : error)
| messagesLoadedMsg (messages : list Message) (chatID : Z) (prepend : bool) (err : error)
| searchResultsMsg (results : list SearchResult) (term : string) (err : error)
| exportDoneMsg (path : string) (err : error)
| attachmentsLoadedMsg (attachments : list ChatAttachment) (err : error)
| attachmentOpenedMsg (err : error)
| otherMsg (tag : nat).

(** ** The widgets of the [bubbles] library

    The library is a dependency, not part of the repository: each widget
    is embedded as the state the coordinator reads and writes, with the
    operations the coordinator calls; the widgets' own event handling is
    left to the environment (class [UI] below), the viewport's key and
    wheel scrolling apart. *)

Module viewport.

Record Model := mk {
  Width : Z;
  Height : Z;
  YOffset : Z;
  lines : list string
}.

Definition New (w h : Z) : Model := mk w h 0 [].

Definition set_Width (w : Z) (m : Model) : Model := mk w (Height m) (YOffset m) (lines m).
Definition set_Height (h : Z) (m : Model) : Model := mk (Width m) h (YOffset m) (lines m).
Definition set_YOffset (y : Z) (m : Model) : Model := mk (Width m) (Height m) y (lines m).
Definition set_lines (l : list string) (m : Model) : Model := mk (Width m) (Height m) (YOffset m) l.

Definition AtTop (m : Model) : bool := YOffset m <=? 0.

Definition maxYOffset (m : Model) : Z :=
  Z.max 0 (Z.of_nat (List.length (lines m)) - Height m).

Definition AtBottom (m : Model) : bool := YOffset m >=? maxYOffset m.

Definition clamp (v low high : Z) : Z :=
  let '(low, high) := if high <? low then (high, low) else (low, high) in
  Z.min high (Z.max low v).

Definition SetYOffset (n : Z) (m : Model) : Model :=
  set_YOffset (clamp n 0 (maxYOffset m)) m.

Definition GotoTop (m : Model) : Model :=
  if AtTop m then m else SetYOffset 0 m.

Definition GotoBottom (m : Model) : Model :=
  SetYOffset (maxYOffset m) m.

Definition CRLF : string := String CR (str1 LF).

Definition SetContent (s : string) (m : Model) : Model :=
  let s := strings.ReplaceAll s CRLF (str1 LF) in
  let m := set_lines (strings.Split s (str1 LF)) m in
  if YOffset m >? Z.of_nat (List.length (lines m)) - 1 then GotoBottom m else m.

Definition ViewDown (m : Model) : Model :=
  if AtBottom m then m else SetYOffset (YOffset m + Height m) m.

Definition ViewUp (m : Model) : Model :=
  if AtTop m then m else SetYOffset (YOffset m - Height m) m.

Definition HalfViewDown (m : Model) : Model :=
  if AtBottom m then m else SetYOffset (YOffset m + Z.quot (Height m) 2) m.

Definition HalfViewUp (m : Model) : Model :=
  if AtTop m then m else SetYOffset (YOffset m - Z.quot (Height m) 2) m.

Definition LineDown (n : Z) (m : Model) : Model :=
  if AtBottom m || (n =? 0) || Nat.eqb (List.length (lines m)) 0 then m
  else SetYOffset (YOffset m + n) m.

Definition LineUp (n : Z) (m : Model) : Model :=
  if AtTop m || (n =? 0) || Nat.eqb (List.length (lines m)) 0 then m
  else SetYOffset (YOffset m - n) m.

Definition keyIn (k : string) (keys : list string) : bool :=
  existsb (String.eqb k) keys.

(** The default key map; the wheel moves by three lines. *)
Definition Update (msg : Msg) (m : Model) : Model :=
  match msg with
  | KeyMsg k =>
      if keyIn k ["pgdown"; " "; "f"] then ViewDown m
      else if keyIn k ["pgup"; "b"] then ViewUp m
      else if keyIn k ["d"; "ctrl+d"] then HalfViewDown m
      else if keyIn k ["u"; "ctrl+u"] then HalfViewUp m
      else if keyIn k ["down"; "j"] then LineDown 1 m
      else if keyIn k ["up"; "k"] then LineUp 1 m
      else m
  | MouseMsg WheelUp => LineUp 3 m
  | MouseMsg WheelDown => LineDown 3 m
  | _ => m
  end.

End viewport.

Module blist.

Inductive FilterState := Unfiltered | Filtering | FilterApplied.

Definition isUnfiltered (f : FilterState) : bool :=
  match f with Unfiltered => true | _ => false end.

Definition isFiltering (f : FilterState) : bool :=
  match f with Filtering => true | _ => false end.

Record Model (Item : Type) := mk {
  Title : string;
  items : list Item;
  filterState : FilterState;
  filteredItems : list Item;
  index : nat;
  width : Z;
  height : Z
}.

Arguments mk {Item}.
Arguments Title {Item}.
Arguments items {Item}.
Arguments filterState {Item}.
Arguments filteredItems {Item}.
Arguments index {Item}.
Arguments width {Item}.
Arguments height {Item}.

Section Ops.
Context {Item : Type}.

Definition New (its : list Item) (w h : Z) : Model Item :=
  mk "List" its Unfiltered [] O w h.

Definition set_Title (t : string) (m : Model Item) : Model Item :=
  mk t (items m) (filterState m) (filteredItems m) (index m) (width m) (height m).

Definition SetSize (w h : Z) (m : Model Item) : Model Item :=
  mk (Title m) (items m) (filterState m) (filteredItems m) (index m) w h.

(** [SetItems] replaces the items; under a filter the filtered view
    is cleared and a widget command recomputes it. *)
Definition SetItems (its : list Item) (m : Model Item) : Model Item * Cmd :=
  if isUnfiltered (filterState m)
  then (mk (Title m) its (filterState m) (filteredItems m) (index m) (width m) (height m), CmdNil)
  else (mk (Title m) its (filterState m) [] (index m) (width m) (height m), CmdWidget O).

Definition VisibleItems (m : Model Item) : list Item :=
  if isUnfiltered (filterState m) then items m else filteredItems m.

Definition SelectedItem (m : Model Item) : option Item :=
  nth_error (VisibleItems m) (index m).

Definition ResetFilter (m : Model Item) : Model Item :=
  if isUnfiltered (filterState m) then m
  else mk (Title m) (items m) Unfiltered [] (index m) (width m) (height m).

End Ops.

End blist.

Module textinput.

Record Model := mk {
  value : string;
  focus : bool
}.

Definition New : Model := mk "" false.
Definition Focus (m : Model) : Model := mk (value m) true.
Definition Blur (m : Model) : Model := mk (value m) false.
Definition SetValue (s : string) (m : Model) : Model := mk s (focus m).
Definition Value (m : Model) : string := value m.
Definition Focused (m : Model) : bool := focus m.

End textinput.

(** ** model.go: view states, list items and the model *)

Inductive viewState := viewConversations | viewMessages | viewSearch | viewAttachments.

Record convItem := mkConvItem {
  conv : Conversation;
  convContacts : option ContactBook
}.

Record searchItem := mkSearchItem {
  result : SearchResult
}.

Record attachmentItem := mkAttachmentItem {
  attachment_ : ChatAttachment;
  attachmentContacts : option ContactBook
}.

Record model := mkModel {
  store : Database;
  contacts : ContactBook;
  state : viewState;
  width : Z;
  height : Z;
  err : error;
  convList : blist.Model convItem;
  convItems : list Conversation;
  viewport : viewport.Model;
  messages : list Message;
  activeChatID : Z;
  activeChatTitle : string;
  activeParticipants : list string;
  activeMsgCount : Z;
  oldestCursor : Z;
  allLoaded : bool;
  loading : bool;
  searchInput : textinput.Model;
  searchResults : blist.Model searchItem;
  searching : bool;
  searchTerm : string;
  exporting : bool;
  exportStatus : string;
  attachmentList : blist.Model attachmentItem
}.

(** Field assignments [m.f = v]. *)

Definition set_state (v : viewState) (m : model) : model :=
  mkModel (store m) (contacts m) v (width m) (height m) (err m) (convList m) (convItems m) (viewport m) (messages m) (activeChatID m) (activeChatTitle m) (activeParticipants m) (activeMsgCount m) (oldestCursor m) (allLoaded m) (loading m) (searchInput m) (searchResults m) (searching m) (searchTerm m) (exporting m) (exportStatus m) (attachmentList m).

Definition set_width (v : Z) (m : model) : model :=
  mkModel (store m) (contacts m) (state m) v (height m) (err m) (convList m) (convItems m) (viewport m) (messages m) (activeChatID m) (activeChatTitle m) (activeParticipants m) (activeMsgCount m) (oldestCursor m) (allLoaded m) (loading m) (searchInput m) (searchResults m) (searching m) (searchTerm m) (exporting m) (exportStatus m) (attachmentList m).

Definition set_height (v : Z) (m : model) : model :=
  mkModel (store m) (contacts m) (state m) (width m) v (err m) (convList m) (convItems m) (viewport m) (messages m) (activeChatID m) (activeChatTitle m) (activeParticipants m) (activeMsgCount m) (oldestCursor m) (allLoaded m) (loading m) (searchInput m) (searchResults m) (searching m) (searchTerm m) (exporting m) (exportStatus m) (attachmentList m).

Definition set_err (v : error) (m : model) : model :=
  mkModel (store m) (contacts m) (state m) (width m) (height m) v (convList m) (convItems m) (viewport m) (messages m) (activeChatID m) (activeChatTitle m) (activeParticipants m) (activeMsgCount m) (oldestCursor m) (allLoaded m) (loading m) (searchInput m) (searchResults m) (searching m) (searchTerm m) (exporting m) (exportStatus m) (attachmentList m).

Definition set_convList (v : blist.Model convItem) (m : model) : model :=
  mkModel (store m) (contacts m) (state m) (width m) (height m) (err m) v (convItems m) (viewport m) (messages m) (activeChatID m) (activeChatTitle m) (activeParticipants m) (activeMsgCount m) (oldestCursor m) (allLoaded m) (loading m) (searchInput m) (searchResults m) (searching m) (searchTerm m) (exporting m) (exportStatus m) (attachmentList m).

Definition set_convItems (v : list Conversation) (m : model) : model :=
  mkModel (store m) (contacts m) (state m) (width m) (height m) (err m) (convList m) v (viewport m) (messages m) (activeChatID m) (activeChatTitle m) (activeParticipants m) (activeMsgCount m) (oldestCursor m) (allLoaded m) (loading m) (searchInput m) (searchResults m) (searching m) (searchTerm m) (exporting m) (exportStatus m) (attachmentList m).

Definition set_viewport (v : viewport.Model) (m : model) : model :=
  mkModel (store m) (contacts m) (state m) (width m) (height m) (err m) (convList m) (convItems m) v (messages m) (activeChatID m) (activeChatTitle m) (activeParticipants m) (activeMsgCount m) (oldestCursor m) (allLoaded m) (loading m) (searchInput m) (searchResults m) (searching m) (searchTerm m) (exporting m) (exportStatus m) (attachmentList m).

Definition set_messages (v : list Message) (m : model) : model :=
  mkModel (store m) (contacts m) (state m) (width m) (height m) (err m) (convList m) (convItems m) (viewport m) v (activeChatID m) (activeChatTitle m) (activeParticipants m) (activeMsgCount m) (oldestCursor m) (allLoaded m) (loading m) (searchInput m) (searchResults m) (searching m) (searchTerm m) (exporting m) (exportStatus m) (attachmentList m).

Definition set_activeChatID (v : Z) (m : model) : model :=
  mkModel (store m) (contacts m) (state m) (width m) (height m) (err m) (convList m) (convItems m) (viewport m) (messages m) v (activeChatTitle m) (activeParticipants m) (activeMsgCount m) (oldestCursor m) (allLoaded m) (loading m) (searchInput m) (searchResults m) (searching m) (searchTerm m) (exporting m) (exportStatus m) (attachmentList m).

Definition set_activeChatTitle (v : string) (m : model) : model :=
  mkModel (store m) (contacts m) (state m) (width m) (height m) (err m) (convList m) (convItems m) (viewport m) (messages m) (activeChatID m) v (activeParticipants m) (activeMsgCount m) (oldestCursor m) (allLoaded m) (loading m) (searchInput m) (searchResults m) (searching m) (searchTerm m) (exporting m) (exportStatus m) (attachmentList m).

Definition set_activeParticipants (v : list string) (m : model) : model :=
  mkModel (store m) (contacts m) (state m) (width m) (height m) (err m) (convList m) (convItems m) (viewport m) (messages m) (activeChatID m) (activeChatTitle m) v (activeMsgCount m) (oldestCursor m) (allLoaded m) (loading m) (searchInput m) (searchResults m) (searching m) (searchTerm m) (exporting m) (exportStatus m) (attachmentList m).

Definition set_activeMsgCount (v : Z) (m : model) : model :=
  mkModel (store m) (contacts m) (state m) (width m) (height m) (err m) (convList m) (convItems m) (viewport m) (messages m) (activeChatID m) (activeChatTitle m) (activeParticipants m) v (oldestCursor m) (allLoaded m) (loading m) (searchInput m) (searchResults m) (searching m) (searchTerm m) (exporting m) (exportStatus m) (attachmentList m).

Definition set_oldestCursor (v : Z) (m : model) : model :=
  mkModel (store m) (contacts m) (state m) (width m) (height m) (err m) (convList m) (convItems m) (viewport m) (messages m) (activeChatID m) (activeChatTitle m) (activeParticipants m) (activeMsgCount m) v (allLoaded m) (loading m) (searchInput m) (searchResults m) (searching m) (searchTerm m) (exporting m) (exportStatus m) (attachmentList m).

Definition set_allLoaded (v : bool) (m : model) : model :=
  mkModel (store m) (contacts m) (state m) (width m) (height m) (err m) (convList m) (convItems m) (viewport m) (messages m) (activeChatID m) (activeChatTitle m) (activeParticipants m) (activeMsgCount m) (oldestCursor m) v (loading m) (searchInput m) (searchResults m) (searching m) (searchTerm m) (exporting m) (exportStatus m) (attachmentList m).

Definition set_loading (v : bool) (m : model) : model :=
  mkModel (store m) (contacts m) (state m) (width m) (height m) (err m) (convList m) (convItems m) (viewport m) (messages m) (activeChatID m) (activeChatTitle m) (activeParticipants m) (activeMsgCount m) (oldestCursor m) (allLoaded m) v (searchInput m) (searchResults m) (searching m) (searchTerm m) (exporting m) (exportStatus m) (attachmentList m).

Definition set_searchInput (v : textinput.Model) (m : model) : model :=
  mkModel (store m) (contacts m) (state m) (width m) (height m) (err m) (convList m) (convItems m) (viewport m) (messages m) (activeChatID m) (activeChatTitle m) (activeParticipants m) (activeMsgCount m) (oldestCursor m) (allLoaded m) (loading m) v (searchResults m) (searching m) (searchTerm m) (exporting m) (exportStatus m) (attachmentList m).

Definition set_searchResults (v : blist.Model searchItem) (m : model) : model :=
  mkModel (store m) (contacts m) (state m) (width m) (height m) (err m) (convList m) (convItems m) (viewport m) (messages m) (activeChatID m) (activeChatTitle m) (activeParticipants m) (activeMsgCount m) (oldestCursor m) (allLoaded m) (loading m) (searchInput m) v (searching m) (searchTerm m) (exporting m) (exportStatus m) (attachmentList m).

Definition set_searching (v : bool) (m : model) : model :=
  mkModel (store m) (contacts m) (state m) (width m) (height m) (err m) (convList m) (convItems m) (viewport m) (messages m) (activeChatID m) (activeChatTitle m) (activeParticipants m) (activeMsgCount m) (oldestCursor m) (allLoaded m) (loading m) (searchInput m) (searchResults m) v (searchTerm m) (exporting m) (exportStatus m) (attachmentList m).

Definition set_searchTerm (v : string) (m : model) : model :=
  mkModel (store m) (contacts m) (state m) (width m) (height m) (err m) (convList m) (convItems m) (viewport m) (messages m) (activeChatID m) (activeChatTitle m) (activeParticipants m) (activeMsgCount m) (oldestCursor m) (allLoaded m) (loading m) (searchInput m) (searchResults m) (searching m) v (exporting m) (exportStatus m) (attachmentList m).

Definition set_exporting (v : bool) (m : model) : model :=
  mkModel (store m) (contacts m) (state m) (width m) (height m) (err m) (convList m) (convItems m) (viewport m) (messages m) (activeChatID m) (activeChatTitle m) (activeParticipants m) (activeMsgCount m) (oldestCursor m) (allLoaded m) (loading m) (searchInput m) (searchResults m) (searching m) (searchTerm m) v (exportStatus m) (attachmentList m).

Definition set_exportStatus (v : string) (m : model) : model :=
  mkModel (store m) (contacts m) (state m) (width m) (height m) (err m) (convList m) (convItems m) (viewport m) (messages m) (activeChatID m) (activeChatTitle m) (activeParticipants m) (activeMsgCount m) (oldestCursor m) (allLoaded m) (loading m) (searchInput m) (searchResults m) (searching m) (searchTerm m) (exporting m) v (attachmentList m).

Definition set_attachmentList (v : blist.Model attachmentItem) (m : model) : model :=
  mkModel (store m) (contacts m) (state m) (width m) (height m) (err m) (convList m) (convItems m) (viewport m) (messages m) (activeChatID m) (activeChatTitle m) (activeParticipants m) (activeMsgCount m) (oldestCursor m) (allLoaded m) (loading m) (searchInput m) (searchResults m) (searching m) (searchTerm m) (exporting m) (exportStatus m) v.

(** ** The terminal environment

    Styling ([lipgloss]), date formatting in the local zone and against
    the wall clock, Go-syntax quoting and the event handling internal to
    the list and text-input widgets are supplied by the environment.  The
    widgets answer with an opaque command tag. *)

Class UI := {
  dateSepRender : Z -> string -> string;
  timestampRender : string -> string;
  senderRender : bool -> string -> string;
  attachmentRender : string -> string;
  formatDay : time.Time -> string;
  formatMessageTime : time.Time -> string;
  quoteGo : string -> string;
  listUpdate : forall Item : Type, Msg -> blist.Model Item -> blist.Model Item * nat;
  textinputUpdate : Msg -> textinput.Model -> textinput.Model * nat
}.

Definition emDash : string :=
  String (ascii_of_nat 226) (String (ascii_of_nat 128) (str1 (ascii_of_nat 148))).

Definition senderWidth : Z := 20.

(** [AttachmentInfo.String] *)
Definition AttachmentInfo_String (a : AttachmentInfo) : string :=
  let parts := [TypeLabel a] in
  let parts := if negb (String.eqb (Filename a) "") then (parts ++ [Filename a])%list else parts in
  let parts := if Size a >? 0 then (parts ++ [formatBytes (Size a)])%list else parts in
  "[" ++ strings.Join parts (" " ++ emDash ++ " ") ++ "]".

Definition formatAttachments (attachments : list AttachmentInfo) : string :=
  strings.Join (map AttachmentInfo_String attachments) " ".

Definition truncate (s : string) (max : Z) : string :=
  if Z.of_nat (String.length s) <=? max then s
  else if max <=? 3 then substring 0 (Z.to_nat max) s
  else substring 0 (Z.to_nat (max - 1)) s ++ "~".

(** [convItem.Title] *)
Definition convItem_Title (c : convItem) : string :=
  if negb (String.eqb (DisplayName (conv c)) "") then DisplayName (conv c)
  else
    match convContacts c, Participants (conv c) with
    | Some cb, _ :: _ => strings.Join (map (ResolveName cb) (Participants (conv c))) ", "
    | None, _ :: _ => strings.Join (Participants (conv c)) ", "
    | _, [] => Identifier (conv c)
    end.

Definition calcViewportHeight (totalHeight participantCount : Z) : Z :=
  let headerLines := 2 + participantCount in
  let footerH := 1 in
  let h := totalHeight - headerLines - footerH - 4 in
  if h <? 1 then 1 else h.

Definition len {A : Type} (l : list A) : Z := Z.of_nat (List.length l).

Section Coordinator.

Context {ui : UI}.

(** *** [model.renderMessages] *)

Definition renderMessage (m : model) (acc : string * string) (msg : Message) : string * string :=
  let '(sb, lastDate) := acc in
  let dateStr := formatDay (Date msg) in
  let '(sb, lastDate) :=
    if negb (String.eqb dateStr lastDate)
    then (sb ++ str1 LF
             ++ dateSepRender (viewport.Width (viewport m)) (emDash ++ " " ++ dateStr ++ " " ++ emDash)
             ++ str1 LF ++ str1 LF,
          dateStr)
    else (sb, lastDate) in
  let ts := timestampRender (formatMessageTime (Date msg)) in
  let styledSender :=
    if IsFromMe msg then senderRender true (truncate "Me" senderWidth)
    else
      let sender := ResolveName (contacts m) (Sender msg) in
      let sender := if String.eqb sender "" then "Unknown" else sender in
      senderRender false (truncate sender senderWidth) in
  let text := Text msg in
  let text :=
    if (0 <? List.length (Attachments msg))%nat then
      let label := formatAttachments (Attachments msg) in
      if String.eqb text "" then attachmentRender label
      else text ++ "  " ++ attachmentRender label
    else if String.eqb text "" then attachmentRender "[attachment]"
    else text in
  (sb ++ ts ++ "  " ++ styledSender ++ "  " ++ text ++ str1 LF, lastDate).

Definition renderMessages (m : model) : string :=
  let sb :=
    if allLoaded m then
      dateSepRender (viewport.Width (viewport m))
        (emDash ++ " Beginning of conversation " ++ emDash) ++ str1 LF ++ str1 LF
    else if loading m then
      dateSepRender (viewport.Width (viewport m)) "Loading older messages..." ++ str1 LF ++ str1 LF
    else "" in
  fst (fold_left (renderMessage m) (messages m) (sb, "")).

(** *** Commands built by the model *)

Definition fetchMessagesCmd (m : model) (chatID cursor : Z) (prepend : bool) : Cmd :=
  CmdFetchMessages chatID cursor prepend.

Definition fetchAttachmentsCmd (m : model) (chatID : Z) : Cmd :=
  CmdFetchAttachments chatID.

Definition openAttachmentCmd (m : model) (path : string) : Cmd :=
  CmdOpenAttachment path.

Definition exportCmd (m : model) : Cmd :=
  CmdExport (activeChatID m) (activeParticipants m) (activeChatTitle m).

Definition searchCmd (m : model) (term : string) : Cmd :=
  CmdSearch term.

Definition Init (m : model) : Cmd := CmdFetchConversations.

(** *** Key handling per view *)

Definition convListUpdate (msg : Msg) (m : model) : model * Cmd :=
  let '(l, tag) := listUpdate convItem msg (convList m) in
  (set_convList l m, CmdWidget tag).

Definition updateConversationList (key : string) (m : model) : model * Cmd :=
  if String.eqb key "enter" then
    match blist.SelectedItem (convList m) with
    | None => (m, CmdNil)
    | Some selected =>
        let m := set_state viewMessages m in
        let m := set_activeChatID (ChatID (conv selected)) m in
        let m := set_activeChatTitle (convItem_Title selected) m in
        let m := set_activeParticipants (Participants (conv selected)) m in
        let m := set_activeMsgCount (MessageCount (conv selected)) m in
        let m := set_messages [] m in
        let m := set_oldestCursor 0 m in
        let m := set_allLoaded false m in
        let m := set_loading true m in
        let m := set_viewport
                   (viewport.set_Height
                      (calcViewportHeight (height m) (len (activeParticipants m)))
                      (viewport m)) m in
        (m, fetchMessagesCmd m (ChatID (conv selected)) 0 false)
    end
  else if String.eqb key "s" && blist.isUnfiltered (blist.filterState (convList m)) then
    let m := set_state viewSearch m in
    let m := set_searchInput (textinput.Focus (searchInput m)) m in
    let m := set_searchInput (textinput.SetValue "" (searchInput m)) m in
    (m, CmdBlink)
  else if String.eqb key "q" && blist.isUnfiltered (blist.filterState (convList m)) then
    (m, CmdQuit)
  else convListUpdate (KeyMsg key) m.

Definition updateMessageView (key : string) (m : model) : model * Cmd :=
  if String.eqb key "esc" || String.eqb key "backspace" then
    let m := set_state viewConversations m in
    let m := set_messages [] m in
    let m := set_exportStatus "" m in
    (m, CmdNil)
  else if String.eqb key "t" then
    (set_viewport (viewport.GotoTop (viewport m)) m, CmdNil)
  else if String.eqb key "b" then
    (set_viewport (viewport.GotoBottom (viewport m)) m, CmdNil)
  else if String.eqb key "e" then
    if negb (exporting m) then
      let m := set_exporting true m in
      let m := set_exportStatus "Exporting..." m in
      (m, exportCmd m)
    else (m, CmdNil)
  else if String.eqb key "a" then
    let m := set_state viewAttachments m in
    let m := set_attachmentList (blist.set_Title "Loading attachments..." (attachmentList m)) m in
    (m, fetchAttachmentsCmd m (activeChatID m))
  else
    let cmd := CmdNil in
    let m := set_viewport (viewport.Update (KeyMsg key) (viewport m)) m in
    if viewport.AtTop (viewport m) && negb (allLoaded m) && negb (loading m) then
      let m := set_loading true m in
      let loadCmd := fetchMessagesCmd m (activeChatID m) (oldestCursor m) true in
      (m, CmdBatch cmd loadCmd)
    else (m, cmd).

Definition searchResultsUpdate (msg : Msg) (m : model) : model * Cmd :=
  let '(l, tag) := listUpdate searchItem msg (searchResults m) in
  (set_searchResults l m, CmdWidget tag).

Definition searchInputUpdate (msg : Msg) (m : model) : model * Cmd :=
  let '(t, tag) := textinputUpdate msg (searchInput m) in
  (set_searchInput t m, CmdWidget tag).

Definition updateSearchView (key : string) (m : model) : model * Cmd :=
  if textinput.Focused (searchInput m) then
    if String.eqb key "enter" then
      let query := strings.TrimSpace (textinput.Value (searchInput m)) in
      if String.eqb query "" then (m, CmdNil)
      else
        let m := set_searchInput (textinput.Blur (searchInput m)) m in
        let m := set_searching true m in
        let m := set_searchResults (blist.set_Title "Searching..." (searchResults m)) m in
        (m, searchCmd m query)
    else if String.eqb key "esc" then
      let m := set_state viewConversations m in
      let m := set_searchInput (textinput.Blur (searchInput m)) m in
      (m, CmdNil)
    else searchInputUpdate (KeyMsg key) m
  else
    (* Results browsing mode *)
    if String.eqb key "esc" then (set_state viewConversations m, CmdNil)
    else if String.eqb key "s" then
      let m := set_searchInput (textinput.Focus (searchInput m)) m in
      let m := set_searchInput (textinput.SetValue "" (searchInput m)) m in
      (m, CmdBlink)
    else if String.eqb key "enter" then
      match blist.SelectedItem (searchResults m) with
      | None => (m, CmdNil)
      | Some selected =>
          let r := result selected in
          let m := set_state viewMessages m in
          let m := set_activeChatID (sr_ChatID r) m in
          let m := set_activeChatTitle (ResolveName (contacts m) (sr_ChatName r)) m in
          let m := set_activeParticipants [] m in
          let m := set_activeMsgCount 0 m in
          let m :=
            match find (fun c => ChatID c =? sr_ChatID r) (convItems m) with
            | Some c =>
                let m := set_activeParticipants (Participants c) m in
                let m := set_activeMsgCount (MessageCount c) m in
                set_activeChatTitle (convItem_Title (mkConvItem c (Some (contacts m)))) m
            | None => m
            end in
          let m := set_messages [] m in
          let m := set_oldestCursor 0 m in
          let m := set_allLoaded false m in
          let m := set_loading true m in
          let m := set_viewport
                     (viewport.set_Height
                        (calcViewportHeight (height m) (len (activeParticipants m)))
                        (viewport m)) m in
          (m, fetchMessagesCmd m (sr_ChatID r) 0 false)
      end
    else searchResultsUpdate (KeyMsg key) m.

Definition attachmentListUpdate (msg : Msg) (m : model) : model * Cmd :=
  let '(l, tag) := listUpdate attachmentItem msg (attachmentList m) in
  (set_attachmentList l m, CmdWidget tag).

Definition updateAttachmentView (key : string) (m : model) : model * Cmd :=
  if String.eqb key "esc" || String.eqb key "backspace" then
    if blist.isFiltering (blist.filterState (attachmentList m)) then
      (set_attachmentList (blist.ResetFilter (attachmentList m)) m, CmdNil)
    else (set_state viewMessages m, CmdNil)
  else if String.eqb key "enter" then
    if blist.isFiltering (blist.filterState (attachmentList m)) then
      attachmentListUpdate (KeyMsg key) m
    else
      match blist.SelectedItem (attachmentList m) with
      | None => (m, CmdNil)
      | Some selected => (m, openAttachmentCmd m (ca_FilePath (attachment_ selected)))
      end
  else attachmentListUpdate (KeyMsg key) m.

(** *** [model.Update] *)

(** The tail of [Update]: a message no case returned on goes to the
    widget of the current view. *)
Definition updateWidgets (msg : Msg) (m : model) : model * Cmd :=
  match state m with
  | viewConversations => convListUpdate msg m
  | viewMessages => (set_viewport (viewport.Update msg (viewport m)) m, CmdNil)
  | viewSearch =>
      if textinput.Focused (searchInput m) then searchInputUpdate msg m
      else searchResultsUpdate msg m
  | viewAttachments => attachmentListUpdate msg m
  end.

Definition Update (msg : Msg) (m : model) : model * Cmd :=
  match msg with
  | WindowSizeMsg w h =>
      let m := set_width w m in
      let m := set_height h m in
      let m := set_convList (blist.SetSize (w - 4) (h - 4) (convList m)) m in
      let m := set_searchResults (blist.SetSize (w - 4) (h - 7) (searchResults m)) m in
      let m := set_attachmentList (blist.SetSize (w - 4) (h - 4) (attachmentList m)) m in
      let m := set_viewport (viewport.set_Width (w - 4) (viewport m)) m in
      let m := set_viewport
                 (viewport.set_Height
                    (calcViewportHeight (height m) (len (activeParticipants m)))
                    (viewport m)) m in
      let m :=
        match state m with
        | viewMessages =>
            if 0 <? len (messages m)
            then set_viewport (viewport.SetContent (renderMessages m) (viewport m)) m
            else m
        | _ => m
        end in
      (m, CmdNil)

  | KeyMsg key =>
      if String.eqb key "ctrl+c" then (m, CmdQuit)
      else
        match state m with
        | viewConversations => updateConversationList key m
        | viewMessages => updateMessageView key m
        | viewSearch => updateSearchView key m
        | viewAttachments => updateAttachmentView key m
        end

  | conversationsLoadedMsg conversations err =>
      match err with
      | Some e => (set_err (Some e) m, CmdQuit)
      | None =>
          let m := set_convItems conversations m in
          let items := map (fun c => mkConvItem c (Some (contacts m))) conversations in
          let '(l, cmd) := blist.SetItems items (convList m) in
          (set_convList l m, cmd)
      end

  | messagesLoadedMsg msgs chatID prepend err =>
      match err with
      | Some e => (set_err (Some e) m, CmdNil)
      | None =>
          if negb (chatID =? activeChatID m) then (m, CmdNil)
          else
            let m := set_loading false m in
            if len msgs =? 0 then
              let m := set_allLoaded true m in
              let m := set_viewport (viewport.SetContent (renderMessages m) (viewport m)) m in
              (m, CmdNil)
            else
              let m := if prepend then set_messages (msgs ++ messages m)%list m
                       else set_messages msgs m in
              let m := match messages m with
                       | first :: _ => set_oldestCursor (ROWID first) m
                       | [] => m
                       end in
              let m := if len msgs <? messagesPageSize then set_allLoaded true m else m in
              let m := set_viewport (viewport.SetContent (renderMessages m) (viewport m)) m in
              let m := if negb prepend
                       then set_viewport (viewport.GotoBottom (viewport m)) m
                       else m in
              (m, CmdNil)
      end

  | exportDoneMsg path err =>
      let m := set_exporting false m in
      let m := match err with
               | Some e => set_exportStatus ("Export failed: " ++ e) m
               | None => set_exportStatus ("Exported to " ++ path) m
               end in
      (m, CmdNil)

  | attachmentsLoadedMsg attachments err =>
      match err with
      | Some e => (set_err (Some e) m, CmdNil)
      | None =>
          let items := map (fun a => mkAttachmentItem a (Some (contacts m))) attachments in
          let '(l, cmd) := blist.SetItems items (attachmentList m) in
          let m := set_attachmentList l m in
          let m := set_attachmentList
                     (blist.set_Title
                        ("Attachments " ++ emDash ++ " " ++ strconv.Itoa (len attachments) ++ " files")
                        (attachmentList m)) m in
          (m, cmd)
      end

  | attachmentOpenedMsg err =>
      match err with
      | Some e => (set_exportStatus ("Failed to open: " ++ e) m, CmdNil)
      | None => (m, CmdNil)
      end

  | searchResultsMsg results term err =>
      let m := set_searching false m in
      match err with
      | Some e => (set_err (Some e) m, CmdNil)
      | None =>
          let m := set_searchTerm term m in
          let items := map mkSearchItem results in
          let '(l, cmd) := blist.SetItems items (searchResults m) in
          let m := set_searchResults l m in
          let m := set_searchResults
                     (blist.set_Title
                        ("Search Results " ++ emDash ++ " " ++ strconv.Itoa (len results)
                         ++ " matches for " ++ quoteGo term)
                        (searchResults m)) m in
          (m, cmd)
      end

  | MouseMsg _ | otherMsg _ => updateWidgets msg m
  end.

End Coordinator.

(** [NewModel] *)
Definition NewModel (store : Database) (contacts : ContactBook) : model :=
  mkModel store contacts viewConversations 0 0 None
    (blist.set_Title "iMessage Conversations" (blist.New [] 0 0)) []
    (viewport.New 0 0) [] 0 "" [] 0 0 false false
    textinput.New
    (blist.set_Title "Search Results" (blist.New [] 0 0)) false ""
    false ""
    (blist.set_Title "Attachments" (blist.New [] 0 0)).

(** ** model.go: [model.View]

    The error screen stands in for every view.  The views themselves are
    laid out by [lipgloss] and the widgets: [styledView]. *)
Definition errorScreen (e : string) : string :=
  str1 LF ++ "  Error: " ++ e ++ str1 LF ++ str1 LF ++ "  Press any key to exit." ++ str1 LF.

Definition View (styledView : model -> string) (m : model) : string :=
  match err m with
  | Some e => errorScreen e
  | None => styledView m
  end.

(** ** The event loop around [Update]

    Bubble Tea runs every command off the event loop and feeds the
    message it returns back to [Update]; commands in flight complete in
    any order.  [completes db c msg]: command [c], run against the
    database [db], may return [msg].  The page and conversation queries
    return what the store computes, or an error; the payloads of the
    search, attachment, export and open commands are left open. *)

Fixpoint flatten (c : Cmd) : list Cmd :=
  match c with
  | CmdNil => []
  | CmdBatch a b => flatten a ++ flatten b
  | _ => [c]
  end.

Inductive completes (db : Database) : Cmd -> Msg -> Prop :=
| conversations_ok :
    completes db CmdFetchConversations (conversationsLoadedMsg (FetchConversations db) None)
| conversations_err e :
    completes db CmdFetchConversations (conversationsLoadedMsg [] (Some e))
| messages_ok chatID cursor prepend :
    completes db (CmdFetchMessages chatID cursor prepend)
      (messagesLoadedMsg (FetchMessages db chatID cursor messagesPageSize) chatID prepend None)
| messages_err chatID cursor prepend e :
    completes db (CmdFetchMessages chatID cursor prepend)
      (messagesLoadedMsg [] chatID prepend (Some e))
| attachments_done chatID attachments err :
    completes db (CmdFetchAttachments chatID) (attachmentsLoadedMsg attachments err)
| search_done term results err :
    completes db (CmdSearch term) (searchResultsMsg results term err)
| export_done chatID participants title path err :
    completes db (CmdExport chatID participants title) (exportDoneMsg path err)
| open_done path err :
    completes db (CmdOpenAttachment path) (attachmentOpenedMsg err)
| blink_done tag :
    completes db CmdBlink (otherMsg tag)
| widget_done tag tag' :
    completes db (CmdWidget tag) (otherMsg tag').

(** Messages that come from the terminal rather than from a command. *)
Definition fromTerminal (msg : Msg) : bool :=
  match msg with
  | WindowSizeMsg _ _ | KeyMsg _ | MouseMsg _ => true
  | _ => false
  end.

Record Program := mkProgram {
  current : model;
  inflight : list Cmd
}.

Section EventLoop.

Context {ui : UI}.

Inductive step (db : Database) : Program -> Program -> Prop :=
| step_terminal p msg :
    ~ In CmdQuit (inflight p) ->
    fromTerminal msg = true ->
    step db p (mkProgram (fst (Update msg (current p)))
                         (inflight p ++ flatten (snd (Update msg (current p)))))
| step_complete p before c after msg :
    ~ In CmdQuit (inflight p) ->
    inflight p = (before ++ c :: after)%list ->
    completes db c msg ->
    step db p (mkProgram (fst (Update msg (current p)))
                         (before ++ after ++ flatten (snd (Update msg (current p))))).

Inductive reachable (db : Database) (cb : ContactBook) : Program -> Prop :=
| reach_init :
    reachable db cb (mkProgram (NewModel db cb) [Init (NewModel db cb)])
| reach_step p q :
    reachable db cb p -> step db p q -> reachable db cb q.

End EventLoop.

(** ** Scripts of the event loop

    A run of the program written down event by event: a message from
    the terminal, or the completion of the in-flight command at a given
    position, with success, with an error, or with a given message for
    the commands whose payload is left open. *)
Inductive Event :=
| Terminal (msg : Msg)
| Succeeds (i : nat)
| Fails (i : nat) (e : string)
| Delivers (i : nat) (msg : Msg).

Definition isQuit (c : Cmd) : bool :=
  match c with CmdQuit => true | _ => false end.

(** The message of a query that succeeds, and of one that fails. *)
Definition success (db : Database) (c : Cmd) : option Msg :=
  match c with
  | CmdFetchConversations => Some (conversationsLoadedMsg (FetchConversations db) None)
  | CmdFetchMessages chatID cursor prepend =>
      Some (messagesLoadedMsg (FetchMessages db chatID cursor messagesPageSize) chatID prepend None)
  | _ => None
  end.

Definition failure (c : Cmd) (e : string) : option Msg :=
  match c with
  | CmdFetchConversations => Some (conversationsLoadedMsg [] (Some e))
  | CmdFetchMessages chatID cursor prepend => Some (messagesLoadedMsg [] chatID prepend (Some e))
  | _ => None
  end.

(** The commands with an open payload and the messages they return. *)
Definition delivers (c : Cmd) (msg : Msg) : bool :=
  match c, msg with
  | CmdFetchAttachments _, attachmentsLoadedMsg _ _ => true
  | CmdSearch term, searchResultsMsg _ term' _ => String.eqb term term'
  | CmdExport _ _ _, exportDoneMsg _ _ => true
  | CmdOpenAttachment _, attachmentOpenedMsg _ => true
  | CmdBlink, otherMsg _ => true
  | CmdWidget _, otherMsg _ => true
  | _, _ => false
  end.

Section Scripts.
Context {ui : UI}.

Definition deliver (p : Program) (i : nat) (msg : Msg) : Program :=
  mkProgram (fst (Update msg (current p)))
            (firstn i (inflight p) ++ skipn (S i) (inflight p)
             ++ flatten (snd (Update msg (current p)))).

Definition play (db : Database) (p : Program) (ev : Event) : option Program :=
  if existsb isQuit (inflight p) then None
  else
    match ev with
    | Terminal msg =>
        if fromTerminal msg
        then Some (mkProgram (fst (Update msg (current p)))
                             (inflight p ++ flatten (snd (Update msg (current p)))))
        else None
    | Succeeds i =>
        match nth_error (inflight p) i with
        | Some c => option_map (deliver p i) (success db c)
        | None => None
        end
    | Fails i e =>
        match nth_error (inflight p) i with
        | Some c => option_map (deliver p i) (failure c e)
        | None => None
        end
    | Delivers i msg =>
        match nth_error (inflight p) i with
        | Some c => if delivers c msg then Some (deliver p i msg) else None
        | None => None
        end
    end.

Fixpoint replay (db : Database) (script : list Event) (p : Program) : option Program :=
  match script with
  | [] => Some p
  | ev :: rest =>
      match play db p ev with
      | Some q => replay db rest q
      | None => None
      end
  end.

End Scripts.

(** The program as it starts. *)
Definition initial (db : Database) (cb : ContactBook) : Program :=
  mkProgram (NewModel db cb) [@Init (NewModel db cb)].

(** ** The pagination protocol

    Pages are fetched from cursor 0, each next call taking as cursor the
    smallest [ROWID] of the page before, until a page is empty; the
    pages are concatenated oldest first.  [fuel] bounds the number of
    calls. *)



(** The table constraint [ROWID INTEGER PRIMARY KEY] on [message]. *)
Definition primaryKey (db : Database) : Prop :=
  NoDup (map message_ROWID (message db)).

(** Within one chat the ids are strictly chronological ... *)
Definition chronologicalIds (db : Database) (chatID : Z) : Prop :=
  forall a b, In a (chatMessages db chatID) -> In b (chatMessages db chatID) ->
    message_ROWID a < message_ROWID b -> message_date a < message_date b.

(** ... and no id is the cursor sentinel. *)
Definition noSentinelId (db : Database) (chatID : Z) : Prop :=
  forall a, In a (chatMessages db chatID) -> message_ROWID a <> 0.

(** ** Reference renderings used to state the codec properties *)

(** Every double quote doubled, character by character. *)
Fixpoint doubleQuotes (s : string) : string :=
  match s with
  | EmptyString => EmptyString
  | String c s' =>
      if Ascii.eqb c quoteChar then String quoteChar (String quoteChar (doubleQuotes s'))
      else String c (doubleQuotes s')
  end.

(** A comma, a double quote or a line break somewhere in [s]. *)
Fixpoint hasCsvSpecial (s : string) : bool :=
  match s with
  | EmptyString => false
  | String c s' =>
      Ascii.eqb c "," || Ascii.eqb c quoteChar || Ascii.eqb c LF || Ascii.eqb c CR
      || hasCsvSpecial s'
  end.

(** [t] tenths is a nearest one-decimal rendering of [f / u]. *)
Definition nearestTenth (f u t : Z) : Prop := 2 * Z.abs (10 * f - t * u) <= u.

(** Digits, a point, one digit: the shape of a one-decimal number. *)
Definition oneDecimal (t : Z) : string :=
  strconv.Itoa (t / 10) ++ "." ++ strconv.Itoa (t mod 10).

(** A number with one decimal place in front of the unit: the text up
    to the first space is digits, a point and exactly one digit. *)
Fixpoint allDigits (s : string) : bool :=
  match s with
  | EmptyString => true
  | String c s' => strconv.isDigit c && allDigits s'
  end.

Definition hasOneDecimalPlace (s : string) : bool :=
  match strings.SplitN s " " 2 with
  | number :: _ =>
      match strings.Split number "." with
      | [whole; frac] =>
          negb (String.eqb whole "") && allDigits whole &&
          Nat.eqb (String.length frac) 1 && allDigits frac
      | _ => false
      end
  | [] => false
  end.

(** The decoding rule in the words of the specification: the (at most
    three) fields of an entry, and the record list the entry stands
    for, empty for the all-empty, zero-size entry. *)
Definition entryFields (entry : string) : string * string * Z :=
  let fields := strings.SplitN entry "||" 3 in
  (nth 0 fields "", nth 1 fields "", fst (strconv.ParseInt (nth 2 fields ""))).

Definition decodeEntry (entry : string) : list AttachmentInfo :=
  let '(mime, name, size) := entryFields entry in
  if String.eqb mime "" && String.eqb name "" && (size =? 0) then []
  else [mkAttachmentInfo (attachmentLabel mime) name size].

(** ** testdb_test.go: the seeded test database, chat 1

    Ten messages one minute apart, alternating sender, with the four
    attachments of the seed on messages 3, 5 and 7. *)

Definition baseAppleNanos : Z := 740142000000000000.

Definition seedTexts : list string :=
  ["Hey, how are you?"; "I'm good, thanks! How about you?";
   "Doing great! Want to grab lunch?"; "Sure, where?";
   "How about the new place downtown?"; "Sounds good! What time?";
   "12:30 work for you?"; "Perfect, see you there!";
   "Running 5 mins late"; "No worries, I just got here"].

Definition seedMessage (i : nat) (text : string) : message_row :=
  mkMessageRow (Z.of_nat i + 1) (Some text)
    (if Nat.even i then 0 else 1) (Some "iMessage")
    (baseAppleNanos + Z.of_nat i * 60000000000) (Some (if Nat.even i then 1 else 0)).

Definition seedDB : Database :=
  mkDatabase
    [mkChat 1 "+15551234567" (Some "") "iMessage" (Some 1)]
    (map (fun it => seedMessage (fst it) (snd it)) (combine (seq 0 10) seedTexts))
    [mkHandle 1 "+15551234567"; mkHandle 2 "+15559876543"; mkHandle 3 "jane@example.com"]
    [mkAttachment 1 (Some "~/Library/Messages/Attachments/ab/cd/att1/IMG_001.jpg")
       (Some "image/jpeg") (Some "IMG_001.jpg") (Some 2048576);
     mkAttachment 2 (Some "~/Library/Messages/Attachments/ef/gh/att2/menu.pdf")
       (Some "application/pdf") (Some "menu.pdf") (Some 524288);
     mkAttachment 3 (Some "~/Library/Messages/Attachments/ij/kl/att3/photo.heic")
       (Some "image/heic") (Some "photo.heic") (Some 1048576);
     mkAttachment 4 (Some "~/Library/Messages/Attachments/mn/op/att4/clip.mov")
       (Some "video/quicktime") (Some "clip.mov") (Some 10485760)]
    (map (fun i => (1, Z.of_nat i + 1)) (seq 0 10))
    [(1, 1)]
    [(3, 1); (7, 2); (5, 3); (5, 4)].

(** Decision procedures for the three conditions on a database. *)
Fixpoint distinctb (l : list Z) : bool :=
  match l with
  | [] => true
  | x :: l' => negb (existsb (Z.eqb x) l') && distinctb l'
  end.

Definition primaryKeyb (db : Database) : bool :=
  distinctb (map message_ROWID (message db)).

Definition chronologicalIdsb (db : Database) (chatID : Z) : bool :=
  forallb
    (fun a => forallb
       (fun b => implb (message_ROWID a <? message_ROWID b) (message_date a <? message_date b))
       (chatMessages db chatID))
    (chatMessages db chatID).

Definition noSentinelIdb (db : Database) (chatID : Z) : bool :=
  forallb (fun a => negb (message_ROWID a =? 0)) (chatMessages db chatID).




(** ** Observations of the coordinator used to state its properties *)

(** The thread state of the model: view, active chat, message window,
    cursor, exhausted flag and in-flight flag. *)
Record Thread := mkThread {
  th_state : viewState;
  th_chat : Z;
  th_window : list Message;
  th_cursor : Z;
  th_exhausted : bool;
  th_loading : bool
}.

Definition thread (m : model) : Thread :=
  mkThread (state m) (activeChatID m) (messages m) (oldestCursor m) (allLoaded m) (loading m).

(** A page result issued for another chat than [active]. *)
Definition stalePage (active : Z) (msg : Msg) : bool :=
  match msg with
  | messagesLoadedMsg _ chatID _ _ => negb (chatID =? active)
  | _ => false
  end.

(** What a stale page result leaves behind: its error, if it carries
    one, and nothing else. *)
Definition recordError (msg : Msg) (m : model) : model :=
  match msg with
  | messagesLoadedMsg _ _ _ (Some e) => set_err (Some e) m
  | _ => m
  end.

(** The window after a page is merged, and the id at its head. *)
Definition newWindow (m : model) (msgs : list Message) (prepend : bool) : list Message :=
  if prepend then (msgs ++ messages m)%list else msgs.

Definition headROWID (l : list Message) (default : Z) : Z :=
  match l with
  | first :: _ => ROWID first
  | [] => default
  end.

Definition isBackwardFetch (c : Cmd) : bool :=
  match c with
  | CmdFetchMessages _ _ true => true
  | _ => false
  end.

(** The event opens a thread: Enter on a selected conversation, or on a
    selected search result. *)
Definition opensThread (m : model) (msg : Msg) : bool :=
  match msg with
  | KeyMsg key =>
      negb (String.eqb key "ctrl+c") && String.eqb key "enter" &&
      match state m with
      | viewConversations =>
          match blist.SelectedItem (convList m) with Some _ => true | None => false end
      | viewSearch =>
          negb (textinput.Focused (searchInput m)) &&
          match blist.SelectedItem (searchResults m) with Some _ => true | None => false end
      | _ => false
      end
  | _ => false
  end.

(** The event is a page for the active chat, without error, shorter
    than the requested size (the empty page included). *)
Definition shortPageAccepted (m : model) (msg : Msg) : bool :=
  match msg with
  | messagesLoadedMsg msgs chatID _ None =>
      (chatID =? activeChatID m) && (len msgs <? messagesPageSize)
  | _ => false
  end.

Section Runs.
Context {ui : UI}.

(** [Update] folded over a sequence of messages, in arrival order. *)
Definition runMsgs (msgs : list Msg) (m : model) : model :=
  fold_left (fun m msg => fst (Update msg m)) msgs m.

(** Along a run: has a short page been accepted since a thread was last
    opened ([flag] says so for the time before the run)? *)
Fixpoint shortSinceOpened (msgs : list Msg) (m : model) (flag : bool) : bool :=
  match msgs with
  | [] => flag
  | msg :: rest =>
      shortSinceOpened rest (fst (Update msg m))
        (if opensThread m msg then false
         else if shortPageAccepted m msg then true
         else flag)
  end.

End Runs.

(** ** Sample environment and data

    A terminal without styling whose list and text widgets ignore
    events, an empty contact book, and a chat of 201 messages one minute
    apart (one more than a page). *)

Definition plainUI : UI := {|
  dateSepRender := fun _ s => s;
  timestampRender := fun s => s;
  senderRender := fun _ s => s;
  attachmentRender := fun s => s;
  formatDay := fun t => strconv.Itoa (time.sec t / 86400);
  formatMessageTime := fun t => strconv.Itoa (time.sec t mod 86400);
  quoteGo := fun s => str1 quoteChar ++ s ++ str1 quoteChar;
  listUpdate := fun _ _ l => (l, O);
  textinputUpdate := fun _ t => (t, O)
|}.

Definition emptyBook : ContactBook := mkContactBook [] [].

Definition longChatDB : Database :=
  mkDatabase
    [mkChat 1 "+15551234567" None "iMessage" (Some 1)]
    (map (fun i => mkMessageRow (Z.of_nat i) (Some "hello") 0 (Some "iMessage")
                     (baseAppleNanos + Z.of_nat i * 60000000000) (Some 1))
         (seq 1 201))
    [] []
    (map (fun i => (1, Z.of_nat i)) (seq 1 201))
    [] [].

(** A terminal whose lists move the selection with the arrow keys, as
    the list widget does, and are otherwise as in [plainUI]. *)
Definition moveSelection (Item : Type) (msg : Msg) (l : blist.Model Item)
  : blist.Model Item * nat :=
  match msg with
  | KeyMsg key =>
      let i := blist.index l in
      let i :=
        if String.eqb key "down"
        then (if (S i <? List.length (blist.VisibleItems l))%nat then S i else i)
        else if String.eqb key "up" then Nat.pred i
        else i in
      (blist.mk (blist.Title l) (blist.items l) (blist.filterState l) (blist.filteredItems l)
                i (blist.width l) (blist.height l), O)
  | _ => (l, O)
  end.

Definition arrowsUI : UI := {|
  dateSepRender := fun _ s => s;
  timestampRender := fun s => s;
  senderRender := fun _ s => s;
  attachmentRender := fun s => s;
  formatDay := fun t => strconv.Itoa (time.sec t / 86400);
  formatMessageTime := fun t => strconv.Itoa (time.sec t mod 86400);
  quoteGo := fun s => str1 quoteChar ++ s ++ str1 quoteChar;
  listUpdate := moveSelection;
  textinputUpdate := fun _ t => (t, O)
|}.

(** Two chats of one message each, chat 2 holding the later one. *)
Definition twoChatDB : Database :=
  mkDatabase
    [mkChat 1 "+15551234567" None "iMessage" (Some 1);
     mkChat 2 "+15559876543" None "iMessage" (Some 1)]
    [mkMessageRow 1 (Some "hello") 1 (Some "iMessage") baseAppleNanos (Some 0);
     mkMessageRow 2 (Some "hi") 2 (Some "iMessage") (baseAppleNanos + 60000000000) (Some 0)]
    [mkHandle 1 "+15551234567"; mkHandle 2 "+15559876543"]
    []
    [(1, 1); (2, 2)]
    [(1, 1); (2, 2)]
    [].

(** A chat whose one message has [NULL] in [is_from_me]. *)
Definition nullFlagDB : Database :=
  mkDatabase
    [mkChat 1 "+15551234567" None "iMessage" (Some 1)]
    [mkMessageRow 1 (Some "hello") 0 (Some "iMessage") baseAppleNanos None]
    [] [] [(1, 1)] [] [].

(** Open chat 2, leave it before its page arrives, open chat 1, whose
    page arrives. *)
Definition staleFetchRun : list Event :=
  [Succeeds 0; Terminal (KeyMsg "enter"); Terminal (KeyMsg "esc");
   Terminal (KeyMsg "down"); Terminal (KeyMsg "enter"); Succeeds 2].

(** ** db.go: [Store.SearchMessages] and [Store.FetchChatAttachments]

    Both on their success path, as the page queries.  The [LIKE]
    operator belongs to SQLite; it is a parameter of the embedding,
    [LIKE text pattern] standing for [text LIKE pattern]. *)

Section Search.

Variable LIKE : string -> string -> bool.

(** [m.text LIKE '%' || ? || '%']: [NULL] for a [NULL] text, which
    [WHERE] rejects. *)
Definition textMatches (term : string) (m : message_row) : bool :=
  match message_text m with
  | Some text => LIKE text ("%" ++ term ++ "%")
  | None => false
  end.

(** [FROM message m JOIN chat_message_join cmj ON cmj.message_id =
    m.ROWID JOIN chat c ON cmj.chat_id = c.ROWID WHERE ...]. *)
Definition searchRows (db : Database) (term : string) : list (message_row * chat_row) :=
  flat_map
    (fun m =>
       flat_map
         (fun cmj =>
            if snd cmj =? message_ROWID m
            then map (fun c => (m, c)) (filter (fun c => chat_ROWID c =? fst cmj) (chat db))
            else [])
         (chat_message_join db))
    (filter (textMatches term) (message db)).

Definition scanSearchResult (db : Database) (row : message_row * chat_row) : SearchResult :=
  let '(m, c) := row in
  mkSearchResult
    (mkMessage (message_ROWID m) (COALESCE (message_text m) "")
               (appleNanosToTime (message_date m)) (scanBool (message_is_from_me m))
               (senderOf db m) (COALESCE (message_service m) "") [])
    (chat_ROWID c)
    (COALESCE (chat_display_name c) (chat_identifier c)).

Definition SearchMessages (db : Database) (term : string) (limit : Z) : list SearchResult :=
  let limit := if limit <=? 0 then 100 else limit in
  map (scanSearchResult db)
      (firstn (Z.to_nat limit)
              (sortBy (fun a b => dateDesc (fst a) (fst b)) (searchRows db term))).

End Search.





(** ** contacts.go: loading the contact book *)

Definition buildName (first last org : string) : string :=
  let name := strings.TrimSpace (first ++ " " ++ last) in
  if String.eqb name "" then org else name.

Definition appendUnique (slice : list string) (val : string) : list string :=
  if existsb (fun s => String.eqb s val) slice then slice else (slice ++ [val])%list.

(** [m[key] = c] on the association list: the binding of [key] is
    replaced where it stands, or added at the end. *)
Fixpoint assign (key : string) (c : Contact) (m : list (string * Contact))
  : list (string * Contact) :=
  match m with
  | [] => [(key, c)]
  | kv :: m' => if String.eqb (fst kv) key then (key, c) :: m' else kv :: assign key c m'
  end.

(** [getOrCreate] hands back a pointer into the map; it is embedded as
    the book after the call together with the contact the pointer
    designates, and a write through the pointer as [storeContact].  No
    two keys ever share a pointer: every [&Contact{}] is stored under
    the one key it was created for. *)
Definition getOrCreate (cb : ContactBook) (key kind : string) : ContactBook * Contact :=
  if String.eqb kind "phone" then
    match lookup key (byDigits cb) with
    | Some c => (cb, c)
    | None =>
        let c := mkContact "" [] [] in
        (mkContactBook (assign key c (byDigits cb)) (byEmail cb), c)
    end
  else
    match lookup key (byEmail cb) with
    | Some c => (cb, c)
    | None =>
        let c := mkContact "" [] [] in
        (mkContactBook (byDigits cb) (assign key c (byEmail cb)), c)
    end.

Definition storeContact (cb : ContactBook) (key kind : string) (c : Contact) : ContactBook :=
  if String.eqb kind "phone"
  then mkContactBook (assign key c (byDigits cb)) (byEmail cb)
  else mkContactBook (byDigits cb) (assign key c (byEmail cb)).

(** A row of the two AddressBook queries: the three name columns, which
    the queries wrap in [COALESCE], and the number or address, whose
    [NULL] makes [Scan] fail. *)
Record abRow := mkAbRow {
  ZFIRSTNAME : option string;
  ZLASTNAME : option string;
  ZORGANIZATION : option string;
  abValue : option string
}.

(** The name of a scanned row. *)
Definition rowName (r : abRow) : string :=
  buildName (COALESCE (ZFIRSTNAME r) "") (COALESCE (ZLASTNAME r) "")
            (COALESCE (ZORGANIZATION r) "").

(** The body of the loop over [phoneRows]. *)
Definition loadPhoneRow (cb : ContactBook) (r : abRow) : ContactBook :=
  match abValue r with
  | None => cb
  | Some phone =>
      let name := rowName r in
      if String.eqb name "" then cb
      else
        let digits := normalizePhone phone in
        if String.eqb digits "" then cb
        else
          let '(cb, c) := getOrCreate cb digits "phone" in
          let c := mkContact name (Phones c) (Emails c) in
          let c := mkContact (Name c) (appendUnique (Phones c) phone) (Emails c) in
          storeContact cb digits "phone" c
  end.

(** The body of the loop over [emailRows]. *)
Definition loadEmailRow (cb : ContactBook) (r : abRow) : ContactBook :=
  match abValue r with
  | None => cb
  | Some email =>
      let name := rowName r in
      if String.eqb name "" then cb
      else
        let key := strings.ToLower (strings.TrimSpace email) in
        if String.eqb key "" then cb
        else
          let '(cb, c) := getOrCreate cb key "email" in
          let c := mkContact name (Phones c) (Emails c) in
          let c := mkContact (Name c) (Phones c) (appendUnique (Emails c) email) in
          storeContact cb key "email" c
  end.

(** An AddressBook database as [loadFromDB] reads it: the rows of its
    two queries, [None] for a query that fails. *)
Record AddressBook := mkAddressBook {
  phoneRows : option (list abRow);
  emailRows : option (list abRow)
}.

(** [loadFromDB]; [None] is a database that [sql.Open] rejects. *)
Definition loadFromDB (cb : ContactBook) (db : option AddressBook) : ContactBook :=
  match db with
  | None => cb
  | Some db =>
      let cb := match phoneRows db with
                | Some rows => fold_left loadPhoneRow rows cb
                | None => cb
                end in
      match emailRows db with
      | Some rows => fold_left loadEmailRow rows cb
      | None => cb
      end
  end.

(** [NewContactBook] over the [.abcddb] files found under the
    AddressBook directory, in the order of the walk. *)
Definition NewContactBook (dbPaths : list (option AddressBook)) : ContactBook :=
  fold_left loadFromDB dbPaths (mkContactBook [] []).

(** ** export.go: [buildExportFilename] and [exportCSV] *)

(** The bytes of the class [[a-zA-Z0-9_-]]. *)
Definition isFilenameByte (c : ascii) : bool :=
  let n := nat_of_ascii c in
  ((97 <=? n) && (n <=? 122) || (65 <=? n) && (n <=? 90)
   || (48 <=? n) && (n <=? 57) || (n =? 95) || (n =? 45))%nat.

(** [nonAlphaNum.ReplaceAllString src repl] for the pattern
    [[^a-zA-Z0-9_-]+]: every maximal run of bytes outside the class is
    replaced by [repl].  The pattern works on runes; the bytes of a rune
    above 127, and the invalid bytes Go reads as U+FFFD, are all outside
    the class, so the runs of runes are the runs of bytes.  [inRun] says
    that the byte before was part of a run. *)
Fixpoint nonAlphaNum_ReplaceAllString (inRun : bool) (src repl : string) : string :=
  match src with
  | EmptyString => EmptyString
  | String c src' =>
      if isFilenameByte c then String c (nonAlphaNum_ReplaceAllString false src' repl)
      else if inRun then nonAlphaNum_ReplaceAllString true src' repl
      else repl ++ nonAlphaNum_ReplaceAllString true src' repl
  end.

(** [strings.Trim s cutset] for a cutset of one ASCII byte. *)
Fixpoint trimLeftByte (s : string) (c : ascii) : string :=
  match s with
  | String d s' => if Ascii.eqb d c then trimLeftByte s' c else s
  | EmptyString => EmptyString
  end.

Fixpoint trimRightByte (s : string) (c : ascii) : string :=
  match s with
  | EmptyString => EmptyString
  | String d s' =>
      match trimRightByte s' c with
      | EmptyString => if Ascii.eqb d c then EmptyString else str1 d
      | t => String d t
      end
  end.

Definition strings_Trim (s : string) (cutset : ascii) : string :=
  trimLeftByte (trimRightByte s cutset) cutset.

(** [now] is [time.Now().Format("20060102_150405")], read from the
    clock by the caller. *)
Definition buildExportFilename (chatTitle : string) (participants : list string)
                               (contacts : ContactBook) (now : string) : string :=
  let name := chatTitle in
  let name :=
    if String.eqb name "" then strings.Join (map (ResolveName contacts) participants) "_"
    else name in
  let name := nonAlphaNum_ReplaceAllString false name "_" in
  let name := strings_Trim name "_" in
  let name := if (50 <? String.length name)%nat then substring 0 50 name else name in
  let name := if String.eqb name "" then "conversation" else name in
  name ++ "_" ++ now ++ ".csv".



Section Exporter.

(** [t.Format("2006-01-02 15:04:05")] in the local zone of the
    process. *)
Variable formatTimestamp : time.Time -> string.




End Exporter.

(** ** A reader of comma-separated text

    The reading rules of RFC 4180 with line feed as record end: a field
    that opens with a double quote runs to the closing quote, a doubled
    quote inside it standing for one quote; any other field runs to the
    next comma or line feed. *)

Inductive csvState := FieldStart | InPlain | InQuoted | AfterQuote.

Fixpoint csvRead (st : csvState) (field : string) (record : list string) (s : string)
  : list (list string) :=
  match s with
  | EmptyString =>
      match st, record with
      | FieldStart, [] => []
      | _, _ => [(record ++ [field])%list]
      end
  | String c s' =>
      match st with
      | InQuoted =>
          if Ascii.eqb c quoteChar then csvRead AfterQuote field record s'
          else csvRead InQuoted (field ++ str1 c) record s'
      | _ =>
          if Ascii.eqb c "," then csvRead FieldStart "" (record ++ [field])%list s'
          else if Ascii.eqb c LF then (record ++ [field])%list :: csvRead FieldStart "" [] s'
          else if Ascii.eqb c quoteChar then
            match st with
            | FieldStart => csvRead InQuoted "" record s'
            | AfterQuote => csvRead InQuoted (field ++ str1 quoteChar) record s'
            | _ => csvRead InPlain (field ++ str1 c) record s'
            end
          else csvRead InPlain (field ++ str1 c) record s'
      end
  end.


(** ** Reference definitions for the further properties *)

(** The value of a digit sequence read left to right from [n]. *)
Fixpoint digitsValue (d : Decimal.uint) (n : Z) : Z :=
  match d with
  | Decimal.Nil => n
  | Decimal.D0 l => digitsValue l (10 * n)
  | Decimal.D1 l => digitsValue l (10 * n + 1)
  | Decimal.D2 l => digitsValue l (10 * n + 2)
  | Decimal.D3 l => digitsValue l (10 * n + 3)
  | Decimal.D4 l => digitsValue l (10 * n + 4)
  | Decimal.D5 l => digitsValue l (10 * n + 5)
  | Decimal.D6 l => digitsValue l (10 * n + 6)
  | Decimal.D7 l => digitsValue l (10 * n + 7)
  | Decimal.D8 l => digitsValue l (10 * n + 8)
  | Decimal.D9 l => digitsValue l (10 * n + 9)
  end.

(** The record a joined attachment row stands for in the thread view:
    none for the all-[NULL] row of the [LEFT JOIN] and for a row with
    empty type, empty name and size zero. *)
Definition attachmentInfoOf (a : option attachment_row) : list AttachmentInfo :=
  match a with
  | None => []
  | Some a =>
      let mime := COALESCE (attachment_mime_type a) "" in
      let name := COALESCE (attachment_transfer_name a) "" in
      let size := COALESCE (attachment_total_bytes a) 0 in
      if String.eqb mime "" && String.eqb name "" && (size =? 0) then []
      else [mkAttachmentInfo (attachmentLabel mime) name size]
  end.

(** A text column free of the two separator characters. *)
Definition separatorFree (s : string) : bool := negb (strings.ContainsAny s "|;").

Definition packable (a : option attachment_row) : bool :=
  match a with
  | None => true
  | Some a =>
      separatorFree (COALESCE (attachment_mime_type a) "") &&
      separatorFree (COALESCE (attachment_transfer_name a) "") &&
      (- 2 ^ 63 <=? COALESCE (attachment_total_bytes a) 0) &&
      (COALESCE (attachment_total_bytes a) 0 <? 2 ^ 63)
  end.

(** Trimming byte by byte: the two loops of [TrimSpace] over the ASCII
    white space. *)
Definition trimASCII (s : string) : string := strings.trimRight (strings.trimLeft s).

(** Every byte of [p] is ASCII and no white space. *)
Fixpoint plainBytes (p : string) : bool :=
  match p with
  | EmptyString => true
  | String c p' =>
      (utf8.byte c <? utf8.RuneSelf) && negb (strings.asciiSpace c) && plainBytes p'
  end.

(** The labels [attachmentLabel] can return. *)
Definition attachmentLabels : list string :=
  ["photo"; "image"; "GIF"; "video"; "audio"; "PDF"; "contact card"; "markdown";
   "archive"; "Numbers spreadsheet"; "Pages document"; "Keynote presentation";
   "attachment"; "file"].

(** [s] is empty or starts with a byte that is not white space. *)
Definition trimmedLeft (s : string) : bool :=
  match s with
  | EmptyString => true
  | String c _ => negb (strings.asciiSpace c)
  end.

(** [sub.last_date] of a chat row: [NULL] ([None]) for a chat without
    messages. *)
Definition last_date (db : Database) (c : chat_row) : option Z :=
  maxDate (joinedMessages db (chat_ROWID c)).

(** [a] may stand before [b] under [ORDER BY sub.last_date DESC]. *)
Definition lastDateFirst (db : Database) (a b : chat_row) : Prop :=
  match last_date db b with
  | None => True
  | Some y => match last_date db a with
              | Some x => y <= x
              | None => False
              end
  end.

(** Later rows that do not take the number (or address) away from the
    name [name]: a row scanned under the same key carries the same name
    or none. *)
Definition keepsName (keyOf : string -> string) (key name : string) (r : abRow) : Prop :=
  match abValue r with
  | Some v => keyOf v = key -> rowName r = name \/ rowName r = ""
  | None => True
  end.

Definition emailKey (email : string) : string := strings.ToLower (strings.TrimSpace email).

Definition holdsPhone (cb : ContactBook) (digits name phone : string) : Prop :=
  exists c, lookup digits (byDigits cb) = Some c /\ Name c = name /\ In phone (Phones c).

Definition holdsEmail (cb : ContactBook) (key name email : string) : Prop :=
  exists c, lookup key (byEmail cb) = Some c /\ Name c = name /\ In email (Emails c).

(** Every stored contact has a name and lists without duplicates. *)
Definition namedContact (c : Contact) : Prop :=
  Name c <> "" /\ NoDup (Phones c) /\ NoDup (Emails c).

Definition namedBook (cb : ContactBook) : Prop :=
  forall k c, lookup k (byDigits cb) = Some c \/ lookup k (byEmail cb) = Some c ->
              namedContact c.

Definition fieldEnd (c : ascii) : bool := Ascii.eqb c "," || Ascii.eqb c LF.

(** What the reader does at the end of a field. *)
Definition afterField (c : ascii) (field : string) (record : list string) (rest : string)
  : list (list string) :=
  if Ascii.eqb c "," then csvRead FieldStart "" (record ++ [field])%list rest
  else (record ++ [field])%list :: csvRead FieldStart "" [] rest.


(** Every byte of [s] satisfies [p]. *)
Fixpoint allBytes (p : ascii -> bool) (s : string) : bool :=
  match s with
  | EmptyString => true
  | String c s' => p c && allBytes p s'
  end.

(** ** Further observations of the coordinator *)

Definition isExport (c : Cmd) : bool :=
  match c with
  | CmdExport _ _ _ => true
  | _ => false
  end.

(** The number of export commands among the commands in flight. *)
Definition exportsInFlight (l : list Cmd) : nat := List.length (filter isExport l).

(** The cursor is the id at the head of the window: required of a
    thread at rest, that is in the message or attachment view with no
    page in flight and the history not exhausted. *)
Definition cursorAtHead (m : model) : bool :=
  loading m || allLoaded m
  || match state m with
     | viewConversations | viewSearch => true
     | _ => false
     end
  || match messages m with
     | first :: _ => oldestCursor m =? ROWID first
     | [] => false
     end.

(** How far a view is from the conversation list, in presses of
    Escape. *)
Definition escDistance (m : model) : nat :=
  match state m with
  | viewConversations => 0
  | viewMessages | viewSearch => 1
  | viewAttachments =>
      if blist.isFiltering (blist.filterState (attachmentList m)) then 3 else 2
  end.

(** ** Sample contacts: a book and the rows of an AddressBook file *)

Definition janeContact : Contact :=
  mkContact "Jane Doe" ["(555) 123-4567"] ["jane@example.com"].

Definition sampleBook : ContactBook :=
  mkContactBook [("5551234567", janeContact)] [("jane@example.com", janeContact)].

Definition sampleAddressBook : AddressBook :=
  mkAddressBook
    (Some [mkAbRow (Some "John") (Some "Smith") None (Some "+1 (555) 123-4567");
           mkAbRow None None (Some "Acme Corp") (Some "555-987-6543");
           mkAbRow (Some "Nobody") None None None])
    (Some [mkAbRow (Some "Jane") (Some "Doe") None (Some "Jane@Example.com")]).

(* ================================================================== *)
(** * Part II.  Properties                                              *)
(* ================================================================== *)

(** ** The string model: splitting and joining *)

Lemma append_empty_r (s : string) : s ++ EmptyString = s.
Proof. induction s as [|c s IH]; simpl; [reflexivity|now rewrite IH]. Qed.

Lemma append_assoc3 (a b c : string) : (a ++ b) ++ c = a ++ b ++ c.
Proof. induction a as [|x a IH]; simpl; [reflexivity|now rewrite IH]. Qed.

Lemma HasPrefix_cut (p : string) :
  forall s : string,
    strings.HasPrefix s p = true ->
    s = p ++ strings.drop (String.length p) s
    /\ (String.length p <= String.length s)%nat.
Proof.
  induction p as [|x p IH]; intros s H; simpl in *.
  - split; [reflexivity|lia].
  - destruct s as [|c s]; [discriminate|].
    apply andb_true_iff in H as [Hc Hp]. apply Ascii.eqb_eq in Hc. subst c.
    destruct (IH s Hp) as [Heq Hlen]. simpl. split; [now rewrite <- Heq|lia].
Qed.

Lemma genSplit_skip (sep : string) (k : nat) :
  forall (cur s : string),
    (k <= String.length s)%nat ->
    strings.genSplit sep None k cur s = strings.genSplit sep None O cur (strings.drop k s).
Proof.
  induction k as [|k IH]; intros cur s Hk; [reflexivity|].
  destruct s as [|c s]; simpl in *; [lia|]. apply IH. lia.
Qed.

Lemma Join_cons (x : string) (l : list string) (sep : string) :
  l <> [] -> strings.Join (x :: l) sep = x ++ sep ++ strings.Join l sep.
Proof. destruct l; [contradiction|reflexivity]. Qed.

Lemma genSplit_not_nil (sep : string) (s : string) :
  forall (limit : option nat) (skip : nat) (cur : string),
    strings.genSplit sep limit skip cur s <> [].
Proof.
  induction s as [|c s IH]; intros limit skip cur; simpl; [discriminate|].
  destruct skip; [|apply IH].
  destruct limit as [[|l]|]; try apply IH;
    destruct (strings.HasPrefix _ _); try apply IH; discriminate.
Qed.

(** Joining the pieces of [Split] with the separator gives the string
    back. *)
Lemma Split_Join (sep : string) :
  sep <> EmptyString ->
  forall s : string, strings.Join (strings.Split s sep) sep = s.
Proof.
  intros Hsep.
  assert (Hgen : forall (n : nat) (s cur : string),
             (String.length s <= n)%nat ->
             strings.Join (strings.genSplit sep None O cur s) sep = cur ++ s).
  { induction n as [|n IH]; intros s cur Hn.
    - destruct s; [simpl; now rewrite append_empty_r|simpl in Hn; lia].
    - destruct s as [|c s]; [simpl; now rewrite append_empty_r|].
      cbn [strings.genSplit].
      destruct (strings.HasPrefix (String c s) sep) eqn:Hp.
      + destruct (HasPrefix_cut sep _ Hp) as [Hcut Hlen].
        destruct sep as [|x sep]; [contradiction|].
        cbn [String.length strings.drop] in Hcut, Hlen |- *.
        replace (S (String.length sep) - 1)%nat with (String.length sep) by lia.
        rewrite genSplit_skip by lia.
        rewrite Join_cons by apply genSplit_not_nil.
        rewrite IH.
        * cbn [append]. rewrite Hcut. reflexivity.
        * simpl in Hn.
          assert (String.length (strings.drop (String.length sep) s) <= String.length s)%nat.
          { clear. generalize (String.length sep) as k. intros k. revert s.
            induction k as [|k IHk]; intros s; [simpl; lia|].
            destruct s as [|c s]; simpl; [lia|]. specialize (IHk s). lia. }
          lia.
      + rewrite IH by (simpl in Hn; lia).
        rewrite append_assoc3. reflexivity. }
  intros s. unfold strings.Split. now rewrite (Hgen (String.length s)).
Qed.

(** ** CSV escaping *)

Lemma replace_quote_doubles (s : string) :
  strings.replaceGo (str1 quoteChar) (String quoteChar (str1 quoteChar)) O s = doubleQuotes s.
Proof.
  induction s as [|c s IH]; simpl; [reflexivity|].
  rewrite andb_true_r.
  destruct (Ascii.eqb c quoteChar); simpl; rewrite IH; reflexivity.
Qed.

Lemma containsAny_csvSpecials (s : string) :
  strings.ContainsAny s csvSpecials = hasCsvSpecial s.
Proof.
  induction s as [|c s IH]; simpl; [reflexivity|].
  rewrite IH, orb_false_r, !orb_assoc. reflexivity.
Qed.

(** C7.  For every string [s], [csvEscape] returns [s] unchanged when
    [s] holds no comma, double quote or line break, and otherwise [s]
    wrapped in double quotes with every inner double quote doubled; the
    three examples of the specification evaluate as stated. *)
Theorem C7_csvEscape :
  (forall s : string,
     csvEscape s =
     if hasCsvSpecial s
     then str1 quoteChar ++ doubleQuotes s ++ str1 quoteChar
     else s)
  /\ csvEscape "hello, world" = str1 quoteChar ++ "hello, world" ++ str1 quoteChar
  /\ csvEscape ("say " ++ str1 quoteChar ++ "hi" ++ str1 quoteChar)
     = str1 quoteChar ++ "say " ++ str1 quoteChar ++ str1 quoteChar ++ "hi"
       ++ str1 quoteChar ++ str1 quoteChar ++ str1 quoteChar
  /\ csvEscape "hello" = "hello".
Proof.
  split; [|repeat split; reflexivity].
  intros s. unfold csvEscape, strings.ReplaceAll.
  rewrite containsAny_csvSpecials, replace_quote_doubles. reflexivity.
Qed.

(** ** Attachment decoding *)

Lemma genSplit_length (sep : string) (s : string) :
  forall (limit : nat) (skip : nat) (cur : string),
    (1 <= List.length (strings.genSplit sep (Some limit) skip cur s) <= S limit)%nat.
Proof.
  induction s as [|c s IH]; intros limit skip cur; simpl; [lia|].
  destruct skip as [|k]; [|apply IH].
  destruct limit as [|l]; [apply IH|].
  destruct (strings.HasPrefix _ _).
  - simpl. specialize (IH l (String.length sep - 1)%nat EmptyString). lia.
  - specialize (IH (S l) O (cur ++ str1 c)). lia.
Qed.

Lemma parseEntry_decodeEntry (entry : string) :
  decodeEntry entry = match parseEntry entry with None => [] | Some a => [a] end.
Proof.
  unfold decodeEntry, entryFields, parseEntry.
  pose proof (genSplit_length "||" entry 2 O EmptyString) as Hlen.
  change (strings.SplitN entry "||" 3)
    with (strings.genSplit "||" (Some 2%nat) O EmptyString entry).
  destruct (strings.genSplit "||" (Some 2%nat) O EmptyString entry) as [|f0 [|f1 [|f2 [|f3 fs]]]];
    simpl in *; try lia;
    match goal with |- context [if ?b then _ else _] => destruct b end; reflexivity.
Qed.

Lemma parse_loop_flat_map (entries : list string) :
  forall acc : list AttachmentInfo,
    fold_left
      (fun (attachments : list AttachmentInfo) entry =>
         match parseEntry entry with
         | None => attachments
         | Some a => (attachments ++ [a])%list
         end) entries acc
    = (acc ++ flat_map decodeEntry entries)%list.
Proof.
  induction entries as [|e entries IH]; intros acc; simpl.
  - now rewrite app_nil_r.
  - rewrite IH, parseEntry_decodeEntry.
    destruct (parseEntry e); [now rewrite <- app_assoc|reflexivity].
Qed.

(** C6.  [parseAttachments] splits its input on [";;"], reads each
    entry as at most three ["||"]-separated fields, drops the entry whose
    type and name are empty and whose size is zero, and otherwise emits
    one record per entry in source order; the three decodings quoted in
    the specification evaluate as stated. *)
Theorem C6_parseAttachments :
  (forall raw : string,
     parseAttachments raw =
     if String.eqb raw "" then [] else flat_map decodeEntry (strings.Split raw ";;"))
  /\ (forall entry : string,
        (1 <= List.length (strings.SplitN entry "||" 3) <= 3)%nat
        /\ (List.length (decodeEntry entry) <= 1)%nat)
  /\ parseAttachments "image/jpeg||IMG_001.jpg||2048576"
     = [mkAttachmentInfo "photo" "IMG_001.jpg" 2048576]
  /\ parseAttachments "" = []
  /\ parseAttachments "image/heic||a.heic||1000;;video/quicktime||b.mov||5000"
     = [mkAttachmentInfo "photo" "a.heic" 1000; mkAttachmentInfo "video" "b.mov" 5000].
Proof.
  split; [|split; [|repeat split; reflexivity]].
  - intros raw. unfold parseAttachments.
    destruct (String.eqb raw ""); [reflexivity|].
    now rewrite parse_loop_flat_map.
  - intros entry. split.
    + exact (genSplit_length "||" entry 2 O EmptyString).
    + unfold decodeEntry. destruct (entryFields entry) as [[mime name] size].
      destruct (_ && _); simpl; lia.
Qed.

(** ** Time decoding *)

Lemma rem_quot_small (n : Z) :
  - 1000000000 < n < 1000000000 -> Z.quot n 1000000000 = 0.
Proof. intros H. apply Z.quot_small_iff; lia. Qed.

Lemma quot_rem_billion (n : Z) :
  n = 1000000000 * Z.quot n 1000000000 + Z.rem n 1000000000
  /\ - 1000000000 < Z.rem n 1000000000 < 1000000000.
Proof.
  split; [apply Z.quot_rem'|].
  assert (Hb : 1000000000 <> 0) by lia.
  pose proof (Z.rem_bound_abs n 1000000000 Hb). lia.
Qed.

(** C5.  [appleNanosToTime 0] is the zero time, the "unset" sentinel,
    which is not the Unix epoch; for every non-zero 64-bit [nanos] the
    result is the instant [time.Unix unixSeconds remainderNanos] with
    [unixSeconds = nanos / 1e9 + 978307200] and
    [remainderNanos = nanos % 1e9] (Go's truncating division), that is
    [nanos] nanoseconds after the custom epoch, and it is never the
    sentinel. *)
Theorem C5_appleNanosToTime :
  (appleEpochOffset = 978307200
   /\ appleNanosToTime 0 = time.zeroTime
   /\ time.IsZero (appleNanosToTime 0) = true
   /\ appleNanosToTime 0 <> time.Unix 0 0)
  /\ forall nanos : Z,
       - 2 ^ 63 <= nanos < 2 ^ 63 -> nanos <> 0 ->
       let unixSeconds := Z.quot nanos 1000000000 + appleEpochOffset in
       let remainderNanos := Z.rem nanos 1000000000 in
       appleNanosToTime nanos = time.Unix unixSeconds remainderNanos
       /\ time.UnixNano (appleNanosToTime nanos) = unixSeconds * 1000000000 + remainderNanos
       /\ time.UnixNano (appleNanosToTime nanos) = nanos + appleEpochOffset * 1000000000
       /\ 0 <= time.nsec (appleNanosToTime nanos) < 1000000000
       /\ time.IsZero (appleNanosToTime nanos) = false.
Proof.
  split.
  - repeat split; try reflexivity. discriminate.
  - intros nanos Hrange Hnz unixSeconds remainderNanos.
    destruct (quot_rem_billion nanos) as [Hqr Hr].
    assert (Heq : appleNanosToTime nanos = time.Unix unixSeconds remainderNanos).
    { unfold appleNanosToTime. destruct (Z.eqb_spec nanos 0); [contradiction|reflexivity]. }
    rewrite Heq. split; [reflexivity|].
    subst unixSeconds remainderNanos.
    remember (Z.quot nanos 1000000000) as q eqn:Eq.
    remember (Z.rem nanos 1000000000) as r eqn:Er.
    unfold time.Unix, time.UnixNano, time.UnixSeconds, time.IsZero.
    unfold appleEpochOffset, time.unixToInternal in *.
    destruct (Z.ltb_spec r 0) as [Hneg|Hpos]; simpl orb.
    + rewrite (rem_quot_small r) by lia.
      replace (r - 0 * 1000000000) with r by lia.
      destruct (Z.ltb_spec r 0); [|lia]. cbn [time.sec time.nsec].
      repeat split; try lia.
      all: apply andb_false_iff; left; apply Z.eqb_neq; lia.
    + destruct (Z.geb_spec r 1000000000); [lia|]. cbn [time.sec time.nsec].
      repeat split; try lia.
      all: apply andb_false_iff; left; apply Z.eqb_neq; lia.
Qed.

(** The seconds-resolution value of the repository's test,
    2024-06-15T11:00:00Z. *)
Lemma C5_appleNanosToTime_witness :
  time.UnixNano (appleNanosToTime 740142000000000000)
  = 740142000000000000 + appleEpochOffset * 1000000000
  /\ time.IsZero (appleNanosToTime 740142000000000000) = false.
Proof.
  destruct (proj2 C5_appleNanosToTime 740142000000000000) as (_ & _ & H & _ & Hz);
    [lia | lia | exact (conj H Hz)].
Defined.

(** ** Byte-size formatting *)

Lemma roundHalfEven_nearest (num den : Z) :
  0 < den -> 2 * Z.abs (num - fmt.roundHalfEven num den * den) <= den.
Proof.
  intros Hden. unfold fmt.roundHalfEven.
  pose proof (Z.div_mod num den ltac:(lia)) as Hdm.
  pose proof (Z.mod_pos_bound num den Hden) as Hb.
  destruct (Z.ltb_spec (2 * (num mod den)) den).
  - lia.
  - destruct (Z.ltb_spec den (2 * (num mod den))); [lia|].
    destruct (Z.even (num / den)); lia.
Qed.

Lemma roundHalfEven_nonneg (num den : Z) :
  0 <= num -> 0 < den -> 0 <= fmt.roundHalfEven num den.
Proof.
  intros Hn Hd. unfold fmt.roundHalfEven.
  pose proof (Z.div_pos num den Hn Hd).
  repeat match goal with |- context [if ?b then _ else _] => destruct b end; lia.
Qed.

Lemma float64_exact (b : Z) : Z.abs b < 2 ^ 53 -> fmt.float64 b = b.
Proof.
  intros H. unfold fmt.float64. destruct (Z.ltb_spec (Z.abs b) (2 ^ 53)); [reflexivity|lia].
Qed.

Lemma float64_nonneg (b : Z) : 0 <= b -> 0 <= fmt.float64 b.
Proof.
  intros H. unfold fmt.float64.
  destruct (Z.ltb_spec (Z.abs b) (2 ^ 53)); [lia|].
  replace (Z.abs b) with b in * by lia.
  assert (Hl : 53 <= Z.log2 b) by (apply Z.log2_le_pow2; lia).
  assert (Hp : 0 < 2 ^ (Z.log2 b - 52)) by (apply Z.pow_pos_nonneg; lia).
  pose proof (roundHalfEven_nonneg b (2 ^ (Z.log2 b - 52)) H Hp).
  assert (0 <= Z.sgn b) by (apply Z.sgn_nonneg; lia). nia.
Qed.

Lemma float64_error (b : Z) : 0 <= b -> 2 ^ 53 * Z.abs (fmt.float64 b - b) <= b.
Proof.
  intros H. unfold fmt.float64.
  destruct (Z.ltb_spec (Z.abs b) (2 ^ 53)) as [Hs|Hs].
  - replace (b - b) with 0 by lia. simpl Z.abs. lia.
  - replace (Z.abs b) with b in * by lia.
    assert (Hl : 53 <= Z.log2 b) by (apply Z.log2_le_pow2; lia).
    set (e := Z.log2 b - 52).
    assert (Hp : 0 < 2 ^ e) by (apply Z.pow_pos_nonneg; lia).
    pose proof (roundHalfEven_nearest b (2 ^ e) Hp) as Hn.
    rewrite Z.sgn_pos by lia.
    destruct (Z.log2_spec b ltac:(lia)) as [Hlo _].
    replace (Z.log2 b) with (52 + e) in Hlo by (unfold e; lia).
    rewrite Z.pow_add_r in Hlo by lia.
    replace (1 * (fmt.roundHalfEven b (2 ^ e) * 2 ^ e) - b)
      with (- (b - fmt.roundHalfEven b (2 ^ e) * 2 ^ e)) by lia.
    rewrite Z.abs_opp.
    change (2 ^ 53) with (2 * 2 ^ 52). change (2 ^ 52) with 4503599627370496 in *. lia.
Qed.

Lemma Sprintf_1f_nearest (f u : Z) :
  0 <= f -> 0 < u ->
  fmt.Sprintf_1f f u = oneDecimal (fmt.tenths f u) /\ nearestTenth f u (fmt.tenths f u).
Proof.
  intros Hf Hu. unfold fmt.Sprintf_1f, oneDecimal, nearestTenth, fmt.tenths.
  destruct (Z.ltb_spec f 0); [lia|]. split; [reflexivity|].
  replace (Z.abs f) with f by lia. apply roundHalfEven_nearest; exact Hu.
Qed.

(** C8 (as amended).  For every byte count [0 <= b < 2^63],
    [formatBytes] uses the binary units with thresholds 1024, 1024^2
    and 1024^3 and picks the largest one that [b] meets.  Below 1024 the
    count is printed as a plain integer followed by [" B"], with no
    decimal place; from 1024 on it is the value in the unit, rounded to a
    nearest tenth and printed with exactly one decimal, followed by
    [" KB"], [" MB"] or [" GB"].  The value rounded is [float64 b],
    which is [b] itself below [2^53] and within relative error [2^-53]
    of [b] above: below [2^53] the printed number is a nearest tenth of
    the count in the unit, above it can be a tenth away, as at
    [2^54 + 2^28 + 1], printed ["16777216.2 GB"] where the nearest tenth
    is [.3]. *)
Theorem C8_formatBytes (b : Z) :
  0 <= b < 2 ^ 63 ->
  (b < 1024 -> formatBytes b = strconv.Itoa b ++ " B")
  /\ (1024 <= b < 1024 ^ 2 ->
      exists t, nearestTenth (fmt.float64 b) 1024 t
                /\ formatBytes b = oneDecimal t ++ " KB")
  /\ (1024 ^ 2 <= b < 1024 ^ 3 ->
      exists t, nearestTenth (fmt.float64 b) (1024 ^ 2) t
                /\ formatBytes b = oneDecimal t ++ " MB")
  /\ (1024 ^ 3 <= b ->
      exists t, nearestTenth (fmt.float64 b) (1024 ^ 3) t
                /\ formatBytes b = oneDecimal t ++ " GB")
  /\ (b < 2 ^ 53 -> fmt.float64 b = b)
  /\ 2 ^ 53 * Z.abs (fmt.float64 b - b) <= b
  /\ formatBytes (2 ^ 54 + 2 ^ 28 + 1) = "16777216.2 GB"
  /\ ~ nearestTenth (2 ^ 54 + 2 ^ 28 + 1) (1024 ^ 3) 167772162.
Proof.
  intros Hb.
  assert (Hbig1 : formatBytes (2 ^ 54 + 2 ^ 28 + 1) = "16777216.2 GB")
    by (vm_compute; reflexivity).
  assert (Hbig2 : ~ nearestTenth (2 ^ 54 + 2 ^ 28 + 1) (1024 ^ 3) 167772162).
  { unfold nearestTenth. intros H. vm_compute in H. apply H. reflexivity. }
  revert Hbig1 Hbig2.
  generalize (formatBytes (2 ^ 54 + 2 ^ 28 + 1)) as big.
  intros big Hbig1 Hbig2.
  pose proof (float64_nonneg b ltac:(lia)) as Hf.
  unfold formatBytes.
  change (Z.shiftl 1 30) with 1073741824.
  change (Z.shiftl 1 20) with 1048576.
  change (Z.shiftl 1 10) with 1024.
  change (fmt.float64 1073741824) with 1073741824.
  change (fmt.float64 1048576) with 1048576.
  change (fmt.float64 1024) with 1024.
  change (1024 ^ 2) with 1048576. change (1024 ^ 3) with 1073741824.
  repeat split.
  - intros H.
    destruct (Z.geb_spec b 1073741824); [lia|].
    destruct (Z.geb_spec b 1048576); [lia|].
    destruct (Z.geb_spec b 1024); [lia|]. reflexivity.
  - intros H.
    destruct (Z.geb_spec b 1073741824); [lia|].
    destruct (Z.geb_spec b 1048576); [lia|].
    destruct (Z.geb_spec b 1024); [|lia].
    exists (fmt.tenths (fmt.float64 b) 1024).
    destruct (Sprintf_1f_nearest (fmt.float64 b) 1024 Hf ltac:(lia)) as [-> Hn].
    split; [exact Hn|reflexivity].
  - intros H.
    destruct (Z.geb_spec b 1073741824); [lia|].
    destruct (Z.geb_spec b 1048576); [|lia].
    exists (fmt.tenths (fmt.float64 b) 1048576).
    destruct (Sprintf_1f_nearest (fmt.float64 b) 1048576 Hf ltac:(lia)) as [-> Hn].
    split; [exact Hn|reflexivity].
  - intros H.
    destruct (Z.geb_spec b 1073741824); [|lia].
    exists (fmt.tenths (fmt.float64 b) 1073741824).
    destruct (Sprintf_1f_nearest (fmt.float64 b) 1073741824 Hf ltac:(lia)) as [-> Hn].
    split; [exact Hn|reflexivity].
  - intros H. apply float64_exact. lia.
  - apply float64_error. lia.
  - exact Hbig1.
  - exact Hbig2.
Qed.

Lemma C8_formatBytes_witness :
  (exists t, nearestTenth (fmt.float64 1536) 1024 t
             /\ formatBytes 1536 = oneDecimal t ++ " KB")
  /\ formatBytes 500 = strconv.Itoa 500 ++ " B".
Proof.
  assert (H : 0 <= 1536 < 2 ^ 63) by lia.
  assert (H' : 0 <= 500 < 2 ^ 63) by lia.
  split.
  - apply (proj1 (proj2 (C8_formatBytes 1536 H))). lia.
  - apply (proj1 (C8_formatBytes 500 H')). lia.
Defined.

(** The count 500 is printed as ["500 B"]: no decimal place, where the
    specification has one decimal place for every value.  And the
    decimal printed for [2^54 + 2^28 + 1] bytes is not the nearest tenth
    of the count in GB, which is [16777216.3]. *)
Lemma C8_formatBytes_counterexample :
  formatBytes 500 = "500 B"
  /\ ~ (forall b : Z, 0 <= b -> hasOneDecimalPlace (formatBytes b) = true)
  /\ formatBytes (2 ^ 54 + 2 ^ 28 + 1) = oneDecimal 167772162 ++ " GB"
  /\ ~ nearestTenth (2 ^ 54 + 2 ^ 28 + 1) (1024 ^ 3) 167772162
  /\ nearestTenth (2 ^ 54 + 2 ^ 28 + 1) (1024 ^ 3) 167772163.
Proof.
  split; [reflexivity|]. split.
  - intros H. specialize (H 500). vm_compute in H.
    assert (Hf : false = true) by (apply H; discriminate). discriminate.
  - split; [vm_compute; reflexivity|]. unfold nearestTenth. split.
    + intros H. vm_compute in H. apply H. reflexivity.
    + vm_compute. discriminate.
Qed.

(** ** Ordering of query results *)

Section OrderBy.

Context {A : Type} (le : A -> A -> bool).
Hypothesis le_total : forall a b, le a b = true \/ le b a = true.
Hypothesis le_trans : forall a b c, le a b = true -> le b c = true -> le a c = true.

Let leP (a b : A) : Prop := le a b = true.

Lemma insertBy_perm (x : A) (l : list A) : Permutation (insertBy le x l) (x :: l).
Proof.
  induction l as [|y l IH]; simpl; [apply Permutation_refl|].
  destruct (le x y); [apply Permutation_refl|].
  eapply perm_trans; [apply perm_skip, IH | apply perm_swap].
Qed.

Lemma sortBy_perm (l : list A) : Permutation (sortBy le l) l.
Proof.
  induction l as [|x l IH]; simpl; [constructor|].
  eapply perm_trans; [apply insertBy_perm | apply perm_skip, IH].
Qed.

Lemma insertBy_sorted (x : A) (l : list A) :
  StronglySorted leP l -> StronglySorted leP (insertBy le x l).
Proof.
  induction l as [|y l IH]; simpl; intros Hs.
  - repeat constructor.
  - apply StronglySorted_inv in Hs as [Hs Hall].
    destruct (le x y) eqn:Hxy.
    + constructor; [constructor; assumption|].
      constructor; [exact Hxy|].
      eapply Forall_impl; [|exact Hall]. intros z Hz. eapply le_trans; eassumption.
    + constructor; [apply IH, Hs|].
      assert (Hyx : le y x = true) by (destruct (le_total x y); congruence).
      eapply Permutation_Forall; [apply Permutation_sym, insertBy_perm|].
      constructor; assumption.
Qed.

Lemma sortBy_sorted (l : list A) : StronglySorted leP (sortBy le l).
Proof.
  induction l as [|x l IH]; simpl; [constructor|apply insertBy_sorted, IH].
Qed.

End OrderBy.

Section SortedLists.

Context {A : Type}.


Lemma sorted_app_inv (R : A -> A -> Prop) (l1 l2 : list A) :
  StronglySorted R (l1 ++ l2) ->
  StronglySorted R l1 /\ StronglySorted R l2
  /\ (forall a b, In a l1 -> In b l2 -> R a b).
Proof.
  induction l1 as [|x l1 IH]; simpl; intros H.
  - repeat split; [constructor|exact H|intros a b []].
  - apply StronglySorted_inv in H as [H Hall].
    destruct (IH H) as (H1 & H2 & H12).
    apply Forall_app in Hall as [Ha1 Ha2].
    repeat split; [constructor; assumption|exact H2|].
    intros a b [<-|Ha] Hb; [|now apply H12].
    rewrite Forall_forall in Ha2. now apply Ha2.
Qed.



Lemma sorted_impl (R S : A -> A -> Prop) (l : list A) :
  (forall a b, In a l -> In b l -> R a b -> S a b) ->
  StronglySorted R l -> StronglySorted S l.
Proof.
  induction l as [|x l IH]; intros Himp H; [constructor|].
  apply StronglySorted_inv in H as [H Hall].
  constructor.
  - apply IH; [|exact H]. intros a b Ha Hb. apply Himp; now right.
  - apply Forall_forall. intros y Hy. rewrite Forall_forall in Hall.
    apply Himp; [now left|now right|now apply Hall].
Qed.





End SortedLists.

(** ** Pagination *)

Lemma distinctb_NoDup (l : list Z) : distinctb l = true -> NoDup l.
Proof.
  induction l as [|x l IH]; simpl; intros H; [constructor|].
  apply andb_true_iff in H as [Hx Hl].
  constructor; [|apply IH, Hl].
  intros Hin. apply negb_true_iff in Hx.
  assert (existsb (Z.eqb x) l = true); [|congruence].
  apply existsb_exists. exists x. split; [exact Hin|apply Z.eqb_refl].
Qed.

Lemma primaryKeyb_sound (db : Database) : primaryKeyb db = true -> primaryKey db.
Proof. apply distinctb_NoDup. Qed.

Lemma chronologicalIdsb_sound (db : Database) (chatID : Z) :
  chronologicalIdsb db chatID = true -> chronologicalIds db chatID.
Proof.
  unfold chronologicalIdsb, chronologicalIds. intros H a b Ha Hb Hlt.
  rewrite forallb_forall in H. specialize (H a Ha).
  rewrite forallb_forall in H. specialize (H b Hb).
  apply Z.ltb_lt in Hlt. rewrite Hlt in H. simpl in H. now apply Z.ltb_lt.
Qed.

Lemma noSentinelIdb_sound (db : Database) (chatID : Z) :
  noSentinelIdb db chatID = true -> noSentinelId db chatID.
Proof.
  unfold noSentinelIdb, noSentinelId. intros H a Ha.
  rewrite forallb_forall in H. specialize (H a Ha).
  apply negb_true_iff, Z.eqb_neq in H. exact H.
Qed.


Lemma sorted_firstn {A : Type} (R : A -> A -> Prop) (n : nat) (l : list A) :
  StronglySorted R l -> StronglySorted R (firstn n l).
Proof.
  intros H. rewrite <- (firstn_skipn n l) in H.
  now apply sorted_app_inv in H as (H1 & _ & _).
Qed.







Section ChronologicalChat.

Variables (db : Database) (chatID : Z).
Hypothesis Hkey : primaryKey db.
Hypothesis Hchron : chronologicalIds db chatID.
Hypothesis Hsent : noSentinelId db chatID.

Let rows := chatMessages db chatID.

Lemma dateAsc_total : forall a b, dateAsc a b = true \/ dateAsc b a = true.
Proof.
  intros a b. unfold dateAsc.
  destruct (Z.leb_spec (message_date a) (message_date b)); [now left|right].
  apply Z.leb_le. lia.
Qed.


Lemma dateDesc_total : forall a b, dateDesc a b = true \/ dateDesc b a = true.
Proof. intros a b. destruct (dateAsc_total a b); [now right|now left]. Qed.

Lemma dateDesc_trans : forall a b c,
    dateDesc a b = true -> dateDesc b c = true -> dateDesc a c = true.
Proof. intros a b c. unfold dateDesc. rewrite !Z.leb_le. lia. Qed.



Section Sublist.

Variable X : list message_row.
Hypothesis X_rows : incl X rows.
Hypothesis X_nodup : NoDup (map message_ROWID X).




End Sublist.









End ChronologicalChat.





(** ** Default page size *)

(** C10.  For every chat and cursor, [FetchMessages] called with a page
    size of zero or less returns what it returns for the default page
    size, 200: the size is replaced, no empty result or error is
    produced in its place. *)
Theorem C10_default_page_size (db : Database) (chatID cursor pageSize : Z) :
  pageSize <= 0 ->
  messagesPageSize = 200
  /\ FetchMessages db chatID cursor pageSize
     = FetchMessages db chatID cursor messagesPageSize.
Proof.
  intros H. split; [reflexivity|].
  unfold FetchMessages. destruct (Z.leb_spec pageSize 0); [reflexivity|lia].
Qed.

Lemma C10_default_page_size_witness :
  FetchMessages seedDB 1 0 (-1) = FetchMessages seedDB 1 0 messagesPageSize
  /\ map ROWID (FetchMessages seedDB 1 0 (-1)) = [1; 2; 3; 4; 5; 6; 7; 8; 9; 10].
Proof.
  assert (H : -1 <= 0) by lia.
  split; [exact (proj2 (C10_default_page_size seedDB 1 0 (-1) H))|reflexivity].
Defined.

(** ** The coordinator: one event at a time *)

Section CoordinatorSteps.

Context {ui : UI}.

Lemma stale_page_step (m : model) (msg : Msg) :
  stalePage (activeChatID m) msg = true ->
  Update msg m = (recordError msg m, CmdNil)
  /\ thread (recordError msg m) = thread m
  /\ viewport (recordError msg m) = viewport m.
Proof.
  destruct msg as [| | | |msgs chatID prepend e| | | | |]; try discriminate.
  cbn [stalePage]. intros Hstale. cbn [Update recordError].
  destruct e as [e|]; [|rewrite Hstale]; repeat split.
Qed.

(** Page results for another chat than the active one leave the
    thread and the viewport as they are and issue no command; one that
    carries an error has it stored in [err]. *)
Lemma stale_pages_keep_thread (m : model) (results : list Msg) :
  forallb (stalePage (activeChatID m)) results = true ->
  messages (runMsgs results m) = messages m
  /\ oldestCursor (runMsgs results m) = oldestCursor m
  /\ allLoaded (runMsgs results m) = allLoaded m
  /\ viewport (runMsgs results m) = viewport m
  /\ thread (runMsgs results m) = thread m
  /\ (forall msg, In msg results ->
        forall m0, activeChatID m0 = activeChatID m ->
          Update msg m0 = (recordError msg m0, CmdNil)).
Proof.
  intros Hstale.
  assert (Hrun : thread (runMsgs results m) = thread m
                 /\ viewport (runMsgs results m) = viewport m).
  { revert m Hstale. induction results as [|msg results IH]; intros m Hstale; [now split|].
    cbn [forallb] in Hstale. apply andb_true_iff in Hstale as [Hmsg Hrest].
    destruct (stale_page_step m msg Hmsg) as (Hupd & Hth & Hvp).
    cbn [runMsgs fold_left]. fold (runMsgs results (fst (Update msg m))).
    rewrite Hupd. cbn [fst].
    assert (Hact : activeChatID (recordError msg m) = activeChatID m)
      by exact (f_equal th_chat Hth).
    rewrite <- Hact in Hrest. destruct (IH _ Hrest) as [IH1 IH2].
    split; [now rewrite IH1|now rewrite IH2]. }
  destruct Hrun as [Hth Hvp].
  split; [exact (f_equal th_window Hth)|].
  split; [exact (f_equal th_cursor Hth)|].
  split; [exact (f_equal th_exhausted Hth)|].
  split; [exact Hvp|]. split; [exact Hth|].
  intros msg Hin m0 Hact.
  rewrite forallb_forall in Hstale. specialize (Hstale _ Hin). rewrite <- Hact in Hstale.
  now destruct (stale_page_step m0 msg Hstale) as (Hupd & _ & _).
Qed.

(** C9.  In every state -- whatever the view and whatever the active
    chat -- a successful attachment-list result replaces the items of
    the attachment list by the delivered attachments, in order, and sets
    the title to their count; the result message carries no conversation
    id and nothing compares it with the active chat.  The thread state
    and the viewport are not touched. *)
Theorem C9_attachments_never_stale (m : model) (attachments : list ChatAttachment) :
  let m' := fst (Update (attachmentsLoadedMsg attachments None) m) in
  blist.items (attachmentList m')
  = map (fun a => mkAttachmentItem a (Some (contacts m))) attachments
  /\ map attachment_ (blist.items (attachmentList m')) = attachments
  /\ blist.Title (attachmentList m')
     = "Attachments " ++ emDash ++ " " ++ strconv.Itoa (len attachments) ++ " files"
  /\ thread m' = thread m
  /\ viewport m' = viewport m.
Proof.
  cbn [Update]. unfold blist.SetItems.
  destruct (blist.isUnfiltered (blist.filterState (attachmentList m))); cbn.
  all: repeat split; rewrite map_map; cbn; apply map_id.
Qed.

Lemma no_fetch_while_loading (m : model) (key : string) :
  state m = viewMessages -> loading m = true ->
  forall chatID cursor prepend,
    ~ In (CmdFetchMessages chatID cursor prepend) (flatten (snd (Update (KeyMsg key) m))).
Proof.
  intros Hstate Hload chatID cursor prepend.
  cbn [Update]. rewrite Hstate.
  destruct (String.eqb key "ctrl+c"); [cbn; intuition discriminate|].
  unfold updateMessageView.
  cbn [loading allLoaded set_viewport]. rewrite Hload. cbn [negb]. rewrite andb_false_r.
  repeat match goal with
         | |- context [if ?b then _ else _] => destruct b
         end; cbn; intuition discriminate.
Qed.

(** C4 (the code at the failing input).  A page result with an error
    sets [err], issues no command (the session goes on) and leaves the
    window and the viewport as they were -- but it also leaves the
    in-flight flag [loading] as it was: [Update] returns before
    [m.loading = false].  The search result path clears its flag
    [searching] before the same test.  With [loading] still set in the
    message view, no key issues a page fetch again. *)
Theorem C4_page_error_keeps_loading :
  (forall (m : model) msgs chatID prepend e,
      let m' := fst (Update (messagesLoadedMsg msgs chatID prepend (Some e)) m) in
      loading m' = loading m
      /\ err m' = Some e
      /\ messages m' = messages m
      /\ viewport m' = viewport m
      /\ snd (Update (messagesLoadedMsg msgs chatID prepend (Some e)) m) = CmdNil
      /\ (state m = viewMessages -> loading m = true ->
          forall key chatID' cursor prepend',
            ~ In (CmdFetchMessages chatID' cursor prepend')
                 (flatten (snd (Update (KeyMsg key) m')))))
  /\ (forall (m : model) results term e,
        let m' := fst (Update (searchResultsMsg results term (Some e)) m) in
        searching m' = false
        /\ err m' = Some e
        /\ searchResults m' = searchResults m
        /\ snd (Update (searchResultsMsg results term (Some e)) m) = CmdNil)
  /\ (forall (m : model) attachments e,
        let m' := fst (Update (attachmentsLoadedMsg attachments (Some e)) m) in
        attachmentList m' = attachmentList m
        /\ err m' = Some e
        /\ snd (Update (attachmentsLoadedMsg attachments (Some e)) m) = CmdNil).
Proof.
  split; [|split].
  - intros m msgs chatID prepend e m'. subst m'. cbn [Update fst snd].
    repeat split.
    intros Hstate Hload key chatID' cursor prepend'.
    apply no_fetch_while_loading; assumption.
  - intros m results term e. cbn. repeat split.
  - intros m attachments e. cbn. repeat split.
Qed.

(** *** Steps of the message thread *)

Lemma enter_thread (m : model) (it : convItem) :
  state m = viewConversations ->
  blist.SelectedItem (convList m) = Some it ->
  snd (Update (KeyMsg "enter") m) = CmdFetchMessages (ChatID (conv it)) 0 false
  /\ thread (fst (Update (KeyMsg "enter") m))
     = mkThread viewMessages (ChatID (conv it)) [] 0 false true
  /\ convList (fst (Update (KeyMsg "enter") m)) = convList m.
Proof.
  intros Hstate Hsel. cbn [Update]. rewrite Hstate.
  change (String.eqb "enter" "ctrl+c") with false. cbv iota.
  unfold updateConversationList.
  change (String.eqb "enter" "enter") with true. cbv iota.
  rewrite Hsel. cbn. repeat split.
Qed.

Lemma accept_page (m : model) (msgs : list Message) (prepend : bool) :
  (len msgs =? 0) = false ->
  snd (Update (messagesLoadedMsg msgs (activeChatID m) prepend None) m) = CmdNil
  /\ thread (fst (Update (messagesLoadedMsg msgs (activeChatID m) prepend None) m))
     = mkThread (state m) (activeChatID m) (newWindow m msgs prepend)
         (headROWID (newWindow m msgs prepend) (oldestCursor m))
         (allLoaded m || (len msgs <? messagesPageSize)) false
  /\ convList (fst (Update (messagesLoadedMsg msgs (activeChatID m) prepend None) m))
     = convList m.
Proof.
  intros Hlen. cbn [Update]. rewrite Z.eqb_refl. cbn [negb]. rewrite Hlen.
  unfold newWindow, headROWID, thread.
  destruct prepend; cbn [negb].
  - destruct (msgs ++ messages m)%list eqn:Hw; destruct (len msgs <? messagesPageSize);
      cbn; rewrite ?Hw, ?orb_true_r, ?orb_false_r; repeat split; reflexivity.
  - destruct msgs eqn:Hw; destruct (len _ <? messagesPageSize);
      cbn; rewrite ?orb_true_r, ?orb_false_r; repeat split; reflexivity.
Qed.


Lemma atTop_GotoTop (v : viewport.Model) : viewport.AtTop (viewport.GotoTop v) = true.
Proof.
  unfold viewport.GotoTop. destruct (viewport.AtTop v) eqn:Htop; [exact Htop|].
  unfold viewport.AtTop, viewport.SetYOffset, viewport.clamp, viewport.maxYOffset. cbn.
  destruct (Z.ltb_spec (Z.max 0 (Z.of_nat (List.length (viewport.lines v)) - viewport.Height v)) 0);
    apply Z.leb_le; lia.
Qed.

Lemma goto_top (m : model) :
  state m = viewMessages ->
  snd (Update (KeyMsg "t") m) = CmdNil
  /\ thread (fst (Update (KeyMsg "t") m)) = thread m
  /\ convList (fst (Update (KeyMsg "t") m)) = convList m
  /\ viewport.AtTop (viewport (fst (Update (KeyMsg "t") m))) = true.
Proof.
  intros Hstate. cbn [Update]. rewrite Hstate.
  change (String.eqb "t" "ctrl+c") with false. cbv iota.
  unfold updateMessageView.
  change (String.eqb "t" "esc" || String.eqb "t" "backspace") with false.
  change (String.eqb "t" "t") with true. cbv iota. cbn.
  repeat split. apply atTop_GotoTop.
Qed.

Lemma scroll_at_top (m : model) :
  state m = viewMessages ->
  viewport.AtTop (viewport m) = true -> allLoaded m = false -> loading m = false ->
  snd (Update (KeyMsg "k") m)
  = CmdBatch CmdNil (CmdFetchMessages (activeChatID m) (oldestCursor m) true)
  /\ thread (fst (Update (KeyMsg "k") m))
     = mkThread viewMessages (activeChatID m) (messages m) (oldestCursor m) false true
  /\ convList (fst (Update (KeyMsg "k") m)) = convList m.
Proof.
  intros Hstate Htop Hall Hload. cbn [Update]. rewrite Hstate.
  change (String.eqb "k" "ctrl+c") with false. cbv iota.
  unfold updateMessageView.
  change (String.eqb "k" "esc" || String.eqb "k" "backspace") with false.
  change (String.eqb "k" "t") with false. change (String.eqb "k" "b") with false.
  change (String.eqb "k" "e") with false. change (String.eqb "k" "a") with false.
  cbv iota.
  change (viewport.Update (KeyMsg "k") (viewport m)) with (viewport.LineUp 1 (viewport m)).
  unfold viewport.LineUp. rewrite Htop. cbn [orb].
  cbn [viewport set_viewport allLoaded loading]. rewrite Htop, Hall, Hload. cbn.
  unfold thread, fetchMessagesCmd. cbn. rewrite Hstate, Hall. repeat split.
Qed.

Lemma leave_thread (m : model) :
  state m = viewMessages ->
  snd (Update (KeyMsg "esc") m) = CmdNil
  /\ thread (fst (Update (KeyMsg "esc") m))
     = mkThread viewConversations (activeChatID m) [] (oldestCursor m) (allLoaded m) (loading m)
  /\ convList (fst (Update (KeyMsg "esc") m)) = convList m.
Proof.
  intros Hstate. cbn [Update]. rewrite Hstate.
  change (String.eqb "esc" "ctrl+c") with false. cbv iota.
  unfold updateMessageView.
  change (String.eqb "esc" "esc" || String.eqb "esc" "backspace") with true. cbv iota.
  cbn. repeat split.
Qed.

(** Once the exhausted flag is set, no event makes [Update] issue a
    backward page fetch: the only place that builds one is guarded by
    [!m.allLoaded]. *)
Lemma no_backward_fetch_when_exhausted (m : model) (msg : Msg) :
  allLoaded m = true ->
  existsb isBackwardFetch (flatten (snd (Update msg m))) = false.
Proof.
  intros Hall.
  destruct msg as [w h|key|ev|cs e|msgs chatID prepend e|rs term e|path e|atts e|e|tag];
    cbn [Update].
  - reflexivity.
  - destruct (String.eqb key "ctrl+c"); [reflexivity|].
    destruct (state m).
    + unfold updateConversationList, convListUpdate.
      repeat match goal with
             | |- context [if ?b then _ else _] => destruct b
             | |- context [match ?x with _ => _ end] => destruct x
             end; reflexivity.
    + unfold updateMessageView.
      cbn [allLoaded loading set_viewport]. rewrite Hall. cbn [negb].
      rewrite andb_false_r, andb_false_l.
      repeat match goal with
             | |- context [if ?b then _ else _] => destruct b
             end; reflexivity.
    + unfold updateSearchView, searchInputUpdate, searchResultsUpdate.
      repeat match goal with
             | |- context [if ?b then _ else _] => destruct b
             | |- context [match ?x with _ => _ end] => destruct x
             end; reflexivity.
    + unfold updateAttachmentView, attachmentListUpdate.
      repeat match goal with
             | |- context [if ?b then _ else _] => destruct b
             | |- context [match ?x with _ => _ end] => destruct x
             end; reflexivity.
  - unfold updateWidgets, convListUpdate, searchInputUpdate, searchResultsUpdate,
      attachmentListUpdate.
    repeat match goal with
           | |- context [if ?b then _ else _] => destruct b
           | |- context [match ?x with _ => _ end] => destruct x
           end; reflexivity.
  - destruct e; [reflexivity|]. unfold blist.SetItems.
    destruct (blist.isUnfiltered _); reflexivity.
  - destruct e; [reflexivity|].
    repeat match goal with
           | |- context [if ?b then _ else _] => destruct b
           end; reflexivity.
  - destruct e; [reflexivity|]. unfold blist.SetItems. cbn.
    destruct (blist.isUnfiltered _); reflexivity.
  - reflexivity.
  - destruct e; [reflexivity|]. unfold blist.SetItems. cbn.
    destruct (blist.isUnfiltered _); reflexivity.
  - destruct e; reflexivity.
  - unfold updateWidgets, convListUpdate, searchInputUpdate, searchResultsUpdate,
      attachmentListUpdate.
    repeat match goal with
           | |- context [if ?b then _ else _] => destruct b
           | |- context [match ?x with _ => _ end] => destruct x
           end; reflexivity.
Qed.

(** The exhausted flag changes at two events only: opening a thread
    clears it, and accepting a short page sets it.  Along any run it is
    therefore set exactly when a short page was accepted since the
    thread was last opened. *)
Lemma exhausted_flag_step (m : model) (msg : Msg) :
  allLoaded (fst (Update msg m)) =
  if opensThread m msg then false
  else if shortPageAccepted m msg then true
  else allLoaded m.
Proof.
  destruct msg as [w h|key|ev|cs e|msgs chatID prepend e|rs term e|path e|atts e|e|tag];
    cbn [Update opensThread shortPageAccepted].
  - cbn. destruct (state m); try reflexivity.
    match goal with |- context [if ?b then _ else _] => destruct b end; reflexivity.
  - destruct (String.eqb key "ctrl+c") eqn:Hq; cbn [negb andb]; [reflexivity|].
    destruct (state m).
    + unfold updateConversationList, convListUpdate.
      destruct (String.eqb key "enter"); cbn [andb].
      * destruct (blist.SelectedItem (convList m)); reflexivity.
      * repeat match goal with
               | |- context [if ?b then _ else _] => destruct b
               | |- context [match ?x with _ => _ end] => destruct x
               end; reflexivity.
    + unfold updateMessageView. rewrite andb_false_r.
      repeat match goal with
             | |- context [if ?b then _ else _] => destruct b
             end; reflexivity.
    + unfold updateSearchView, searchInputUpdate, searchResultsUpdate.
      unfold textinput.Focused.
      destruct (textinput.focus (searchInput m)); cbn [negb andb].
      * rewrite andb_false_r.
        repeat match goal with
               | |- context [if ?b then _ else _] => destruct b
               | |- context [match ?x with _ => _ end] => destruct x
               end; reflexivity.
      * destruct (String.eqb_spec key "esc") as [->|Hesc]; [reflexivity|].
        destruct (String.eqb_spec key "s") as [->|Hs]; [reflexivity|].
        destruct (String.eqb key "enter"); cbn [andb].
        -- destruct (blist.SelectedItem (searchResults m)); [|reflexivity].
           reflexivity.
        -- destruct (listUpdate searchItem (KeyMsg key) (searchResults m)); reflexivity.
    + unfold updateAttachmentView, attachmentListUpdate. rewrite andb_false_r.
      repeat match goal with
             | |- context [if ?b then _ else _] => destruct b
             | |- context [match ?x with _ => _ end] => destruct x
             end; reflexivity.
  - unfold updateWidgets, convListUpdate, searchInputUpdate, searchResultsUpdate,
      attachmentListUpdate.
    repeat match goal with
           | |- context [if ?b then _ else _] => destruct b
           | |- context [match ?x with _ => _ end] => destruct x
           end; reflexivity.
  - destruct e; [reflexivity|]. unfold blist.SetItems.
    destruct (blist.isUnfiltered _); reflexivity.
  - destruct e; [reflexivity|].
    destruct (chatID =? activeChatID m); cbn [negb andb]; [|reflexivity].
    destruct (Z.eqb_spec (len msgs) 0) as [H0|H0].
    + rewrite H0. reflexivity.
    + destruct prepend; destruct (len msgs <? messagesPageSize);
        cbn; repeat match goal with
                    | |- context [match ?x with _ => _ end] => destruct x
                    end; reflexivity.
  - destruct e; cbn; unfold blist.SetItems;
      try destruct (blist.isUnfiltered _); reflexivity.
  - destruct e; reflexivity.
  - destruct e; [reflexivity|]. unfold blist.SetItems. cbn.
    destruct (blist.isUnfiltered _); reflexivity.
  - destruct e; reflexivity.
  - unfold updateWidgets, convListUpdate, searchInputUpdate, searchResultsUpdate,
      attachmentListUpdate.
    repeat match goal with
           | |- context [if ?b then _ else _] => destruct b
           | |- context [match ?x with _ => _ end] => destruct x
           end; reflexivity.
Qed.

Lemma exhausted_flag_run (msgs : list Msg) :
  forall m : model,
    allLoaded (runMsgs msgs m) = shortSinceOpened msgs m (allLoaded m).
Proof.
  induction msgs as [|msg msgs IH]; intros m; [reflexivity|].
  cbn [runMsgs fold_left shortSinceOpened]. fold (runMsgs msgs (fst (Update msg m))).
  now rewrite IH, exhausted_flag_step.
Qed.

End CoordinatorSteps.

(** ** Stale page results that carry an error *)

Section ScriptFacts.
Context {ui : UI}.

Lemma existsb_isQuit (l : list Cmd) : existsb isQuit l = false -> ~ In CmdQuit l.
Proof.
  intros H Hin. assert (Ht : existsb isQuit l = true) by (apply existsb_exists; now exists CmdQuit).
  congruence.
Qed.

Lemma nth_error_split_at {A : Type} (l : list A) (i : nat) (x : A) :
  nth_error l i = Some x -> l = (firstn i l ++ x :: skipn (S i) l)%list.
Proof.
  revert i. induction l as [|y l IH]; intros [|i] H; try discriminate.
  - now injection H as ->.
  - cbn [nth_error] in H. cbn [firstn skipn app]. f_equal. now apply IH.
Qed.

Lemma deliver_step (db : Database) (p : Program) (i : nat) (c : Cmd) (msg : Msg) :
  existsb isQuit (inflight p) = false ->
  nth_error (inflight p) i = Some c ->
  completes db c msg ->
  step db p (deliver p i msg).
Proof.
  intros Hq Hn Hc. unfold deliver.
  apply (step_complete db p (firstn i (inflight p)) c (skipn (S i) (inflight p)) msg).
  - now apply existsb_isQuit.
  - now apply nth_error_split_at.
  - exact Hc.
Qed.

Lemma success_completes (db : Database) (c : Cmd) (msg : Msg) :
  success db c = Some msg -> completes db c msg.
Proof. destruct c; try discriminate; intros [= <-]; constructor. Qed.

Lemma failure_completes (db : Database) (c : Cmd) (e : string) (msg : Msg) :
  failure c e = Some msg -> completes db c msg.
Proof. destruct c; try discriminate; intros [= <-]; constructor. Qed.

Lemma delivers_completes (db : Database) (c : Cmd) (msg : Msg) :
  delivers c msg = true -> completes db c msg.
Proof.
  destruct c, msg; try discriminate; intros H; try constructor.
  apply String.eqb_eq in H. subst. constructor.
Qed.

Lemma play_step (db : Database) (p q : Program) (ev : Event) :
  play db p ev = Some q -> step db p q.
Proof.
  unfold play. destruct (existsb isQuit (inflight p)) eqn:Hq; [discriminate|].
  destruct ev as [msg|i|i e|i msg].
  - destruct (fromTerminal msg) eqn:Ht; [|discriminate]. intros [= <-].
    apply step_terminal; [now apply existsb_isQuit|exact Ht].
  - destruct (nth_error (inflight p) i) as [c|] eqn:Hn; [|discriminate].
    destruct (success db c) as [msg|] eqn:Hs; [|discriminate]. intros [= <-].
    eapply deliver_step; eauto using success_completes.
  - destruct (nth_error (inflight p) i) as [c|] eqn:Hn; [|discriminate].
    destruct (failure c e) as [msg|] eqn:Hs; [|discriminate]. intros [= <-].
    eapply deliver_step; eauto using failure_completes.
  - destruct (nth_error (inflight p) i) as [c|] eqn:Hn; [|discriminate].
    destruct (delivers c msg) eqn:Hd; [|discriminate]. intros [= <-].
    eapply deliver_step; eauto using delivers_completes.
Qed.

Lemma replay_reachable (db : Database) (cb : ContactBook) (script : list Event) :
  forall p q, reachable db cb p -> replay db script p = Some q -> reachable db cb q.
Proof.
  induction script as [|ev script IH]; intros p q Hp; cbn [replay].
  - now intros [= <-].
  - destruct (play db p ev) as [p'|] eqn:Hplay; [|discriminate].
    apply IH. eapply reach_step; [exact Hp|]. apply (play_step db p p' ev Hplay).
Qed.

End ScriptFacts.

(** C2 (the code at the failing input).  The case for page results
    tests the error before the conversation id.  A result for another
    chat than the active one is discarded when it carries no error:
    [Update] returns the model as it was and no command.  When it
    carries an error, the error is stored in [err] whatever the chat,
    and [View] then draws the error screen in place of the thread, whose
    window, cursor and flags stay as they were.  The run is possible: in
    [twoChatDB], open chat 2, leave before its page arrives, move down
    and open chat 1, whose page arrives and is shown; the fetch for chat
    2 then fails, and the screen of chat 1 becomes the error screen. *)
Theorem C2_stale_error_takes_the_screen :
  (forall (ui : UI) (m : model) (msgs : list Message) (chatID : Z) (prepend : bool)
          (e : string) (styledView : model -> string),
      chatID <> activeChatID m ->
      let m' := fst (@Update ui (messagesLoadedMsg msgs chatID prepend (Some e)) m) in
      err m' = Some e
      /\ View styledView m' = errorScreen e
      /\ thread m' = thread m
      /\ viewport m' = viewport m)
  /\ (forall (ui : UI) (m : model) (msgs : list Message) (chatID : Z) (prepend : bool),
        chatID <> activeChatID m ->
        @Update ui (messagesLoadedMsg msgs chatID prepend None) m = (m, CmdNil))
  /\ exists p q : Program,
       @reachable arrowsUI twoChatDB emptyBook p
       /\ @step arrowsUI twoChatDB p q
       /\ inflight p = [CmdFetchMessages 2 0 false; CmdWidget 0]
       /\ state (current p) = viewMessages
       /\ activeChatID (current p) = 1
       /\ map ROWID (messages (current p)) = [1]
       /\ err (current p) = None
       /\ thread (current q) = thread (current p)
       /\ err (current q) = Some "database is locked"
       /\ forall styledView : model -> string,
            View styledView (current p) = styledView (current p)
            /\ View styledView (current q) = errorScreen "database is locked".
Proof.
  split; [|split].
  - intros ui m msgs chatID prepend e styledView Hstale m'. subst m'.
    cbn [Update fst]. unfold View. cbn. repeat split.
  - intros ui m msgs chatID prepend Hstale. cbn [Update].
    destruct (Z.eqb_spec chatID (activeChatID m)); [contradiction|reflexivity].
  - assert (Hp : exists p, @replay arrowsUI twoChatDB staleFetchRun (initial twoChatDB emptyBook) = Some p
                           /\ inflight p = [CmdFetchMessages 2 0 false; CmdWidget 0]
                           /\ state (current p) = viewMessages
                           /\ activeChatID (current p) = 1
                           /\ map ROWID (messages (current p)) = [1]
                           /\ err (current p) = None).
    { eexists. split; [vm_compute; reflexivity|]. vm_compute. repeat split. }
    destruct Hp as (p & Hrun & Hin & Hs & Ha & Hw & He).
    assert (Hr : @reachable arrowsUI twoChatDB emptyBook p).
    { eapply replay_reachable; [|exact Hrun]. apply reach_init. }
    clear Hrun.
    exists p, (@deliver arrowsUI p 0 (messagesLoadedMsg [] 2 false (Some "database is locked"))).
    split; [exact Hr|]. split.
    { apply (@deliver_step arrowsUI twoChatDB p 0 (CmdFetchMessages 2 0 false)).
      - now rewrite Hin.
      - now rewrite Hin.
      - constructor. }
    split; [exact Hin|]. split; [exact Hs|]. split; [exact Ha|]. split; [exact Hw|].
    split; [exact He|].
    unfold deliver. cbn [current Update fst]. unfold View. cbn. rewrite He.
    repeat split.
Qed.

(** ** The exhausted flag and stale results of the same chat *)

Section ExhaustedEarly.

Context {ui : UI}.

Lemma thread_fields (m : model) s c w k e l :
  thread m = mkThread s c w k e l ->
  state m = s /\ activeChatID m = c /\ messages m = w
  /\ oldestCursor m = k /\ allLoaded m = e /\ loading m = l.
Proof. unfold thread. intros [= -> -> -> -> -> ->]. repeat split. Qed.

Lemma reach_terminal (db : Database) (cb : ContactBook) (m : model) (P : list Cmd)
  (msg : Msg) (cmd : Cmd) :
  reachable db cb (mkProgram m P) ->
  ~ In CmdQuit P ->
  fromTerminal msg = true ->
  snd (Update msg m) = cmd ->
  reachable db cb (mkProgram (fst (Update msg m)) (P ++ flatten cmd)).
Proof.
  intros Hr Hq Ht <-. eapply reach_step; [exact Hr|].
  exact (step_terminal db (mkProgram m P) msg Hq Ht).
Qed.

Lemma reach_complete (db : Database) (cb : ContactBook) (m : model)
  (before after : list Cmd) (c : Cmd) (msg : Msg) (cmd : Cmd) :
  reachable db cb (mkProgram m (before ++ c :: after)) ->
  ~ In CmdQuit (before ++ c :: after) ->
  completes db c msg ->
  snd (Update msg m) = cmd ->
  reachable db cb (mkProgram (fst (Update msg m)) (before ++ after ++ flatten cmd)).
Proof.
  intros Hr Hq Hc <-. eapply reach_step; [exact Hr|].
  exact (step_complete db (mkProgram m (before ++ c :: after)) before c after msg
           Hq eq_refl Hc).
Qed.

Ltac no_quit := cbn [In app]; intuition discriminate.

(** C3 (the code at the failing input).  In [longChatDB] (201 messages
    with chronological ids) this run is possible: open chat 1; the first
    page (messages 2..201) arrives; scroll to the top, which issues the
    backward fetch below cursor 2; leave the thread and open it again
    before that fetch completes, which issues a fresh first-page fetch;
    the old backward fetch completes first and is accepted, since it
    carries the id of the active chat: its page, message 1 alone, is
    shorter than 200 and sets the exhausted flag; then the first page
    arrives and replaces the window.  The program is now at rest in the
    thread with the exhausted flag set and the window holding messages
    2..201: message 1 is older, unloaded, and by
    [no_backward_fetch_when_exhausted] never fetched. *)
Theorem C3_exhausted_with_older_unloaded :
  primaryKey longChatDB /\ chronologicalIds longChatDB 1 /\ noSentinelId longChatDB 1
  /\ exists p : Program,
       reachable longChatDB emptyBook p
       /\ inflight p = []
       /\ thread (current p)
          = mkThread viewMessages 1 (FetchMessages longChatDB 1 0 messagesPageSize) 2 true false
       /\ map ROWID (messages (current p)) = map Z.of_nat (seq 2 200)
       /\ existsb (Z.eqb 1) (map ROWID (FetchAllMessages longChatDB 1)) = true
       /\ existsb (Z.eqb 1) (map ROWID (messages (current p))) = false
       /\ forall msg : Msg,
            existsb isBackwardFetch (flatten (snd (Update msg (current p)))) = false.
Proof.
  split; [apply primaryKeyb_sound; vm_compute; reflexivity|].
  split; [apply chronologicalIdsb_sound; vm_compute; reflexivity|].
  split; [apply noSentinelIdb_sound; vm_compute; reflexivity|].
  assert (Hall1 : existsb (Z.eqb 1) (map ROWID (FetchAllMessages longChatDB 1)) = true)
    by (vm_compute; reflexivity).
  revert Hall1. generalize (FetchAllMessages longChatDB 1) as all. intros all Hall1.
  assert (Hlatest_ok : completes longChatDB (CmdFetchMessages 1 0 false)
            (messagesLoadedMsg (FetchMessages longChatDB 1 0 messagesPageSize) 1 false None))
    by apply messages_ok.
  assert (Holdest_ok : completes longChatDB (CmdFetchMessages 1 2 true)
            (messagesLoadedMsg (FetchMessages longChatDB 1 2 messagesPageSize) 1 true None))
    by apply messages_ok.
  assert (Hlatest_len : (len (FetchMessages longChatDB 1 0 messagesPageSize) =? 0) = false)
    by (vm_compute; reflexivity).
  assert (Hlatest_full :
            (len (FetchMessages longChatDB 1 0 messagesPageSize) <? messagesPageSize) = false)
    by (vm_compute; reflexivity).
  assert (Hlatest_hd : forall d, headROWID (FetchMessages longChatDB 1 0 messagesPageSize) d = 2)
    by (intros d; vm_compute; reflexivity).
  assert (Hlatest_ids : map ROWID (FetchMessages longChatDB 1 0 messagesPageSize)
                        = map Z.of_nat (seq 2 200))
    by (vm_compute; reflexivity).
  assert (Hlatest_no1 :
            existsb (Z.eqb 1) (map ROWID (FetchMessages longChatDB 1 0 messagesPageSize)) = false)
    by (vm_compute; reflexivity).
  assert (Holdest_len : (len (FetchMessages longChatDB 1 2 messagesPageSize) =? 0) = false)
    by (vm_compute; reflexivity).
  assert (Holdest_short :
            (len (FetchMessages longChatDB 1 2 messagesPageSize) <? messagesPageSize) = true)
    by (vm_compute; reflexivity).
  assert (Holdest_hd :
            forall d, headROWID (FetchMessages longChatDB 1 2 messagesPageSize ++ []) d = 1)
    by (intros d; vm_compute; reflexivity).
  revert Hlatest_ok Holdest_ok Hlatest_len Hlatest_full Hlatest_hd Hlatest_ids Hlatest_no1
         Holdest_len Holdest_short Holdest_hd.
  generalize (FetchMessages longChatDB 1 0 messagesPageSize) as latest.
  generalize (FetchMessages longChatDB 1 2 messagesPageSize) as oldest.
  intros oldest latest Hlatest_ok Holdest_ok Hlatest_len Hlatest_full Hlatest_hd Hlatest_ids
         Hlatest_no1 Holdest_len Holdest_short Holdest_hd.
  (* conversations arrive *)
  assert (Hstart : exists m1 it,
             reachable longChatDB emptyBook (mkProgram m1 [])
             /\ state m1 = viewConversations
             /\ blist.SelectedItem (convList m1) = Some it /\ ChatID (conv it) = 1).
  { eexists. eexists. split.
    - apply (reach_complete longChatDB emptyBook (NewModel longChatDB emptyBook) [] []
               CmdFetchConversations
               (conversationsLoadedMsg (FetchConversations longChatDB) None) CmdNil).
      + apply reach_init.
      + no_quit.
      + apply conversations_ok.
      + vm_compute. reflexivity.
    - vm_compute. repeat split. }
  destruct Hstart as (m1 & it & Hr1 & Hs1 & Hsel & Hit).
  generalize dependent longChatDB. intros db.
  generalize dependent emptyBook. intros cb Hlatest_ok Holdest_ok Hr1.
  (* open chat 1 *)
  destruct (enter_thread m1 it Hs1 Hsel) as (Hc2 & Hth2 & Hcl2).
  rewrite Hit in Hc2, Hth2.
  pose proof (reach_terminal db cb m1 [] (KeyMsg "enter") _ Hr1 ltac:(no_quit) eq_refl Hc2) as Hr2.
  rewrite <- Hcl2 in Hsel. cbn [app flatten] in Hr2.
  remember (fst (Update (KeyMsg "enter") m1)) as m2 eqn:Hm2. clear Hm2 Hc2 Hcl2 Hr1 Hs1 m1.
  (* the first page arrives *)
  destruct (thread_fields _ _ _ _ _ _ _ Hth2) as (Hs2 & Ha2 & Hw2 & Hk2 & He2 & Hl2).
  pose proof (accept_page m2 latest false Hlatest_len) as H3.
  rewrite Ha2 in H3. destruct H3 as (Hc3 & Hth3 & Hcl3).
  unfold newWindow in Hth3. rewrite Hlatest_hd, Hs2, He2, Hlatest_full in Hth3.
  cbn [orb] in Hth3.
  pose proof (reach_complete db cb m2 [] [] _ _ _ Hr2 ltac:(no_quit) Hlatest_ok Hc3) as Hr3.
  rewrite <- Hcl3 in Hsel. cbn [app flatten] in Hr3.
  remember (fst (Update (messagesLoadedMsg latest 1 false None) m2)) as m3 eqn:Hm3.
  clear Hm3 Hc3 Hcl3 Hr2 Hth2 Hs2 Ha2 Hw2 Hk2 He2 Hl2 m2.
  (* scroll to the top *)
  destruct (thread_fields _ _ _ _ _ _ _ Hth3) as (Hs3 & Ha3 & Hw3 & Hk3 & He3 & Hl3).
  destruct (goto_top m3 Hs3) as (Hc4 & Hth4 & Hcl4 & Htop4).
  rewrite Hth3 in Hth4.
  pose proof (reach_terminal db cb m3 [] (KeyMsg "t") _ Hr3 ltac:(no_quit) eq_refl Hc4) as Hr4.
  rewrite <- Hcl4 in Hsel. cbn [app flatten] in Hr4.
  remember (fst (Update (KeyMsg "t") m3)) as m4 eqn:Hm4.
  clear Hm4 Hc4 Hcl4 Hr3 Hth3 Hs3 Ha3 Hw3 Hk3 He3 Hl3 m3.
  (* one more line up: the backward fetch is issued *)
  destruct (thread_fields _ _ _ _ _ _ _ Hth4) as (Hs4 & Ha4 & Hw4 & Hk4 & He4 & Hl4).
  destruct (scroll_at_top m4 Hs4 Htop4 He4 Hl4) as (Hc5 & Hth5 & Hcl5).
  rewrite Ha4, Hk4 in Hc5. rewrite Ha4, Hw4, Hk4 in Hth5.
  pose proof (reach_terminal db cb m4 [] (KeyMsg "k") _ Hr4 ltac:(no_quit) eq_refl Hc5) as Hr5.
  rewrite <- Hcl5 in Hsel. cbn [app flatten] in Hr5.
  remember (fst (Update (KeyMsg "k") m4)) as m5 eqn:Hm5.
  clear Hm5 Hc5 Hcl5 Hr4 Hth4 Htop4 Hs4 Ha4 Hw4 Hk4 He4 Hl4 m4.
  (* leave the thread *)
  destruct (thread_fields _ _ _ _ _ _ _ Hth5) as (Hs5 & Ha5 & Hw5 & Hk5 & He5 & Hl5).
  destruct (leave_thread m5 Hs5) as (Hc6 & Hth6 & Hcl6).
  pose proof (reach_terminal db cb m5 _ (KeyMsg "esc") _ Hr5 ltac:(no_quit) eq_refl Hc6) as Hr6.
  rewrite <- Hcl6 in Hsel. cbn [app flatten] in Hr6.
  pose proof (f_equal th_state Hth6) as Hs6. cbn [th_state thread] in Hs6.
  remember (fst (Update (KeyMsg "esc") m5)) as m6 eqn:Hm6.
  clear Hm6 Hc6 Hcl6 Hr5 Hth5 Hth6 Hs5 Ha5 Hw5 Hk5 He5 Hl5 m5.
  (* and open it again *)
  destruct (enter_thread m6 it Hs6 Hsel) as (Hc7 & Hth7 & _).
  rewrite Hit in Hc7, Hth7.
  pose proof (reach_terminal db cb m6 _ (KeyMsg "enter") _ Hr6 ltac:(no_quit) eq_refl Hc7) as Hr7.
  cbn [app flatten] in Hr7.
  remember (fst (Update (KeyMsg "enter") m6)) as m7 eqn:Hm7.
  clear Hm7 Hc7 Hr6 Hs6 Hsel m6.
  (* the stale backward fetch completes first *)
  destruct (thread_fields _ _ _ _ _ _ _ Hth7) as (Hs7 & Ha7 & Hw7 & Hk7 & He7 & Hl7).
  pose proof (accept_page m7 oldest true Holdest_len) as H8.
  rewrite Ha7 in H8. destruct H8 as (Hc8 & Hth8 & _).
  unfold newWindow in Hth8. rewrite Hw7, Holdest_hd, Hs7, He7, Holdest_short in Hth8.
  cbn [orb] in Hth8.
  pose proof (reach_complete db cb m7 [] [CmdFetchMessages 1 0 false] _ _ _ Hr7
                ltac:(no_quit) Holdest_ok Hc8) as Hr8.
  cbn [app flatten] in Hr8.
  remember (fst (Update (messagesLoadedMsg oldest 1 true None) m7)) as m8 eqn:Hm8.
  clear Hm8 Hc8 Hr7 Hth7 Hs7 Ha7 Hw7 Hk7 He7 Hl7 m7.
  (* then the first page of the new visit *)
  destruct (thread_fields _ _ _ _ _ _ _ Hth8) as (Hs8 & Ha8 & Hw8 & Hk8 & He8 & Hl8).
  pose proof (accept_page m8 latest false Hlatest_len) as H9.
  rewrite Ha8 in H9. destruct H9 as (Hc9 & Hth9 & _).
  unfold newWindow in Hth9. rewrite Hlatest_hd, Hs8, He8 in Hth9. cbn [orb] in Hth9.
  pose proof (reach_complete db cb m8 [] [] _ _ _ Hr8 ltac:(no_quit) Hlatest_ok Hc9) as Hr9.
  cbn [app flatten] in Hr9.
  remember (fst (Update (messagesLoadedMsg latest 1 false None) m8)) as m9 eqn:Hm9.
  clear Hm9 Hc9 Hr8 Hth8 Hs8 Ha8 Hw8 Hk8 He8 Hl8 m8.
  destruct (thread_fields _ _ _ _ _ _ _ Hth9) as (_ & _ & Hw9 & _ & He9 & _).
  exists (mkProgram m9 []). cbn [current inflight].
  split; [exact Hr9|]. split; [reflexivity|]. split; [exact Hth9|].
  rewrite Hw9.
  split; [exact Hlatest_ids|]. split; [exact Hall1|]. split; [exact Hlatest_no1|].
  intros msg. apply no_backward_fetch_when_exhausted. exact He9.
Qed.

End ExhaustedEarly.

(* ================================================================== *)
(** * Part III.  Further properties of the code                         *)
(* ================================================================== *)

(** ** Lower-casing and trimming of ASCII text *)

Lemma lowerByte_idem (c : ascii) : strings.lowerByte (strings.lowerByte c) = strings.lowerByte c.
Proof. destruct c as [[] [] [] [] [] [] [] []]; reflexivity. Qed.

Lemma lowerByte_space (c : ascii) : strings.asciiSpace (strings.lowerByte c) = strings.asciiSpace c.
Proof. destruct c as [[] [] [] [] [] [] [] []]; reflexivity. Qed.

Lemma lowerByte_at (c : ascii) : Ascii.eqb (strings.lowerByte c) "@" = Ascii.eqb c "@".
Proof. destruct c as [[] [] [] [] [] [] [] []]; reflexivity. Qed.

Lemma lowerByte_range (c : ascii) :
  (utf8.byte (strings.lowerByte c) <? utf8.RuneSelf) = (utf8.byte c <? utf8.RuneSelf).
Proof. destruct c as [[] [] [] [] [] [] [] []]; reflexivity. Qed.

Lemma lowerByte_isUpper (c : ascii) : strings.isUpper (strings.lowerByte c) = false.
Proof. destruct c as [[] [] [] [] [] [] [] []]; reflexivity. Qed.

Lemma lowerByte_not_upper (c : ascii) : strings.isUpper c = false -> strings.lowerByte c = c.
Proof. unfold strings.lowerByte. now intros ->. Qed.

Lemma space_range (c : ascii) :
  strings.asciiSpace c = true -> (utf8.byte c <? utf8.RuneSelf) = true.
Proof. destruct c as [[] [] [] [] [] [] [] []]; intros H; try reflexivity; discriminate H. Qed.

Lemma lowerASCII_idem (s : string) :
  strings.lowerASCII (strings.lowerASCII s) = strings.lowerASCII s.
Proof.
  induction s as [|c s IH]; [reflexivity|]. cbn [strings.lowerASCII].
  now rewrite lowerByte_idem, IH.
Qed.

Lemma lowerASCII_trimLeft (s : string) :
  strings.trimLeft (strings.lowerASCII s) = strings.lowerASCII (strings.trimLeft s).
Proof.
  induction s as [|c s IH]; [reflexivity|].
  cbn [strings.lowerASCII strings.trimLeft]. rewrite lowerByte_space.
  destruct (strings.asciiSpace c); [exact IH|reflexivity].
Qed.

Lemma lowerASCII_trimRight (s : string) :
  strings.trimRight (strings.lowerASCII s) = strings.lowerASCII (strings.trimRight s).
Proof.
  induction s as [|c s IH]; [reflexivity|].
  cbn [strings.lowerASCII strings.trimRight]. rewrite IH, lowerByte_space.
  destruct (strings.trimRight s) as [|d t]; cbn [strings.lowerASCII].
  - destruct (strings.asciiSpace c); reflexivity.
  - reflexivity.
Qed.

Lemma lowerASCII_trimASCII (s : string) :
  trimASCII (strings.lowerASCII s) = strings.lowerASCII (trimASCII s).
Proof. unfold trimASCII. now rewrite lowerASCII_trimLeft, lowerASCII_trimRight. Qed.

Lemma lowerASCII_Contains_at (s : string) :
  strings.Contains (strings.lowerASCII s) "@" = strings.Contains s "@".
Proof.
  induction s as [|c s IH]; [reflexivity|].
  cbn [strings.lowerASCII strings.Contains strings.HasPrefix]. now rewrite lowerByte_at, IH.
Qed.

Lemma lowerASCII_no_upper (s : string) :
  strings.hasUpper s = false -> strings.lowerASCII s = s.
Proof.
  induction s as [|c s IH]; [reflexivity|]. cbn [strings.hasUpper strings.lowerASCII].
  intros H. apply orb_false_iff in H as [Hc Hs]. now rewrite (lowerByte_not_upper c Hc), IH.
Qed.

Lemma isASCII_lowerASCII (s : string) :
  strings.isASCII (strings.lowerASCII s) = strings.isASCII s.
Proof.
  induction s as [|c s IH]; [reflexivity|]. cbn [strings.lowerASCII strings.isASCII].
  now rewrite lowerByte_range, IH.
Qed.

Lemma isASCII_app (a b : string) :
  strings.isASCII (a ++ b) = strings.isASCII a && strings.isASCII b.
Proof.
  induction a as [|c a IH]; [reflexivity|]. cbn [append strings.isASCII].
  now rewrite IH, andb_assoc.
Qed.

(** On ASCII text [ToLower] is the byte loop. *)
Lemma ToLower_ascii (s : string) :
  strings.isASCII s = true -> strings.ToLower s = strings.lowerASCII s.
Proof.
  intros H. unfold strings.ToLower. rewrite H.
  destruct (strings.hasUpper s) eqn:Hu; [reflexivity|]. symmetry. now apply lowerASCII_no_upper.
Qed.

Lemma trimLeft_trimmed (s : string) : trimmedLeft (strings.trimLeft s) = true.
Proof.
  induction s as [|c s IH]; [reflexivity|]. cbn [strings.trimLeft].
  destruct (strings.asciiSpace c) eqn:Hc; [exact IH|]. cbn. now rewrite Hc.
Qed.

Lemma trimLeft_of_trimmed (s : string) : trimmedLeft s = true -> strings.trimLeft s = s.
Proof.
  destruct s as [|c s]; [reflexivity|]. cbn. intros H. apply negb_true_iff in H. now rewrite H.
Qed.

Lemma trimRight_cons (c : ascii) (s : string) :
  strings.asciiSpace c = false ->
  strings.trimRight (String c s) = String c (strings.trimRight s).
Proof.
  intros Hc. cbn [strings.trimRight]. destruct (strings.trimRight s); [|reflexivity].
  now rewrite Hc.
Qed.

Lemma trimRight_trimmed (s : string) :
  trimmedLeft s = true -> trimmedLeft (strings.trimRight s) = true.
Proof.
  destruct s as [|c s]; [reflexivity|]. cbn [trimmedLeft]. intros H.
  apply negb_true_iff in H. rewrite trimRight_cons by assumption. cbn. now rewrite H.
Qed.

Lemma trimRight_idem (s : string) :
  strings.trimRight (strings.trimRight s) = strings.trimRight s.
Proof.
  induction s as [|c s IH]; [reflexivity|]. cbn [strings.trimRight].
  destruct (strings.trimRight s) as [|d t] eqn:Ht.
  - destruct (strings.asciiSpace c) eqn:Hc; [reflexivity|]. cbn. now rewrite Hc.
  - change (strings.trimRight (String c (String d t)))
      with (match strings.trimRight (String d t) with
            | EmptyString => if strings.asciiSpace c then EmptyString else str1 c
            | t' => String c t'
            end).
    now rewrite IH.
Qed.

Lemma trimASCII_idem (s : string) : trimASCII (trimASCII s) = trimASCII s.
Proof.
  unfold trimASCII.
  rewrite (trimLeft_of_trimmed (strings.trimRight (strings.trimLeft s)))
    by apply trimRight_trimmed, trimLeft_trimmed.
  apply trimRight_idem.
Qed.

Lemma isASCII_trimLeft (s : string) :
  strings.isASCII s = true -> strings.isASCII (strings.trimLeft s) = true.
Proof.
  induction s as [|c s IH]; [reflexivity|]. cbn [strings.trimLeft]. intros H.
  destruct (strings.asciiSpace c); [|exact H].
  cbn [strings.isASCII] in H. apply andb_true_iff in H as [_ H]. now apply IH.
Qed.

Lemma isASCII_trimRight (s : string) :
  strings.isASCII s = true -> strings.isASCII (strings.trimRight s) = true.
Proof.
  induction s as [|c s IH]; [reflexivity|]. cbn [strings.trimRight strings.isASCII]. intros H.
  apply andb_true_iff in H as [Hc H]. specialize (IH H).
  destruct (strings.trimRight s) as [|d t].
  - destruct (strings.asciiSpace c); [reflexivity|]. cbn. now rewrite Hc.
  - cbn [strings.isASCII]. now rewrite Hc.
Qed.

Lemma isASCII_trimASCII (s : string) :
  strings.isASCII s = true -> strings.isASCII (trimASCII s) = true.
Proof. intros H. now apply isASCII_trimRight, isASCII_trimLeft. Qed.

Lemma isASCII_starts (s : string) : strings.isASCII s = true -> strings.startsNonASCII s = false.
Proof.
  destruct s as [|c s]; [reflexivity|]. cbn [strings.isASCII strings.startsNonASCII].
  intros H. apply andb_true_iff in H as [Hc _]. apply Z.ltb_lt in Hc. apply Z.leb_gt. exact Hc.
Qed.

Lemma isASCII_ends (s : string) : strings.isASCII s = true -> strings.endsNonASCII s = false.
Proof.
  induction s as [|c s IH]; [reflexivity|]. cbn [strings.isASCII]. intros H.
  apply andb_true_iff in H as [Hc H]. specialize (IH H).
  destruct s as [|d t]; [|exact IH].
  cbn. apply Z.ltb_lt in Hc. apply Z.leb_gt. exact Hc.
Qed.

(** On ASCII text [TrimSpace] is its two byte loops. *)
Lemma TrimSpace_ascii (s : string) :
  strings.isASCII s = true -> strings.TrimSpace s = trimASCII s.
Proof.
  intros H. unfold strings.TrimSpace, trimASCII.
  rewrite (isASCII_starts _ (isASCII_trimLeft s H)).
  now rewrite (isASCII_ends _ (isASCII_trimRight _ (isASCII_trimLeft s H))).
Qed.

Lemma isASCII_ToLower (s : string) :
  strings.isASCII s = true -> strings.isASCII (strings.ToLower s) = true.
Proof. intros H. now rewrite (ToLower_ascii s H), isASCII_lowerASCII. Qed.

Lemma isASCII_TrimSpace (s : string) :
  strings.isASCII s = true -> strings.isASCII (strings.TrimSpace s) = true.
Proof. intros H. rewrite (TrimSpace_ascii s H). now apply isASCII_trimASCII. Qed.

Lemma space_not_at (c : ascii) : strings.asciiSpace c = true -> Ascii.eqb c "@" = false.
Proof. destruct c as [[] [] [] [] [] [] [] []]; intros H; try reflexivity; discriminate H. Qed.

Lemma Contains_at_cons (c : ascii) (s : string) :
  strings.Contains (String c s) "@" = Ascii.eqb c "@" || strings.Contains s "@".
Proof. cbn [strings.Contains strings.HasPrefix]. now rewrite andb_true_r. Qed.

Lemma trimLeft_Contains_at (s : string) :
  strings.Contains (strings.trimLeft s) "@" = strings.Contains s "@".
Proof.
  induction s as [|c s IH]; [reflexivity|]. cbn [strings.trimLeft].
  destruct (strings.asciiSpace c) eqn:Hc; [|reflexivity].
  now rewrite Contains_at_cons, (space_not_at _ Hc).
Qed.

Lemma trimRight_Contains_at (s : string) :
  strings.Contains (strings.trimRight s) "@" = strings.Contains s "@".
Proof.
  induction s as [|c s IH]; [reflexivity|]. cbn [strings.trimRight].
  rewrite Contains_at_cons, <- IH.
  destruct (strings.trimRight s) as [|d t].
  - destruct (strings.asciiSpace c) eqn:Hc.
    + now rewrite (space_not_at _ Hc).
    + unfold str1. now rewrite Contains_at_cons.
  - now rewrite !Contains_at_cons.
Qed.

Lemma trimASCII_Contains_at (s : string) :
  strings.Contains (trimASCII s) "@" = strings.Contains s "@".
Proof. unfold trimASCII. now rewrite trimRight_Contains_at, trimLeft_Contains_at. Qed.

Lemma length_append (a b : string) :
  String.length (a ++ b) = (String.length a + String.length b)%nat.
Proof. induction a as [|c a IH]; simpl; [reflexivity|now rewrite IH]. Qed.

(** ** Decimal text: [ParseInt] after [Itoa] *)

Lemma digitsValue_mono (d : Decimal.uint) :
  forall n, 0 <= n -> n <= digitsValue d n.
Proof.
  induction d; intros n Hn; cbn [digitsValue]; try lia;
    match goal with |- _ <= digitsValue _ ?m => specialize (IHd m); lia end.
Qed.

Lemma parseUintGo_digits (d : Decimal.uint) :
  forall n, 0 <= n -> digitsValue d n <= strconv.maxUint64 ->
    strconv.parseUintGo (NilEmpty.string_of_uint d) n = (digitsValue d n, None).
Proof.
  unfold strconv.maxUint64.
  induction d; intros n Hn Hmax; cbn [NilEmpty.string_of_uint strconv.parseUintGo digitsValue] in *;
    [reflexivity|..];
    match type of Hmax with digitsValue _ ?m <= _ =>
      pose proof (digitsValue_mono d m ltac:(lia)) as Hm
    end;
    change (strconv.isDigit _) with true; cbv iota;
    unfold strconv.maxUint64, strconv.digitVal;
    (destruct (Z.geb_spec n ((2 ^ 64 - 1) / 10 + 1)) as [Hge|Hlt];
     [change ((2 ^ 64 - 1) / 10 + 1) with 1844674407370955162 in Hge; lia|]);
    match goal with |- context [?a >? ?b] => destruct (Z.gtb_spec a b) as [Hgt|Hle] end;
    try (simpl in Hgt; lia);
    simpl (Z.of_nat _ - 48);
    match goal with |- strconv.parseUintGo _ ?a = (digitsValue _ ?b, _) =>
      replace a with b by lia end;
    apply IHd; lia.
Qed.

Lemma digitsValue_pos (d : Decimal.uint) :
  forall acc : positive, digitsValue d (Z.pos acc) = Z.pos (Pos.of_uint_acc d acc).
Proof.
  induction d; intros acc; cbn [digitsValue Pos.of_uint_acc]; try reflexivity;
    match goal with |- digitsValue _ ?m = Z.pos (Pos.of_uint_acc _ ?a) =>
      change m with (Z.pos a) || replace m with (Z.pos a) by lia end; apply IHd.
Qed.

Lemma digitsValue_of_uint (d : Decimal.uint) :
  digitsValue d 0 = Z.of_N (Pos.of_uint d).
Proof.
  induction d; cbn [digitsValue Pos.of_uint]; try reflexivity; try assumption;
    change (10 * 0 + 1) with 1; change (10 * 0 + 2) with 2; change (10 * 0 + 3) with 3;
    change (10 * 0 + 4) with 4; change (10 * 0 + 5) with 5; change (10 * 0 + 6) with 6;
    change (10 * 0 + 7) with 7; change (10 * 0 + 8) with 8; change (10 * 0 + 9) with 9;
    rewrite digitsValue_pos; reflexivity.
Qed.

Lemma string_of_uint_head (d : Decimal.uint) :
  d <> Decimal.Nil ->
  exists c s, NilZero.string_of_uint d = String c s
              /\ NilEmpty.string_of_uint d = String c s
              /\ Ascii.eqb c "+" = false /\ Ascii.eqb c "-" = false.
Proof.
  destruct d; intros Hd; [contradiction|..];
    eexists; eexists; (split; [reflexivity|split; [reflexivity|split; reflexivity]]).
Qed.

(** [ParseInt] reads back what [Itoa] prints, over the 64-bit range. *)
Lemma ParseInt_Itoa (z : Z) :
  - 2 ^ 63 <= z < 2 ^ 63 -> strconv.ParseInt (strconv.Itoa z) = (z, None).
Proof.
  intros Hz. unfold strconv.Itoa.
  destruct z as [|p|p]; [reflexivity|..]; cbn [Z.to_int NilZero.string_of_int].
  - destruct (string_of_uint_head _ (DecimalPos.Unsigned.to_uint_nonnil p)) as (c & s & H0 & H1 & Hplus & Hminus).
    assert (Hv : digitsValue (Pos.to_uint p) 0 = Z.pos p).
    { now rewrite digitsValue_of_uint, DecimalPos.Unsigned.of_to. }
    pose proof (parseUintGo_digits (Pos.to_uint p) 0 ltac:(lia)) as Hp.
    rewrite Hv, H1 in Hp. rewrite H0.
    unfold strconv.ParseInt. rewrite Hplus, Hminus. cbn [orb].
    unfold strconv.ParseUint. rewrite Hp by (unfold strconv.maxUint64; lia).
    cbn [negb andb].
    destruct (Z.geb_spec (Z.pos p) (2 ^ 63)); [lia|reflexivity].
  - destruct (string_of_uint_head _ (DecimalPos.Unsigned.to_uint_nonnil p)) as (c & s & H0 & H1 & Hplus & Hminus).
    assert (Hv : digitsValue (Pos.to_uint p) 0 = Z.pos p).
    { now rewrite digitsValue_of_uint, DecimalPos.Unsigned.of_to. }
    pose proof (parseUintGo_digits (Pos.to_uint p) 0 ltac:(lia)) as Hp.
    rewrite Hv, H1 in Hp. rewrite H0.
    unfold strconv.ParseInt. change (Ascii.eqb "-" "-") with true.
    change (Ascii.eqb "-" "+") with false. cbn [orb].
    unfold strconv.ParseUint. rewrite Hp by (unfold strconv.maxUint64; lia).
    cbn [negb andb].
    destruct (Z.gtb_spec (Z.pos p) (2 ^ 63)); [lia|reflexivity].
Qed.

(** ** The packed attachment column *)

Lemma ContainsAny_app (a b chars : string) :
  strings.ContainsAny (a ++ b) chars
  = strings.ContainsAny a chars || strings.ContainsAny b chars.
Proof.
  induction a as [|c a IH]; simpl; [reflexivity|]. now rewrite IH, orb_assoc.
Qed.

Lemma genSplit_piece (x : ascii) (sep' : string) (limit : option nat) (p : string) :
  limit <> Some O ->
  strings.ContainsAny p (str1 x) = false ->
  forall cur rest : string,
    strings.genSplit (String x sep') limit O cur (p ++ rest)
    = strings.genSplit (String x sep') limit O (cur ++ p) rest.
Proof.
  intros Hl. induction p as [|c p IH]; intros Hp cur rest.
  - now rewrite append_empty_r.
  - simpl in Hp. rewrite orb_false_r in Hp.
    apply orb_false_iff in Hp as [Hc Hp].
    cbn [append strings.genSplit strings.HasPrefix]. rewrite Hc. cbn [andb].
    replace (cur ++ String c p) with ((cur ++ str1 c) ++ p)
      by (rewrite append_assoc3; reflexivity).
    destruct limit as [[|l]|]; [contradiction| |]; apply IH; assumption.
Qed.

Lemma genSplit_last (sep cur s : string) :
  strings.genSplit sep (Some O) O cur s = [cur ++ s].
Proof.
  revert cur. induction s as [|c s IH]; intros cur; simpl.
  - now rewrite append_empty_r.
  - rewrite IH, append_assoc3. reflexivity.
Qed.

Lemma separatorFree_chars (s : string) :
  separatorFree s = true ->
  strings.ContainsAny s "|" = false /\ strings.ContainsAny s ";" = false.
Proof.
  unfold separatorFree. intros H. apply negb_true_iff in H.
  induction s as [|c s IH]; [split; reflexivity|].
  simpl in *. apply orb_false_iff in H as [Hc Hs].
  apply orb_false_iff in Hc as [H1 H2]. rewrite orb_false_r in H2.
  destruct (IH Hs) as [I1 I2]. rewrite H1, H2, I1, I2. split; reflexivity.
Qed.

Lemma string_of_uint_separatorFree (d : Decimal.uint) :
  separatorFree (NilEmpty.string_of_uint d) = true.
Proof. induction d; [reflexivity|..]; exact IHd. Qed.

Lemma Itoa_separatorFree (z : Z) : separatorFree (strconv.Itoa z) = true.
Proof.
  unfold strconv.Itoa. destruct z as [|p|p]; [reflexivity|..];
    cbn [Z.to_int NilZero.string_of_int];
    destruct (string_of_uint_head _ (DecimalPos.Unsigned.to_uint_nonnil p)) as (c & s & H0 & H1 & _);
    rewrite H0, <- H1; [|change (separatorFree (String "-" ?s)) with (separatorFree s)];
    apply string_of_uint_separatorFree.
Qed.

Lemma separatorFree_app (a b : string) :
  separatorFree (a ++ b) = separatorFree a && separatorFree b.
Proof. unfold separatorFree. rewrite ContainsAny_app. apply negb_orb. Qed.

(** An entry packed from clean columns splits into its three fields. *)
Lemma SplitN_pack (mime name digits : string) :
  separatorFree mime = true -> separatorFree name = true ->
  strings.SplitN (mime ++ "||" ++ name ++ "||" ++ digits) "||" 3 = [mime; name; digits].
Proof.
  intros Hm Hn.
  apply separatorFree_chars in Hm as [Hm _]. apply separatorFree_chars in Hn as [Hn _].
  change (strings.SplitN ?s "||" 3) with (strings.genSplit "||" (Some 2%nat) O "" s).
  rewrite (genSplit_piece "|" "|") by (assumption || discriminate).
  cbn [append strings.genSplit strings.HasPrefix Ascii.eqb Bool.eqb andb String.length Nat.sub].
  f_equal.
  rewrite (genSplit_piece "|" "|") by (assumption || discriminate).
  cbn [append strings.genSplit strings.HasPrefix Ascii.eqb Bool.eqb andb String.length Nat.sub].
  f_equal. apply genSplit_last.
Qed.

(** Pieces free of [';'] joined with [";;"] split back into the
    pieces. *)
Lemma Split_Join_pieces (ps : list string) :
  ps <> [] ->
  Forall (fun p => strings.ContainsAny p ";" = false) ps ->
  strings.Split (strings.Join ps ";;") ";;" = ps.
Proof.
  unfold strings.Split.
  induction ps as [|p ps IH]; intros Hne Hall; [contradiction|].
  inversion Hall as [|? ? Hp Hps]; subst.
  destruct ps as [|q ps].
  - cbn [strings.Join].
    rewrite <- (append_empty_r p) at 1.
    rewrite (genSplit_piece ";" ";") by (assumption || discriminate). reflexivity.
  - rewrite Join_cons by discriminate.
    rewrite (genSplit_piece ";" ";") by (assumption || discriminate).
    cbn [append strings.genSplit strings.HasPrefix Ascii.eqb Bool.eqb andb String.length Nat.sub].
    f_equal. apply IH; [discriminate|assumption].
Qed.

Lemma decodeEntry_pack (a : option attachment_row) :
  packable a = true -> decodeEntry (packAttachment a) = attachmentInfoOf a.
Proof.
  destruct a as [a|]; [|reflexivity].
  unfold packable, packAttachment, attachmentInfoOf, decodeEntry, entryFields.
  intros H. apply andb_true_iff in H as [H Hhi]. apply andb_true_iff in H as [H Hlo].
  apply andb_true_iff in H as [Hm Hn].
  rewrite SplitN_pack by assumption. cbn [nth].
  rewrite ParseInt_Itoa by lia. reflexivity.
Qed.

Lemma pack_separatorFree_semicolon (a : option attachment_row) :
  packable a = true -> strings.ContainsAny (packAttachment a) ";" = false.
Proof.
  destruct a as [a|]; [|reflexivity].
  unfold packable, packAttachment.
  intros H. apply andb_true_iff in H as [H Hhi]. apply andb_true_iff in H as [H Hlo].
  apply andb_true_iff in H as [Hm Hn].
  apply separatorFree_chars in Hm as [_ Hm]. apply separatorFree_chars in Hn as [_ Hn].
  destruct (separatorFree_chars _ (Itoa_separatorFree (COALESCE (attachment_total_bytes a) 0))) as [_ Hd].
  rewrite !ContainsAny_app, Hm, Hn, Hd. reflexivity.
Qed.

Lemma pack_not_empty (a : option attachment_row) (l : list string) :
  String.eqb (strings.Join (packAttachment a :: l) ";;") "" = false.
Proof.
  assert (H : exists c s, packAttachment a = String c s).
  { destruct a as [a|]; [|eexists; eexists; reflexivity].
    unfold packAttachment. destruct (COALESCE (attachment_mime_type a) "");
      eexists; eexists; reflexivity. }
  destruct H as (c & s & H). rewrite H.
  destruct l; reflexivity.
Qed.

Lemma decode_packed_rows (rows : list (option attachment_row)) :
  forallb packable rows = true ->
  flat_map decodeEntry (map packAttachment rows) = flat_map attachmentInfoOf rows.
Proof.
  induction rows as [|x l IH]; intros H; [reflexivity|].
  cbn [forallb] in H. apply andb_true_iff in H as [Hx Hl].
  cbn [map flat_map]. now rewrite decodeEntry_pack, IH.
Qed.

Lemma parseAttachments_pack (rows : list (option attachment_row)) :
  forallb packable rows = true ->
  parseAttachments (strings.Join (map packAttachment rows) ";;")
  = flat_map attachmentInfoOf rows.
Proof.
  intros H. destruct rows as [|r rows]; [reflexivity|].
  unfold parseAttachments. cbn [map]. rewrite pack_not_empty.
  rewrite parse_loop_flat_map. cbn [app].
  change (packAttachment r :: map packAttachment rows) with (map packAttachment (r :: rows)).
  rewrite Split_Join_pieces.
  - now apply decode_packed_rows.
  - discriminate.
  - rewrite forallb_forall in H. apply Forall_forall. intros p Hp.
    apply in_map_iff in Hp as (x & <- & Hx). apply pack_separatorFree_semicolon. now apply H.
Qed.

(** X1.  Round trip of the packed attachment column.  For a message
    whose joined attachment rows have a MIME type and a transfer name
    free of ['|'] and [';'] and a size within 64 bits, decoding the
    [GROUP_CONCAT] text the page queries build gives back the rows: one
    record per joined attachment, in the order of the join, with the
    label of its MIME type, its transfer name and its size; the all-[NULL]
    row of a message without attachment, and a row with empty type,
    empty name and size zero, give no record. *)
Theorem X1_attachments_round_trip (db : Database) (chatID : Z) (m : message_row) :
  forallb packable (attachmentJoin db m) = true ->
  Attachments (scanMessage db chatID m)
  = flat_map attachmentInfoOf
      (flat_map (fun _ => attachmentJoin db m) (joinsOf db chatID m)).
Proof.
  intros H. cbn [scanMessage Attachments]. unfold attachRaw.
  replace (flat_map (fun _ => map packAttachment (attachmentJoin db m)) (joinsOf db chatID m))
    with (map packAttachment (flat_map (fun _ => attachmentJoin db m) (joinsOf db chatID m))).
  - apply parseAttachments_pack.
    apply forallb_forall. intros x Hx. apply in_flat_map in Hx as (_ & _ & Hx).
    rewrite forallb_forall in H. now apply H.
  - induction (joinsOf db chatID m) as [|j l IH]; [reflexivity|].
    cbn [flat_map]. now rewrite map_app, IH.
Qed.

(** Message 5 of the seeded chat, with its two attachments. *)
Lemma X1_attachments_round_trip_witness :
  Attachments (scanMessage seedDB 1 (seedMessage 4 "x"))
  = [mkAttachmentInfo "photo" "photo.heic" 1048576; mkAttachmentInfo "video" "clip.mov" 10485760].
Proof.
  rewrite (X1_attachments_round_trip seedDB 1 (seedMessage 4 "x")); reflexivity.
Defined.

(** ** Attachment labels *)

(** ** Trimming and lower-casing behind an ASCII prefix *)

Lemma IsSpace_ascii (c : ascii) :
  (utf8.byte c <? utf8.RuneSelf) = true ->
  unicode.IsSpace (utf8.byte c) = strings.asciiSpace c.
Proof. destruct c as [[] [] [] [] [] [] [] []]; intros H; try reflexivity; discriminate H. Qed.

Lemma lower_ascii_rune (c : ascii) :
  (utf8.byte c <? utf8.RuneSelf) = true ->
  (0 <=? unicode.ToLower (utf8.byte c)) = true
  /\ utf8.EncodeRune (unicode.ToLower (utf8.byte c)) = str1 (strings.lowerByte c).
Proof.
  destruct c as [[] [] [] [] [] [] [] []]; intros H; try discriminate H; split; reflexivity.
Qed.

Lemma decode_ascii (c : ascii) (s : string) :
  (utf8.byte c <? utf8.RuneSelf) = true ->
  utf8.DecodeRuneInString (String c s) = (utf8.byte c, 1%nat).
Proof. intros H. cbn [utf8.DecodeRuneInString]. now rewrite H. Qed.

Lemma lowerASCII_app (a b : string) :
  strings.lowerASCII (a ++ b) = strings.lowerASCII a ++ strings.lowerASCII b.
Proof. induction a as [|c a IH]; [reflexivity|]. cbn [append strings.lowerASCII]. now rewrite IH. Qed.

Lemma mapRunes_ascii_prefix (a s : string) :
  strings.isASCII a = true ->
  strings.mapRunes unicode.ToLower 0 (a ++ s)
  = strings.lowerASCII a ++ strings.mapRunes unicode.ToLower 0 s.
Proof.
  induction a as [|c a IH]; [reflexivity|]. cbn [strings.isASCII]. intros H.
  apply andb_true_iff in H as [Hc Ha].
  cbn [append strings.mapRunes strings.lowerASCII].
  rewrite (decode_ascii c (a ++ s) Hc).
  destruct (lower_ascii_rune c Hc) as [-> ->]. cbn [Nat.sub append str1].
  now rewrite IH.
Qed.

(** [ToLower] keeps an ASCII prefix in place, lower-cased, whatever
    bytes follow. *)
Lemma ToLower_ascii_prefix (a s : string) :
  strings.isASCII a = true ->
  exists rest, strings.ToLower (a ++ s) = strings.lowerASCII a ++ rest.
Proof.
  intros Ha. unfold strings.ToLower. rewrite isASCII_app, Ha. cbn [andb].
  destruct (strings.isASCII s) eqn:Hs.
  - exists (strings.lowerASCII s). rewrite <- lowerASCII_app.
    destruct (strings.hasUpper (a ++ s)) eqn:Hu; [reflexivity|].
    symmetry. now apply lowerASCII_no_upper.
  - eexists. unfold strings.Map. now apply mapRunes_ascii_prefix.
Qed.

Lemma trimRight_plain_prefix (p s : string) :
  plainBytes p = true -> strings.trimRight (p ++ s) = p ++ strings.trimRight s.
Proof.
  induction p as [|c p IH]; [reflexivity|]. cbn [plainBytes]. intros H.
  apply andb_true_iff in H as [H Hp]. apply andb_true_iff in H as [_ Hc].
  apply negb_true_iff in Hc. cbn [append]. rewrite trimRight_cons by exact Hc.
  now rewrite IH.
Qed.

Lemma lastBytes_acc (s : string) :
  forall acc, utf8.lastBytes s acc = (utf8.lastBytes s [] ++ acc)%list.
Proof.
  induction s as [|c s IH]; intros acc; [reflexivity|]. cbn [utf8.lastBytes].
  rewrite (IH (c :: acc)), (IH [c]). now rewrite <- app_assoc.
Qed.

Lemma lastBytes_app (a b : string) :
  utf8.lastBytes (a ++ b) [] = (utf8.lastBytes b [] ++ utf8.lastBytes a [])%list.
Proof.
  induction a as [|c a IH]; [now rewrite app_nil_r|]. cbn [append utf8.lastBytes].
  rewrite (lastBytes_acc (a ++ b)), IH, (lastBytes_acc a [c]). now rewrite <- app_assoc.
Qed.

Lemma lastBytes_length (s : string) :
  List.length (utf8.lastBytes s []) = String.length s.
Proof.
  induction s as [|c s IH]; [reflexivity|]. cbn [utf8.lastBytes String.length].
  rewrite lastBytes_acc, length_app, IH. cbn. lia.
Qed.

Lemma lastBytes_plain (p : string) (c : ascii) (l : list ascii) :
  plainBytes p = true -> utf8.lastBytes p [] = c :: l ->
  (utf8.byte c <? utf8.RuneSelf) = true /\ strings.asciiSpace c = false.
Proof.
  revert c l. induction p as [|d p IH]; intros c l Hp Hl; [discriminate Hl|].
  cbn [plainBytes] in Hp. apply andb_true_iff in Hp as [Hd Hp].
  apply andb_true_iff in Hd as [Hd1 Hd2]. apply negb_true_iff in Hd2.
  cbn [utf8.lastBytes] in Hl. rewrite lastBytes_acc in Hl.
  destruct (utf8.lastBytes p []) as [|e l'] eqn:He.
  - cbn in Hl. injection Hl as <- _. now split.
  - cbn in Hl. injection Hl as <- _. now apply (IH e l').
Qed.

Lemma wholeRune_ascii_start (c : ascii) (l : list ascii) :
  (utf8.byte c <? utf8.RuneSelf) = true -> l <> [] ->
  utf8.wholeRune (c :: l) = (utf8.RuneError, 1%nat).
Proof.
  intros Hc Hl. unfold utf8.wholeRune. cbn [utf8.ofBytes].
  rewrite (decode_ascii c _ Hc). destruct l as [|d l]; [contradiction|reflexivity].
Qed.

Lemma wholeRune_size (l : list ascii) (r : Z) (size : nat) :
  utf8.wholeRune l = (r, size) -> unicode.IsSpace r = true -> size = List.length l.
Proof.
  unfold utf8.wholeRune. destruct (utf8.DecodeRuneInString (utf8.ofBytes l)) as [r' n].
  destruct (Nat.eqb_spec n (List.length l)) as [->|_].
  - now intros [= _ <-].
  - intros [= <- _]. discriminate.
Qed.

(** A white-space rune at the end of a string takes no byte of a
    prefix of plain bytes. *)
Lemma last_space_after_prefix (p s : string) (r : Z) (size : nat) :
  plainBytes p = true -> p <> "" ->
  utf8.DecodeLastRuneInString (p ++ s) = (r, size) ->
  unicode.IsSpace r = true ->
  (size <= String.length s)%nat.
Proof.
  intros Hp Hne Hd Hr. unfold utf8.DecodeLastRuneInString in Hd.
  rewrite lastBytes_app in Hd. rewrite <- lastBytes_length.
  destruct (utf8.lastBytes p []) as [|cp lp] eqn:Hlp.
  { destruct p; [contradiction|]. cbn [utf8.lastBytes] in Hlp.
    rewrite lastBytes_acc in Hlp. now destruct (utf8.lastBytes p []). }
  destruct (lastBytes_plain p cp lp Hp Hlp) as [Hcp Hnsp].
  assert (Hstart : utf8.RuneStart cp = true).
  { unfold utf8.RuneStart, utf8.isCont. apply Z.ltb_lt in Hcp.
    apply negb_true_iff, andb_false_iff. left. apply Z.leb_gt.
    unfold utf8.RuneSelf in Hcp. lia. }
  destruct (utf8.lastBytes s []) as [|c l0]; cbn [app] in Hd.
  { rewrite Hcp in Hd. injection Hd as <- <-.
    rewrite (IsSpace_ascii cp Hcp) in Hr. congruence. }
  destruct (utf8.byte c <? utf8.RuneSelf); [injection Hd as _ <-; cbn; lia|].
  destruct l0 as [|c1 l1]; cbn [app] in Hd.
  { rewrite Hstart in Hd. rewrite wholeRune_ascii_start in Hd by (assumption || discriminate).
    injection Hd as <- _. discriminate Hr. }
  destruct (utf8.RuneStart c1).
  { apply wholeRune_size in Hd; [|exact Hr]. subst size. cbn. lia. }
  destruct l1 as [|c2 l2]; cbn [app] in Hd.
  { rewrite Hstart in Hd. rewrite wholeRune_ascii_start in Hd by (assumption || discriminate).
    injection Hd as <- _. discriminate Hr. }
  destruct (utf8.RuneStart c2).
  { apply wholeRune_size in Hd; [|exact Hr]. subst size. cbn. lia. }
  destruct l2 as [|c3 l3]; cbn [app] in Hd.
  { rewrite Hstart in Hd. rewrite wholeRune_ascii_start in Hd by (assumption || discriminate).
    injection Hd as <- _. discriminate Hr. }
  destruct (utf8.RuneStart c3).
  { apply wholeRune_size in Hd; [|exact Hr]. subst size. cbn. lia. }
  injection Hd as <- _. discriminate Hr.
Qed.

Lemma substring_0_app (p s : string) (n : nat) :
  substring 0 (String.length p + n) (p ++ s) = p ++ substring 0 n s.
Proof. induction p as [|c p IH]; [reflexivity|]. cbn. now rewrite IH. Qed.

Lemma trimRightSpace_plain_prefix (p : string) :
  plainBytes p = true -> p <> "" ->
  forall fuel s, exists rest, strings.trimRightSpace fuel (p ++ s) = p ++ rest.
Proof.
  intros Hp Hne. induction fuel as [|fuel IH]; intros s; [now exists s|].
  cbn [strings.trimRightSpace].
  destruct (utf8.DecodeLastRuneInString (p ++ s)) as [r size] eqn:Hd.
  destruct (Nat.eqb size 0); [now exists s|].
  destruct (unicode.IsSpace r) eqn:Hr; [|now exists s].
  pose proof (last_space_after_prefix p s r size Hp Hne Hd Hr) as Hsize.
  rewrite length_append.
  replace (String.length p + String.length s - size)%nat
    with (String.length p + (String.length s - size))%nat by lia.
  rewrite substring_0_app. apply IH.
Qed.

(** [TrimSpace] keeps a prefix of plain bytes in place, whatever bytes
    follow. *)
Lemma TrimSpace_plain_prefix (p s : string) :
  plainBytes p = true -> p <> "" ->
  exists rest, strings.TrimSpace (p ++ s) = p ++ rest.
Proof.
  intros Hp Hne. unfold strings.TrimSpace.
  destruct p as [|c p]; [contradiction|].
  pose proof Hp as Hp'. cbn [plainBytes] in Hp'.
  apply andb_true_iff in Hp' as [Hc _]. apply andb_true_iff in Hc as [Hc1 Hc2].
  apply negb_true_iff in Hc2.
  assert (Hl : strings.trimLeft (String c p ++ s) = String c p ++ s)
    by (cbn [append strings.trimLeft]; now rewrite Hc2).
  rewrite Hl.
  assert (Hs : strings.startsNonASCII (String c p ++ s) = false).
  { cbn. apply Z.ltb_lt in Hc1. now apply Z.leb_gt. }
  rewrite Hs, (trimRight_plain_prefix _ s Hp).
  destruct (strings.endsNonASCII (String c p ++ strings.trimRight s)); [|now eexists].
  apply (trimRightSpace_plain_prefix (String c p) Hp Hne).
Qed.

Lemma HasPrefix_app (p s : string) : strings.HasPrefix (p ++ s) p = true.
Proof.
  induction p as [|c p IH]; [now destruct s|]. cbn [append strings.HasPrefix].
  now rewrite Ascii.eqb_refl, IH.
Qed.

(** The normalised form of a type with an ASCII family name in any
    letter case. *)
Lemma normalised_family (fam sub family : string) :
  strings.isASCII fam = true -> strings.ToLower fam = family ->
  plainBytes family = true -> family <> "" ->
  exists rest, strings.TrimSpace (strings.ToLower (fam ++ sub)) = family ++ rest.
Proof.
  intros Ha Hl Hp Hne.
  destruct (ToLower_ascii_prefix fam sub Ha) as [rest ->].
  rewrite (ToLower_ascii fam Ha) in Hl. rewrite Hl.
  now apply TrimSpace_plain_prefix.
Qed.

(** X2.  The label [attachmentLabel] gives is always one of fourteen
    fixed labels, so never empty.  For a MIME type of ASCII bytes it
    depends only on the lower-cased, trimmed text: lower-casing or
    trimming the argument first does not change the label. *)
Theorem X2_attachmentLabel_normalised (mime : string) :
  In (attachmentLabel mime) attachmentLabels
  /\ attachmentLabel mime <> ""
  /\ (strings.isASCII mime = true ->
      attachmentLabel (strings.ToLower mime) = attachmentLabel mime
      /\ attachmentLabel (strings.TrimSpace mime) = attachmentLabel mime
      /\ attachmentLabel (strings.TrimSpace (strings.ToLower mime)) = attachmentLabel mime).
Proof.
  assert (Hin : In (attachmentLabel mime) attachmentLabels).
  { unfold attachmentLabel, attachmentLabels.
    repeat match goal with
           | |- context [if ?b then _ else _] => destruct b
           end; cbn; tauto. }
  split; [exact Hin|]. split.
  { intros He. rewrite He in Hin. cbn in Hin.
    repeat (destruct Hin as [Hin|Hin]; [discriminate Hin|]). exact Hin. }
  intros Ha.
  assert (Hnorm : forall s, strings.isASCII s = true ->
             strings.TrimSpace (strings.ToLower s) = trimASCII (strings.lowerASCII s)).
  { intros s Hs. rewrite (ToLower_ascii s Hs). apply TrimSpace_ascii.
    now rewrite isASCII_lowerASCII. }
  assert (Hl : strings.ToLower mime = strings.lowerASCII mime) by now apply ToLower_ascii.
  assert (Ht : strings.TrimSpace mime = trimASCII mime) by now apply TrimSpace_ascii.
  assert (E1 : strings.TrimSpace (strings.ToLower (strings.ToLower mime))
               = strings.TrimSpace (strings.ToLower mime)).
  { rewrite (Hnorm mime Ha), Hl, Hnorm by (now rewrite isASCII_lowerASCII).
    now rewrite lowerASCII_idem. }
  assert (E2 : strings.TrimSpace (strings.ToLower (strings.TrimSpace mime))
               = strings.TrimSpace (strings.ToLower mime)).
  { rewrite (Hnorm mime Ha), Ht, Hnorm by (now apply isASCII_trimASCII).
    now rewrite <- lowerASCII_trimASCII, trimASCII_idem. }
  assert (E3 : strings.TrimSpace (strings.ToLower (strings.TrimSpace (strings.ToLower mime)))
               = strings.TrimSpace (strings.ToLower mime)).
  { rewrite (Hnorm mime Ha).
    rewrite Hnorm by (apply isASCII_trimASCII; now rewrite isASCII_lowerASCII).
    now rewrite <- lowerASCII_trimASCII, lowerASCII_idem, trimASCII_idem. }
  unfold attachmentLabel. rewrite E1, E2, E3. repeat split.
Qed.

(** A JPEG type in mixed case between spaces. *)
Lemma X2_attachmentLabel_normalised_witness :
  attachmentLabel (strings.TrimSpace " Image/JPEG ") = attachmentLabel " Image/JPEG "
  /\ attachmentLabel (strings.ToLower " Image/JPEG ") = attachmentLabel " Image/JPEG "
  /\ attachmentLabel " Image/JPEG " = "photo".
Proof.
  destruct (proj2 (proj2 (X2_attachmentLabel_normalised " Image/JPEG ")) eq_refl)
    as (Hl & Ht & _).
  split; [exact Ht|]. split; [exact Hl|reflexivity].
Defined.

(** X3.  The media families.  Whatever bytes the subtype holds, and in
    whatever letter case the family name is written in ASCII, a
    [video/] type is labelled ["video"], an [audio/] type ["audio"], and
    an [image/] type one of ["photo"], ["image"] and ["GIF"].  The label
    is ["attachment"] exactly when the type is empty once lower-cased
    and trimmed. *)
Theorem X3_attachmentLabel_families (fam sub : string) :
  (strings.isASCII fam = true -> strings.ToLower fam = "video/" ->
   attachmentLabel (fam ++ sub) = "video")
  /\ (strings.isASCII fam = true -> strings.ToLower fam = "audio/" ->
      attachmentLabel (fam ++ sub) = "audio")
  /\ (strings.isASCII fam = true -> strings.ToLower fam = "image/" ->
      In (attachmentLabel (fam ++ sub)) ["photo"; "image"; "GIF"])
  /\ (attachmentLabel sub = "attachment"
      <-> strings.TrimSpace (strings.ToLower sub) = "").
Proof.
  split; [|split; [|split]].
  - intros Ha Hl.
    destruct (normalised_family fam sub "video/" Ha Hl eq_refl ltac:(discriminate)) as [rest H].
    unfold attachmentLabel. rewrite H. reflexivity.
  - intros Ha Hl.
    destruct (normalised_family fam sub "audio/" Ha Hl eq_refl ltac:(discriminate)) as [rest H].
    unfold attachmentLabel. rewrite H. reflexivity.
  - intros Ha Hl.
    destruct (normalised_family fam sub "image/" Ha Hl eq_refl ltac:(discriminate)) as [rest H].
    unfold attachmentLabel. rewrite H.
    change (strings.HasPrefix ("image/" ++ rest) "image/") with true. cbv iota.
    repeat match goal with
           | |- context [if ?b then _ else _] => destruct b
           end; cbn; tauto.
  - unfold attachmentLabel.
    destruct (strings.TrimSpace (strings.ToLower sub)) as [|c n] eqn:Hn.
    + split; reflexivity.
    + split; [|discriminate].
      change (String.eqb (String c n) "") with false.
      repeat match goal with
             | |- context [if ?b then _ else _] => destruct b
             end; discriminate.
Qed.

(** A video type in mixed case whose subtype ends in a letter outside
    ASCII. *)
Lemma X3_attachmentLabel_families_witness :
  attachmentLabel ("ViDeO/" ++ "x-caf" ++ String (ascii_of_nat 195) (str1 (ascii_of_nat 137)))
  = "video".
Proof.
  exact (proj1 (X3_attachmentLabel_families "ViDeO/"
                  ("x-caf" ++ String (ascii_of_nat 195) (str1 (ascii_of_nat 137))))
               eq_refl eq_refl).
Defined.

(** ** The full history and the conversation list *)


Lemma UnixNano_appleNanos (nanos : Z) :
  nanos <> 0 ->
  time.UnixNano (appleNanosToTime nanos) = nanos + appleEpochOffset * 1000000000.
Proof.
  intros Hnz. destruct (quot_rem_billion nanos) as [Hqr Hr].
  unfold appleNanosToTime. destruct (Z.eqb_spec nanos 0); [contradiction|].
  remember (Z.quot nanos 1000000000) as q eqn:Eq.
  remember (Z.rem nanos 1000000000) as r eqn:Er.
  unfold time.Unix, time.UnixNano, time.UnixSeconds.
  unfold appleEpochOffset, time.unixToInternal in *.
  destruct (Z.ltb_spec r 0) as [Hneg|Hpos]; simpl orb.
  - rewrite (rem_quot_small r) by lia.
    replace (r - 0 * 1000000000) with r by lia.
    destruct (Z.ltb_spec r 0); [|lia]. cbn [time.sec time.nsec]. lia.
  - destruct (Z.geb_spec r 1000000000); [lia|]. cbn [time.sec time.nsec]. lia.
Qed.

Lemma IsZero_appleNanos (nanos : Z) :
  time.IsZero (appleNanosToTime nanos) = false -> nanos <> 0.
Proof. intros H ->. discriminate H. Qed.

Lemma minDate_acc (l : list message_row) :
  forall d : Z,
    exists lo, fold_left (fun acc m => Some (match acc with
                                            | Some d => Z.min d (message_date m)
                                            | None => message_date m
                                            end)) l (Some d) = Some lo
               /\ lo <= d /\ Forall (fun m => lo <= message_date m) l.
Proof.
  induction l as [|m l IH]; intros d; cbn [fold_left].
  - exists d. repeat split; [lia|constructor].
  - destruct (IH (Z.min d (message_date m))) as (lo & Hlo & Hle & Hall).
    exists lo. split; [exact Hlo|]. split; [lia|]. constructor; [lia|exact Hall].
Qed.

Lemma maxDate_acc (l : list message_row) :
  forall d : Z,
    exists hi, fold_left (fun acc m => Some (match acc with
                                            | Some d => Z.max d (message_date m)
                                            | None => message_date m
                                            end)) l (Some d) = Some hi
               /\ d <= hi /\ Forall (fun m => message_date m <= hi) l.
Proof.
  induction l as [|m l IH]; intros d; cbn [fold_left].
  - exists d. repeat split; [lia|constructor].
  - destruct (IH (Z.max d (message_date m))) as (hi & Hhi & Hle & Hall).
    exists hi. split; [exact Hhi|]. split; [lia|]. constructor; [lia|exact Hall].
Qed.

(** [MIN(m.date)] and [MAX(m.date)] of a group: both [NULL] for the
    empty group, otherwise bounds of every date of the group. *)
Lemma min_max_date (l : list message_row) :
  match l with
  | [] => minDate l = None /\ maxDate l = None
  | _ :: _ =>
      exists lo hi, minDate l = Some lo /\ maxDate l = Some hi /\ lo <= hi
                    /\ Forall (fun m => lo <= message_date m <= hi) l
  end.
Proof.
  destruct l as [|m l]; [split; reflexivity|].
  unfold minDate, maxDate. cbn [fold_left].
  destruct (minDate_acc l (message_date m)) as (lo & Hlo & Hle & Hall).
  destruct (maxDate_acc l (message_date m)) as (hi & Hhi & Hge & Hall').
  exists lo, hi. split; [exact Hlo|]. split; [exact Hhi|]. split; [lia|].
  constructor; [lia|].
  rewrite Forall_forall in *. intros x Hx. split; [now apply Hall|now apply Hall'].
Qed.

Lemma SUM_acc (l : list (option Z)) :
  forall acc : option Z,
    COALESCE (fold_left (fun acc v => match v with
                                      | Some x => Some (COALESCE acc 0 + x)
                                      | None => acc
                                      end) l acc) 0
    = COALESCE acc 0 + fold_right (fun v t => COALESCE v 0 + t) 0 l.
Proof.
  induction l as [|v l IH]; intros acc; cbn [fold_left fold_right]; [lia|].
  rewrite IH. destruct v as [x|]; cbn [COALESCE]; lia.
Qed.

(** [COALESCE(SUM(x), 0)] is the sum of the values, [NULL] counting
    for nothing. *)
Lemma SUM_total (l : list (option Z)) :
  COALESCE (SUM l) 0 = fold_right (fun v t => COALESCE v 0 + t) 0 l.
Proof. unfold SUM. now rewrite SUM_acc. Qed.

Lemma notFromMe_bounds (l : list message_row) :
  0 <= fold_right (fun v t => COALESCE v 0 + t) 0 (map notFromMe l)
    <= Z.of_nat (List.length l).
Proof.
  induction l as [|m l IH]; cbn [map fold_right List.length]; [lia|].
  unfold notFromMe at 1 3. destruct (message_is_from_me m) as [[|?|?]|]; cbn [COALESCE]; lia.
Qed.

Lemma sent_received_split (l : list message_row) :
  Forall (fun m => message_is_from_me m = Some 0 \/ message_is_from_me m = Some 1) l ->
  0 <= fold_right (fun v t => COALESCE v 0 + t) 0 (map message_is_from_me l)
  /\ fold_right (fun v t => COALESCE v 0 + t) 0 (map message_is_from_me l)
     + fold_right (fun v t => COALESCE v 0 + t) 0 (map notFromMe l)
     = Z.of_nat (List.length l).
Proof.
  induction 1 as [|m l Hm _ IH]; cbn [map fold_right List.length]; [lia|].
  unfold notFromMe at 1. destruct Hm as [-> | ->]; cbn [COALESCE]; lia.
Qed.

(** X5.  The aggregates of a conversation summary.  Every conversation
    [FetchConversations] returns belongs to a row of the chat table,
    whose participants it reports; its message count is the number of
    messages joined to the chat, and its received count lies between 0
    and the message count.  When the column [is_from_me] of every joined
    message holds 0 or 1 (the values the message queries can scan), the
    sent count is not negative and the message count is the sum of the
    sent and the received count; a [NULL] or another value breaks the
    sum.  A conversation without messages has counts 0 and both dates
    unset; when both dates are set the first is not after the last. *)
Theorem X5_conversation_aggregates (db : Database) (conv : Conversation) :
  In conv (FetchConversations db) ->
  exists c,
    In c (chat db) /\ ChatID conv = chat_ROWID c
    /\ Participants conv = fetchParticipants db (chat_ROWID c)
    /\ MessageCount conv = Z.of_nat (List.length (joinedMessages db (chat_ROWID c)))
    /\ 0 <= ReceivedCount conv <= MessageCount conv
    /\ (Forall (fun m => message_is_from_me m = Some 0 \/ message_is_from_me m = Some 1)
               (joinedMessages db (chat_ROWID c)) ->
        0 <= SentCount conv
        /\ MessageCount conv = SentCount conv + ReceivedCount conv)
    /\ (MessageCount conv = 0 ->
        SentCount conv = 0 /\ ReceivedCount conv = 0
        /\ FirstMsgDate conv = time.zeroTime /\ LastMsgDate conv = time.zeroTime)
    /\ (time.IsZero (FirstMsgDate conv) = false ->
        time.IsZero (LastMsgDate conv) = false ->
        time.UnixNano (FirstMsgDate conv) <= time.UnixNano (LastMsgDate conv)).
Proof.
  unfold FetchConversations. intros Hin.
  apply in_map_iff in Hin as (c & <- & Hc).
  apply (Permutation_in _ (sortBy_perm (lastDateDesc db) (chat db))) in Hc.
  exists c.
  cbn [scanConversation MessageCount SentCount ReceivedCount FirstMsgDate LastMsgDate
       ChatID Participants].
  rewrite !SUM_total.
  set (sub := joinedMessages db (chat_ROWID c)).
  pose proof (notFromMe_bounds sub) as Hrecv.
  pose proof (min_max_date sub) as Hmm.
  split; [exact Hc|]. split; [reflexivity|]. split; [reflexivity|]. split; [reflexivity|].
  split; [exact Hrecv|]. split; [|split].
  - intros H01. destruct (sent_received_split sub H01) as [Hs Hsum]. split; [exact Hs|lia].
  - intros H0. destruct sub as [|m l]; [|cbn [List.length] in H0; lia].
    destruct Hmm as [-> ->]. repeat split; reflexivity.
  - intros Hf Hl. destruct sub as [|m l]; [discriminate Hf|].
    destruct Hmm as (lo & hi & Hlo & Hhi & Hle & _).
    rewrite Hlo in Hf |- *. rewrite Hhi in Hl |- *. cbn [COALESCE] in *.
    apply IsZero_appleNanos in Hf, Hl.
    rewrite !UnixNano_appleNanos by assumption. lia.
Qed.

(** The seeded chat: ten messages, five sent and five received.  In
    [nullFlagDB] the one message of the chat has no flag: it is counted,
    and is neither sent nor received. *)
Lemma X5_conversation_aggregates_witness :
  (let conv := scanConversation seedDB (mkChat 1 "+15551234567" (Some "") "iMessage" (Some 1)) in
   MessageCount conv = 10 /\ MessageCount conv = SentCount conv + ReceivedCount conv)
  /\ (let conv := scanConversation nullFlagDB (mkChat 1 "+15551234567" None "iMessage" (Some 1)) in
      MessageCount conv = 1 /\ SentCount conv = 0 /\ ReceivedCount conv = 0).
Proof.
  split; [|vm_compute; repeat split].
  intros conv.
  assert (Hin : In conv (FetchConversations seedDB)) by (vm_compute; left; reflexivity).
  destruct (X5_conversation_aggregates seedDB conv Hin)
    as (c & Hc & Hid & _ & Hcount & _ & Hsum & _).
  assert (Hrow : chat_ROWID c = 1) by (rewrite <- Hid; reflexivity).
  rewrite Hrow in Hcount, Hsum.
  split; [rewrite Hcount; reflexivity|].
  apply Hsum. apply Forall_forall. intros m Hm.
  vm_compute in Hm.
  repeat (destruct Hm as [<-|Hm]; [cbn; auto|]). contradiction.
Defined.

Lemma lastDateDesc_total (db : Database) :
  forall a b, lastDateDesc db a b = true \/ lastDateDesc db b a = true.
Proof.
  intros a b. unfold lastDateDesc.
  destruct (maxDate (joinedMessages db (chat_ROWID a))) as [x|];
    destruct (maxDate (joinedMessages db (chat_ROWID b))) as [y|]; auto.
  destruct (Z.leb_spec y x); [now left|right]. apply Z.leb_le. lia.
Qed.

Lemma lastDateDesc_trans (db : Database) :
  forall a b c, lastDateDesc db a b = true -> lastDateDesc db b c = true ->
                lastDateDesc db a c = true.
Proof.
  intros a b c. unfold lastDateDesc.
  destruct (maxDate (joinedMessages db (chat_ROWID a))) as [x|];
    destruct (maxDate (joinedMessages db (chat_ROWID b))) as [y|];
    destruct (maxDate (joinedMessages db (chat_ROWID c))) as [z|];
    rewrite ?Z.leb_le; try discriminate; auto. lia.
Qed.

(** X6.  The conversation list holds every row of the chat table
    exactly once, chats without messages included, ordered by the date
    of the last message, newest first, the chats without messages
    last. *)
Theorem X6_conversations_listing (db : Database) :
  (exists rows : list chat_row,
      FetchConversations db = map (scanConversation db) rows
      /\ Permutation rows (chat db)
      /\ StronglySorted (lastDateFirst db) rows)
  /\ Permutation (map ChatID (FetchConversations db)) (map chat_ROWID (chat db))
  /\ List.length (FetchConversations db) = List.length (chat db).
Proof.
  unfold FetchConversations.
  pose proof (sortBy_perm (lastDateDesc db) (chat db)) as Hperm.
  split; [|split].
  - exists (sortBy (lastDateDesc db) (chat db)).
    split; [reflexivity|]. split; [exact Hperm|].
    eapply sorted_impl;
      [|apply (sortBy_sorted (lastDateDesc db) (lastDateDesc_total db) (lastDateDesc_trans db))].
    intros a b _ _ H. unfold lastDateDesc in H. unfold lastDateFirst, last_date.
    destruct (maxDate (joinedMessages db (chat_ROWID b))) as [y|]; [|exact I].
    destruct (maxDate (joinedMessages db (chat_ROWID a))) as [x|]; [|discriminate].
    now apply Z.leb_le.
  - rewrite map_map. cbn [scanConversation ChatID].
    now apply Permutation_map.
  - rewrite length_map. now apply Permutation_length.
Qed.

(** ** Search and the attachment list *)

Lemma in_firstn {A : Type} (n : nat) (l : list A) (x : A) : In x (firstn n l) -> In x l.
Proof.
  intros H. rewrite <- (firstn_skipn n l). apply in_or_app. now left.
Qed.

Section SearchFacts.

Variable LIKE : string -> string -> bool.

(** X7.  What a search returns, whatever [LIKE] decides: with a limit
    of zero or less the result of limit 100; never more results than the
    limit; every result is a message with a text (never [NULL]) that
    [LIKE] accepts for the pattern ['%term%'], joined to the chat whose
    id and name (display name, else identifier) it carries, and it
    carries no attachment; the results are in descending order of
    stored date. *)
Theorem X7_SearchMessages_results (db : Database) (term : string) (limit : Z) :
  let results := SearchMessages LIKE db term limit in
  (limit <= 0 -> results = SearchMessages LIKE db term 100)
  /\ (List.length results <= Z.to_nat (if (limit <=? 0)%Z then 100%Z else limit))%nat
  /\ (forall r, In r results ->
        Attachments (sr_Message r) = []
        /\ exists m c text,
             In m (message db) /\ In c (chat db)
             /\ In (chat_ROWID c, message_ROWID m) (chat_message_join db)
             /\ message_text m = Some text
             /\ LIKE text ("%" ++ term ++ "%") = true
             /\ ROWID (sr_Message r) = message_ROWID m
             /\ Text (sr_Message r) = text
             /\ sr_ChatID r = chat_ROWID c
             /\ sr_ChatName r = COALESCE (chat_display_name c) (chat_identifier c))
  /\ exists rows,
       results = map (scanSearchResult db) rows
       /\ StronglySorted (fun a b => message_date (fst b) <= message_date (fst a)) rows.
Proof.
  intros results. subst results. unfold SearchMessages.
  set (le := fun a b : message_row * chat_row => dateDesc (fst a) (fst b)).
  assert (le_total : forall a b, le a b = true \/ le b a = true)
    by (intros a b; apply dateDesc_total).
  assert (le_trans : forall a b c, le a b = true -> le b c = true -> le a c = true)
    by (intros a b c; apply dateDesc_trans).
  split; [|split; [|split]].
  - intros Hl. destruct (Z.leb_spec limit 0); [reflexivity|lia].
  - rewrite length_map. apply firstn_le_length.
  - intros r Hr. apply in_map_iff in Hr as ([m c] & <- & Hr).
    apply in_firstn in Hr.
    apply (Permutation_in _ (sortBy_perm le (searchRows LIKE db term))) in Hr.
    unfold searchRows in Hr.
    apply in_flat_map in Hr as (m' & Hm' & Hr).
    apply filter_In in Hm' as [Hm' Hmatch].
    apply in_flat_map in Hr as (cmj & Hcmj & Hr).
    destruct (Z.eqb_spec (snd cmj) (message_ROWID m')) as [Hid|]; [|contradiction].
    apply in_map_iff in Hr as (c' & Heq & Hc').
    injection Heq as <- <-.
    apply filter_In in Hc' as [Hc' Hcid]. apply Z.eqb_eq in Hcid.
    split; [reflexivity|].
    unfold textMatches in Hmatch.
    destruct (message_text m') as [text|] eqn:Htext; [|discriminate].
    exists m', c', text. cbn [scanSearchResult sr_Message sr_ChatID sr_ChatName ROWID Text].
    rewrite Htext. repeat split; try assumption.
    destruct cmj as [j1 j2]. cbn in Hid, Hcid. now subst.
  - exists (firstn (Z.to_nat (if limit <=? 0 then 100 else limit))
              (sortBy le (searchRows LIKE db term))).
    split; [reflexivity|].
    apply sorted_firstn.
    eapply sorted_impl; [|apply (sortBy_sorted le le_total le_trans)].
    intros a b _ _ H. unfold le, dateDesc in H. now apply Z.leb_le.
Qed.

End SearchFacts.


(** ** Contacts *)

Lemma lookup_assign_same (key : string) (c : Contact) (m : list (string * Contact)) :
  lookup key (assign key c m) = Some c.
Proof.
  unfold lookup. induction m as [|[k v] m IH]; cbn [assign find fst].
  - now rewrite String.eqb_refl.
  - destruct (String.eqb k key) eqn:Hk; cbn [find fst].
    + now rewrite String.eqb_refl.
    + now rewrite Hk.
Qed.

Lemma lookup_assign_other (key key' : string) (c : Contact) (m : list (string * Contact)) :
  key' <> key -> lookup key' (assign key c m) = lookup key' m.
Proof.
  intros Hne. unfold lookup. induction m as [|[k v] m IH]; cbn [assign find fst].
  - destruct (String.eqb_spec key key'); [congruence|reflexivity].
  - destruct (String.eqb_spec k key) as [->|Hk]; cbn [find fst].
    + destruct (String.eqb_spec key key'); [congruence|reflexivity].
    + destruct (String.eqb k key'); [reflexivity|exact IH].
Qed.

Lemma appendUnique_In (slice : list string) (val s : string) :
  In s (appendUnique slice val) <-> In s slice \/ s = val.
Proof.
  unfold appendUnique.
  destruct (existsb (fun s => String.eqb s val) slice) eqn:He.
  - apply existsb_exists in He as (x & Hx & Hxv). apply String.eqb_eq in Hxv. subst x.
    split; [tauto|]. intros [H| ->]; assumption.
  - split.
    + intros H. apply in_app_or in H as [H|[H|[]]]; auto.
    + intros [H| ->]; apply in_or_app; [now left|right; now left].
Qed.

Lemma appendUnique_NoDup (slice : list string) (val : string) :
  NoDup slice -> NoDup (appendUnique slice val).
Proof.
  intros Hnd. unfold appendUnique.
  destruct (existsb (fun s => String.eqb s val) slice) eqn:He; [assumption|].
  assert (Hnot : ~ In val slice).
  { intros Hin. apply (proj2 (Bool.not_true_iff_false _) He).
    apply existsb_exists. exists val. split; [assumption|apply String.eqb_refl]. }
  apply NoDup_app; [assumption|repeat constructor; intros []|].
  intros x Hx [<-|[]]. contradiction.
Qed.

Lemma digitsOf_allDigits (s : string) : allDigits (digitsOf s) = true.
Proof.
  induction s as [|c s IH]; [reflexivity|]. cbn [digitsOf].
  destruct (strconv.isDigit c) eqn:Hc; [|assumption]. cbn [allDigits]. now rewrite Hc.
Qed.

Lemma digitsOf_id (s : string) : allDigits s = true -> digitsOf s = s.
Proof.
  induction s as [|c s IH]; intros H; [reflexivity|].
  cbn [allDigits] in H. apply andb_true_iff in H as [Hc Hs].
  cbn [digitsOf]. now rewrite Hc, IH.
Qed.

Lemma digitsOf_app (a b : string) : digitsOf (a ++ b) = digitsOf a ++ digitsOf b.
Proof.
  induction a as [|c a IH]; [reflexivity|]. cbn [append digitsOf].
  destruct (strconv.isDigit c); [cbn [append]|]; now rewrite IH.
Qed.

Lemma drop_allDigits (n : nat) :
  forall s, allDigits s = true -> allDigits (strings.drop n s) = true.
Proof.
  induction n as [|n IH]; intros [|c s] H; try assumption; try reflexivity.
  cbn [allDigits] in H. apply andb_true_iff in H as [_ Hs]. now apply IH.
Qed.

Lemma drop_length (n : nat) :
  forall s, String.length (strings.drop n s) = (String.length s - n)%nat.
Proof. induction n as [|n IH]; intros [|c s]; simpl; try lia. apply IH. Qed.

Lemma normalizePhone_allDigits (phone : string) : allDigits (normalizePhone phone) = true.
Proof.
  unfold normalizePhone. destruct (_ && _); [apply drop_allDigits|]; apply digitsOf_allDigits.
Qed.

Lemma normalizePhone_digits (d : string) :
  allDigits d = true ->
  normalizePhone d
  = if Nat.eqb (String.length d) 11 && strings.HasPrefix d "1" then strings.drop 1 d else d.
Proof. intros H. unfold normalizePhone. now rewrite digitsOf_id. Qed.

(** X9.  [normalizePhone] keeps digits only, is a fixed point on its
    own results, ignores every byte that is not a digit, and never
    returns eleven digits that start with the country code 1: ten
    digits stay as they are, with or without [+1] in front.  The two
    spellings of the specification normalise to the same ten digits. *)
Theorem X9_normalizePhone_spec :
  (forall phone,
     allDigits (normalizePhone phone) = true
     /\ normalizePhone (normalizePhone phone) = normalizePhone phone
     /\ (String.length (normalizePhone phone) = 11%nat ->
         strings.HasPrefix (normalizePhone phone) "1" = false))
  /\ (forall a b c, strconv.isDigit c = false ->
        normalizePhone (a ++ String c b) = normalizePhone (a ++ b))
  /\ (forall d, allDigits d = true -> String.length d = 10%nat ->
        normalizePhone ("+1" ++ d) = d /\ normalizePhone d = d)
  /\ normalizePhone "+1 (555) 123-4567" = "5551234567"
  /\ normalizePhone "555-123-4567" = "5551234567".
Proof.
  split; [|split; [|split; [|split; reflexivity]]].
  - intros phone. split; [apply normalizePhone_allDigits|].
    pose proof (digitsOf_allDigits phone) as Hd.
    unfold normalizePhone at 2 3 4 5. 
    destruct (Nat.eqb_spec (String.length (digitsOf phone)) 11) as [Hlen|Hlen]; cbn [andb].
    + destruct (strings.HasPrefix (digitsOf phone) "1") eqn:Hp.
      * split.
        -- rewrite normalizePhone_digits by now apply drop_allDigits.
           rewrite drop_length, Hlen. reflexivity.
        -- rewrite drop_length, Hlen. discriminate.
      * split; [|intros _; assumption].
        rewrite normalizePhone_digits by assumption. now rewrite Hp, andb_false_r.
    + split; [|intros H; contradiction].
      rewrite normalizePhone_digits by assumption.
      destruct (Nat.eqb_spec (String.length (digitsOf phone)) 11); [contradiction|reflexivity].
  - intros a b c Hc. unfold normalizePhone. rewrite !digitsOf_app. cbn [digitsOf]. now rewrite Hc.
  - intros d Hd Hlen. split.
    + unfold normalizePhone. cbn [append digitsOf]. change (strconv.isDigit "+") with false.
      change (strconv.isDigit "1") with true. cbv iota. rewrite digitsOf_id by assumption.
      cbn [String.length]. rewrite Hlen. reflexivity.
    + rewrite normalizePhone_digits by assumption. now rewrite Hlen.
Qed.

(** X10.  A handle that holds an [@] is looked up in the e-mail index
    and nowhere else, under its trimmed, lower-cased form.  For a handle
    of ASCII bytes the result is therefore the same in whatever letter
    case the handle is written and whatever white space surrounds it. *)
Theorem X10_Resolve_email_case (cb : ContactBook) (h : string) :
  strings.Contains h "@" = true ->
  Resolve cb h = lookup (strings.ToLower (strings.TrimSpace h)) (byEmail cb)
  /\ (strings.isASCII h = true ->
      Resolve cb (strings.ToLower h) = Resolve cb h
      /\ Resolve cb (strings.TrimSpace h) = Resolve cb h).
Proof.
  intros Hat.
  assert (Hne : forall s, strings.Contains s "@" = true -> String.eqb s "" = false)
    by (intros [|c s] H; [discriminate H|reflexivity]).
  assert (HR : forall s, strings.Contains s "@" = true ->
             Resolve cb s = lookup (strings.ToLower (strings.TrimSpace s)) (byEmail cb)).
  { intros s Hs. unfold Resolve. now rewrite (Hne s Hs), Hs. }
  split; [now apply HR|]. intros Ha.
  assert (Hkey : forall s, strings.isASCII s = true ->
             strings.ToLower (strings.TrimSpace s) = strings.lowerASCII (trimASCII s)).
  { intros s Hs. rewrite (TrimSpace_ascii s Hs). apply ToLower_ascii.
    now apply isASCII_trimASCII. }
  rewrite (HR h Hat), (Hkey h Ha). split.
  - rewrite (ToLower_ascii h Ha).
    rewrite HR by now rewrite lowerASCII_Contains_at.
    rewrite Hkey by now rewrite isASCII_lowerASCII.
    now rewrite lowerASCII_trimASCII, lowerASCII_idem.
  - rewrite (TrimSpace_ascii h Ha).
    rewrite HR by now rewrite trimASCII_Contains_at.
    rewrite Hkey by now apply isASCII_trimASCII.
    now rewrite trimASCII_idem.
Qed.

Lemma X10_Resolve_email_case_witness :
  Resolve sampleBook "Jane@Example.COM" = Some janeContact
  /\ Resolve sampleBook (strings.ToLower "Jane@Example.COM") = Resolve sampleBook "Jane@Example.COM".
Proof.
  destruct (X10_Resolve_email_case sampleBook "Jane@Example.COM" eq_refl) as [H1 H2].
  split; [rewrite H1; reflexivity|exact (proj1 (H2 eq_refl))].
Defined.

Lemma allDigits_no_at (s : string) : allDigits s = true -> strings.Contains s "@" = false.
Proof.
  induction s as [|c s IH]; intros H; [reflexivity|].
  cbn [allDigits] in H. apply andb_true_iff in H as [Hc Hs].
  cbn [strings.Contains strings.HasPrefix]. rewrite (IH Hs), andb_true_r, orb_false_r.
  destruct (Ascii.eqb_spec c "@") as [->|]; [discriminate|reflexivity].
Qed.

Lemma allDigits_app (a b : string) : allDigits (a ++ b) = allDigits a && allDigits b.
Proof. induction a as [|c a IH]; simpl; [reflexivity|]. now rewrite IH, andb_assoc. Qed.

Lemma drop_app (a b : string) : strings.drop (String.length a) (a ++ b) = b.
Proof. induction a as [|c a IH]; [reflexivity|exact IH]. Qed.

(** X11.  Country-code tolerance: a number written with a country
    code in front of ten digits resolves to the contact stored under
    those ten digits, when the book has no entry for the whole
    number. *)
Theorem X11_Resolve_country_code (cb : ContactBook) (cc k : string) (c : Contact) :
  allDigits cc = true -> cc <> "" ->
  allDigits k = true -> String.length k = 10%nat ->
  lookup k (byDigits cb) = Some c ->
  lookup (cc ++ k) (byDigits cb) = None ->
  Resolve cb ("+" ++ cc ++ k) = Some c /\ ResolveName cb ("+" ++ cc ++ k) = Name c.
Proof.
  intros Hcc Hne Hk Hlen Hfound Hnone.
  assert (Hall : allDigits (cc ++ k) = true) by now rewrite allDigits_app, Hcc, Hk.
  assert (HR : Resolve cb ("+" ++ cc ++ k) = Some c).
  { unfold Resolve. cbn [append String.eqb].
    cbn [strings.Contains strings.HasPrefix]. change (Ascii.eqb "+" "@") with false.
    rewrite (allDigits_no_at _ Hall). cbn [andb orb].
    assert (Hnorm : normalizePhone (String "+" (cc ++ k)) = normalizePhone (cc ++ k)).
    { unfold normalizePhone. cbn [digitsOf]. reflexivity. }
    rewrite Hnorm, (normalizePhone_digits _ Hall), length_append, Hlen.
    destruct (Nat.eqb_spec (String.length cc + 10) 11) as [H11|H11]; cbn [andb].
    - destruct cc as [|x [|y cc]]; [contradiction| |simpl in H11; lia].
      cbn [append] in Hnone.
      cbn [append strings.HasPrefix]. rewrite andb_true_r.
      destruct (Ascii.eqb x "1").
      + cbn [strings.drop].
        destruct k; [discriminate|]. cbn [String.eqb]. now rewrite Hfound.
      + cbn [String.eqb]. rewrite Hnone.
        cbn [String.length]. rewrite Hlen. cbn [Nat.ltb Nat.leb Nat.sub strings.drop].
        exact Hfound.
    - assert (Hnz : String.eqb (cc ++ k) "" = false)
        by (destruct cc; [contradiction|reflexivity]).
      rewrite Hnz, Hnone, length_append, Hlen.
      destruct (Nat.ltb_spec 10 (String.length cc + 10)) as [_|Hle].
      + replace (String.length cc + 10 - 10)%nat with (String.length cc) by lia.
        now rewrite drop_app.
      + destruct cc; [contradiction|simpl in Hle; lia]. }
  split; [exact HR|]. unfold ResolveName. now rewrite HR.
Qed.

Lemma X11_Resolve_country_code_witness :
  ResolveName sampleBook "+445551234567" = "Jane Doe".
Proof.
  refine (proj2 (X11_Resolve_country_code sampleBook "44" "5551234567" janeContact
                   eq_refl _ eq_refl eq_refl eq_refl eq_refl)).
  discriminate.
Defined.

(** X12.  [appendUnique] adds [val] unless it is there: the result
    holds [val] and the elements of [slice], [slice] first and in its
    order; a slice without duplicates stays so; appending the same value
    again changes nothing. *)
Theorem X12_appendUnique_spec (slice : list string) (val : string) :
  (forall s, In s (appendUnique slice val) <-> In s slice \/ s = val)
  /\ (NoDup slice -> NoDup (appendUnique slice val))
  /\ (exists tail, appendUnique slice val = (slice ++ tail)%list)
  /\ appendUnique (appendUnique slice val) val = appendUnique slice val.
Proof.
  split; [intros s; apply appendUnique_In|].
  split; [apply appendUnique_NoDup|].
  unfold appendUnique.
  destruct (existsb (fun s => String.eqb s val) slice) eqn:He.
  - split; [exists []; now rewrite app_nil_r|now rewrite He].
  - split; [now exists [val]|].
    rewrite existsb_app. cbn [existsb]. rewrite String.eqb_refl, orb_true_r. reflexivity.
Qed.

Lemma loadPhoneRow_holds (cb : ContactBook) (r : abRow) (phone : string) :
  abValue r = Some phone -> rowName r <> "" -> normalizePhone phone <> "" ->
  holdsPhone (loadPhoneRow cb r) (normalizePhone phone) (rowName r) phone.
Proof.
  intros Hv Hn Hd. unfold loadPhoneRow. rewrite Hv.
  destruct (String.eqb_spec (rowName r) ""); [contradiction|].
  destruct (String.eqb_spec (normalizePhone phone) ""); [contradiction|].
  unfold getOrCreate, storeContact. cbn [String.eqb Ascii.eqb Bool.eqb andb].
  destruct (lookup (normalizePhone phone) (byDigits cb)) as [c|];
    cbn [Name Phones Emails byDigits byEmail];
    eexists; (split; [apply lookup_assign_same|]); cbn [Name Phones];
    (split; [reflexivity|]); apply appendUnique_In; now right.
Qed.

Lemma loadPhoneRow_keeps (cb : ContactBook) (r : abRow) (digits name phone : string) :
  keepsName normalizePhone digits name r ->
  holdsPhone cb digits name phone -> holdsPhone (loadPhoneRow cb r) digits name phone.
Proof.
  unfold keepsName, loadPhoneRow. intros Hk (c & Hc & Hname & Hin).
  destruct (abValue r) as [p|]; [|now exists c].
  destruct (String.eqb_spec (rowName r) "") as [He|Hne]; [now exists c|].
  destruct (String.eqb_spec (normalizePhone p) ""); [now exists c|].
  unfold getOrCreate, storeContact. cbn [String.eqb Ascii.eqb Bool.eqb andb].
  destruct (String.eqb_spec (normalizePhone p) digits) as [Heq|Hneq].
  - destruct (Hk Heq) as [Hsame|Hempty]; [|contradiction].
    rewrite Heq, Hc. cbn [Name Phones Emails byDigits byEmail].
    eexists. split; [apply lookup_assign_same|]. cbn [Name Phones].
    split; [assumption|]. apply appendUnique_In. now left.
  - destruct (lookup (normalizePhone p) (byDigits cb));
      cbn [Name Phones Emails byDigits byEmail];
      exists c; cbn [byDigits byEmail]; rewrite ?lookup_assign_other by congruence; auto.
Qed.

Lemma loadEmailRow_byDigits (cb : ContactBook) (r : abRow) :
  byDigits (loadEmailRow cb r) = byDigits cb.
Proof.
  unfold loadEmailRow. destruct (abValue r); [|reflexivity].
  destruct (String.eqb _ ""); [reflexivity|].
  destruct (String.eqb _ ""); [reflexivity|].
  unfold getOrCreate, storeContact. cbn [String.eqb Ascii.eqb Bool.eqb andb].
  destruct (lookup _ (byEmail cb)); reflexivity.
Qed.

Lemma loadPhoneRow_byEmail (cb : ContactBook) (r : abRow) :
  byEmail (loadPhoneRow cb r) = byEmail cb.
Proof.
  unfold loadPhoneRow. destruct (abValue r); [|reflexivity].
  destruct (String.eqb _ ""); [reflexivity|].
  destruct (String.eqb _ ""); [reflexivity|].
  unfold getOrCreate, storeContact. cbn [String.eqb Ascii.eqb Bool.eqb andb].
  destruct (lookup _ (byDigits cb)); reflexivity.
Qed.

Lemma loadEmailRows_byDigits (rows : list abRow) :
  forall cb, byDigits (fold_left loadEmailRow rows cb) = byDigits cb.
Proof.
  induction rows as [|r rows IH]; intros cb; [reflexivity|].
  cbn [fold_left]. now rewrite IH, loadEmailRow_byDigits.
Qed.

Lemma loadPhoneRows_keep (digits name phone : string) (rows : list abRow) :
  Forall (keepsName normalizePhone digits name) rows ->
  forall cb, holdsPhone cb digits name phone ->
             holdsPhone (fold_left loadPhoneRow rows cb) digits name phone.
Proof.
  induction rows as [|r rows IH]; intros Hall cb H; [assumption|].
  inversion Hall; subst. cbn [fold_left]. apply IH; [assumption|].
  now apply loadPhoneRow_keeps.
Qed.

(** X13.  A number loaded from an AddressBook file resolves to the
    name of its row: if the row has a name and a number with at least
    one digit and no [@], and no later row of the file takes the same
    normalised digits for another name, then after [loadFromDB] the
    number as written resolves to that name, and the contact lists the
    number. *)
Theorem X13_loaded_phone_resolves (cb : ContactBook) (ab : AddressBook)
                              (before after : list abRow) (r : abRow) (phone : string) :
  phoneRows ab = Some (before ++ r :: after)%list ->
  abValue r = Some phone ->
  rowName r <> "" ->
  normalizePhone phone <> "" ->
  strings.Contains phone "@" = false ->
  Forall (keepsName normalizePhone (normalizePhone phone) (rowName r)) after ->
  ResolveName (loadFromDB cb (Some ab)) phone = rowName r
  /\ exists c, Resolve (loadFromDB cb (Some ab)) phone = Some c
               /\ Name c = rowName r /\ In phone (Phones c).
Proof.
  intros Hrows Hv Hn Hd Hat Hafter.
  assert (H : holdsPhone (loadFromDB cb (Some ab)) (normalizePhone phone) (rowName r) phone).
  { unfold loadFromDB. rewrite Hrows.
    assert (Hp : holdsPhone (fold_left loadPhoneRow (before ++ r :: after) cb)
                            (normalizePhone phone) (rowName r) phone).
    { rewrite fold_left_app. cbn [fold_left].
      apply loadPhoneRows_keep; [assumption|]. now apply loadPhoneRow_holds. }
    destruct (emailRows ab) as [rows|]; [|assumption].
    destruct Hp as (c & Hc & Hname & Hin). exists c.
    now rewrite loadEmailRows_byDigits. }
  destruct H as (c & Hc & Hname & Hin).
  assert (HR : Resolve (loadFromDB cb (Some ab)) phone = Some c).
  { unfold Resolve. rewrite Hat.
    destruct (String.eqb_spec phone "") as [->|_]; [now contradiction Hd|].
    destruct (String.eqb_spec (normalizePhone phone) ""); [contradiction|].
    now rewrite Hc. }
  split; [unfold ResolveName; now rewrite HR|]. now exists c.
Qed.

Lemma X13_loaded_phone_resolves_witness :
  ResolveName (loadFromDB (mkContactBook [] []) (Some sampleAddressBook)) "+1 (555) 123-4567"
  = "John Smith".
Proof.
  refine (proj1 (X13_loaded_phone_resolves (mkContactBook [] []) sampleAddressBook []
                   [mkAbRow None None (Some "Acme Corp") (Some "555-987-6543");
                    mkAbRow (Some "Nobody") None None None]
                   (mkAbRow (Some "John") (Some "Smith") None (Some "+1 (555) 123-4567"))
                   "+1 (555) 123-4567" eq_refl eq_refl _ _ eq_refl _)).
  - vm_compute. discriminate.
  - vm_compute. discriminate.
  - repeat constructor. vm_compute. discriminate.
Defined.

Lemma loadEmailRow_holds (cb : ContactBook) (r : abRow) (email : string) :
  abValue r = Some email -> rowName r <> "" -> emailKey email <> "" ->
  holdsEmail (loadEmailRow cb r) (emailKey email) (rowName r) email.
Proof.
  intros Hv Hn Hd. unfold loadEmailRow. rewrite Hv. fold (emailKey email).
  destruct (String.eqb_spec (rowName r) ""); [contradiction|].
  destruct (String.eqb_spec (emailKey email) ""); [contradiction|].
  unfold getOrCreate, storeContact. cbn [String.eqb Ascii.eqb Bool.eqb andb].
  destruct (lookup (emailKey email) (byEmail cb)) as [c|];
    cbn [Name Phones Emails byDigits byEmail];
    eexists; (split; [apply lookup_assign_same|]); cbn [Name Emails];
    (split; [reflexivity|]); apply appendUnique_In; now right.
Qed.

Lemma loadEmailRow_keeps (cb : ContactBook) (r : abRow) (key name email : string) :
  keepsName emailKey key name r ->
  holdsEmail cb key name email -> holdsEmail (loadEmailRow cb r) key name email.
Proof.
  unfold keepsName, loadEmailRow. intros Hk (c & Hc & Hname & Hin).
  destruct (abValue r) as [p|]; [|now exists c]. fold (emailKey p).
  destruct (String.eqb_spec (rowName r) "") as [He|Hne]; [now exists c|].
  destruct (String.eqb_spec (emailKey p) ""); [now exists c|].
  unfold getOrCreate, storeContact. cbn [String.eqb Ascii.eqb Bool.eqb andb].
  destruct (String.eqb_spec (emailKey p) key) as [Heq|Hneq].
  - destruct (Hk Heq) as [Hsame|Hempty]; [|contradiction].
    rewrite Heq, Hc. cbn [Name Phones Emails byDigits byEmail].
    eexists. split; [apply lookup_assign_same|]. cbn [Name Emails].
    split; [assumption|]. apply appendUnique_In. now left.
  - destruct (lookup (emailKey p) (byEmail cb));
      cbn [Name Phones Emails byDigits byEmail];
      exists c; cbn [byDigits byEmail]; rewrite ?lookup_assign_other by congruence; auto.
Qed.

Lemma loadEmailRows_keep (key name email : string) (rows : list abRow) :
  Forall (keepsName emailKey key name) rows ->
  forall cb, holdsEmail cb key name email ->
             holdsEmail (fold_left loadEmailRow rows cb) key name email.
Proof.
  induction rows as [|r rows IH]; intros Hall cb H; [assumption|].
  inversion Hall; subst. cbn [fold_left]. apply IH; [assumption|].
  now apply loadEmailRow_keeps.
Qed.

(** X14.  An address loaded from an AddressBook file resolves to the
    name of its row: the row must have a name and an address that holds
    an [@] and is not empty once trimmed and lower-cased, and no later
    row may take the same trimmed, lower-cased address for another
    name.  An address of ASCII bytes then resolves to that name in
    lower case as well. *)
Theorem X14_loaded_email_resolves (cb : ContactBook) (ab : AddressBook)
                              (before after : list abRow) (r : abRow) (email : string) :
  emailRows ab = Some (before ++ r :: after)%list ->
  abValue r = Some email ->
  rowName r <> "" ->
  strings.Contains email "@" = true ->
  emailKey email <> "" ->
  Forall (keepsName emailKey (emailKey email) (rowName r)) after ->
  ResolveName (loadFromDB cb (Some ab)) email = rowName r
  /\ (exists c, Resolve (loadFromDB cb (Some ab)) email = Some c
                /\ Name c = rowName r /\ In email (Emails c))
  /\ (strings.isASCII email = true ->
      ResolveName (loadFromDB cb (Some ab)) (strings.ToLower email) = rowName r).
Proof.
  intros Hrows Hv Hn Hat Hkey Hafter.
  assert (H : holdsEmail (loadFromDB cb (Some ab)) (emailKey email) (rowName r) email).
  { unfold loadFromDB. rewrite Hrows. rewrite fold_left_app. cbn [fold_left].
    apply loadEmailRows_keep; [assumption|]. now apply loadEmailRow_holds. }
  destruct H as (c & Hc & Hname & Hin).
  assert (HR : Resolve (loadFromDB cb (Some ab)) email = Some c).
  { unfold Resolve. rewrite Hat.
    destruct (String.eqb_spec email "") as [->|_]; [discriminate|]. exact Hc. }
  split; [unfold ResolveName; now rewrite HR|].
  split; [now exists c|]. intros Ha.
  assert (HL : Resolve (loadFromDB cb (Some ab)) (strings.ToLower email) = Some c).
  { rewrite (ToLower_ascii email Ha). unfold Resolve.
    rewrite lowerASCII_Contains_at, Hat.
    destruct (String.eqb_spec (strings.lowerASCII email) "") as [He|_].
    - destruct email; [discriminate Hat|discriminate He].
    - rewrite <- Hc. unfold emailKey. f_equal.
      assert (Hal : strings.isASCII (strings.lowerASCII email) = true)
        by now rewrite isASCII_lowerASCII.
      rewrite (TrimSpace_ascii _ Hal), (TrimSpace_ascii email Ha).
      rewrite !ToLower_ascii
        by (apply isASCII_trimASCII; rewrite ?isASCII_lowerASCII; assumption).
      now rewrite lowerASCII_trimASCII, lowerASCII_idem. }
  unfold ResolveName. now rewrite HL.
Qed.

Lemma X14_loaded_email_resolves_witness :
  ResolveName (loadFromDB (mkContactBook [] []) (Some sampleAddressBook)) "Jane@Example.com"
  = "Jane Doe"
  /\ ResolveName (loadFromDB (mkContactBook [] []) (Some sampleAddressBook)) "jane@example.com"
     = "Jane Doe".
Proof.
  assert (Hn : rowName (mkAbRow (Some "Jane") (Some "Doe") None (Some "Jane@Example.com")) <> "")
    by (vm_compute; discriminate).
  assert (Hk : emailKey "Jane@Example.com" <> "") by (vm_compute; discriminate).
  destruct (X14_loaded_email_resolves (mkContactBook [] []) sampleAddressBook [] []
              (mkAbRow (Some "Jane") (Some "Doe") None (Some "Jane@Example.com"))
              "Jane@Example.com" eq_refl eq_refl Hn eq_refl Hk (Forall_nil _))
    as (H1 & _ & H2).
  split; [exact H1|exact (H2 eq_refl)].
Defined.

Lemma lookup_assign (key k : string) (c : Contact) (m : list (string * Contact)) :
  lookup k (assign key c m) = if String.eqb key k then Some c else lookup k m.
Proof.
  destruct (String.eqb_spec key k) as [<-|Hne].
  - apply lookup_assign_same.
  - apply lookup_assign_other. congruence.
Qed.

Lemma loadPhoneRow_named (cb : ContactBook) (r : abRow) :
  namedBook cb -> namedBook (loadPhoneRow cb r).
Proof.
  intros Hcb. unfold loadPhoneRow.
  destruct (abValue r) as [p|]; [|assumption].
  destruct (String.eqb_spec (rowName r) "") as [|Hn]; [assumption|].
  destruct (String.eqb_spec (normalizePhone p) ""); [assumption|].
  unfold getOrCreate, storeContact. cbn [String.eqb Ascii.eqb Bool.eqb andb].
  destruct (lookup (normalizePhone p) (byDigits cb)) as [c0|] eqn:H0;
    cbn [Name Phones Emails byDigits byEmail]; intros k c; cbn [byDigits byEmail];
    rewrite ?lookup_assign; destruct (String.eqb (normalizePhone p) k);
    intros [H|H]; try (injection H as <-); try (apply (Hcb k c); tauto).
  - destruct (Hcb _ _ (or_introl H0)) as (_ & Hp & He).
    repeat split; cbn [Name Phones Emails]; auto using appendUnique_NoDup.
  - repeat split; cbn [Name Phones Emails]; auto using appendUnique_NoDup, NoDup_nil.
Qed.

Lemma loadEmailRow_named (cb : ContactBook) (r : abRow) :
  namedBook cb -> namedBook (loadEmailRow cb r).
Proof.
  intros Hcb. unfold loadEmailRow.
  destruct (abValue r) as [p|]; [|assumption]. fold (emailKey p).
  destruct (String.eqb_spec (rowName r) "") as [|Hn]; [assumption|].
  destruct (String.eqb_spec (emailKey p) ""); [assumption|].
  unfold getOrCreate, storeContact. cbn [String.eqb Ascii.eqb Bool.eqb andb].
  destruct (lookup (emailKey p) (byEmail cb)) as [c0|] eqn:H0;
    cbn [Name Phones Emails byDigits byEmail]; intros k c; cbn [byDigits byEmail];
    rewrite ?lookup_assign; destruct (String.eqb (emailKey p) k);
    intros [H|H]; try (injection H as <-); try (apply (Hcb k c); tauto).
  - destruct (Hcb _ _ (or_intror H0)) as (_ & Hp & He).
    repeat split; cbn [Name Phones Emails]; auto using appendUnique_NoDup.
  - repeat split; cbn [Name Phones Emails]; auto using appendUnique_NoDup, NoDup_nil.
Qed.

Lemma fold_named (f : ContactBook -> abRow -> ContactBook) (rows : list abRow) :
  (forall cb r, namedBook cb -> namedBook (f cb r)) ->
  forall cb, namedBook cb -> namedBook (fold_left f rows cb).
Proof.
  intros Hf. induction rows as [|r rows IH]; intros cb H; [assumption|].
  cbn [fold_left]. apply IH. now apply Hf.
Qed.

Lemma loadFromDB_named (cb : ContactBook) (db : option AddressBook) :
  namedBook cb -> namedBook (loadFromDB cb db).
Proof.
  intros H. destruct db as [db|]; [|assumption]. unfold loadFromDB.
  assert (H1 : namedBook (match phoneRows db with
                          | Some rows => fold_left loadPhoneRow rows cb
                          | None => cb
                          end)).
  { destruct (phoneRows db); [|assumption].
    apply fold_named; [apply loadPhoneRow_named|assumption]. }
  destruct (emailRows db); [|assumption].
  apply fold_named; [apply loadEmailRow_named|assumption].
Qed.

Lemma Resolve_lookup (cb : ContactBook) (h : string) (c : Contact) :
  Resolve cb h = Some c ->
  exists k, lookup k (byDigits cb) = Some c \/ lookup k (byEmail cb) = Some c.
Proof.
  unfold Resolve.
  destruct (String.eqb h ""); [discriminate|].
  destruct (strings.Contains h "@"); [intros H; eexists; right; exact H|].
  destruct (String.eqb (normalizePhone h) ""); [discriminate|].
  destruct (lookup (normalizePhone h) (byDigits cb)) eqn:H1.
  - intros H. injection H as <-. eexists. left. exact H1.
  - destruct (10 <? String.length (normalizePhone h))%nat; [|discriminate].
    intros H. eexists. left. exact H.
Qed.

(** X15.  Whatever AddressBook files are loaded, a contact the book
    resolves a handle to has a non-empty name and lists each number and
    each address once; so a non-empty handle never resolves to an empty
    name, and the empty handle resolves to itself. *)
Theorem X15_NewContactBook_named (dbPaths : list (option AddressBook)) (h : string) :
  (forall c, Resolve (NewContactBook dbPaths) h = Some c ->
             Name c <> "" /\ NoDup (Phones c) /\ NoDup (Emails c))
  /\ (h <> "" -> ResolveName (NewContactBook dbPaths) h <> "")
  /\ ResolveName (NewContactBook dbPaths) "" = "".
Proof.
  assert (Hbook : namedBook (NewContactBook dbPaths)).
  { unfold NewContactBook.
    assert (H0 : namedBook (mkContactBook [] [])).
    { intros k c [H|H]; discriminate H. }
    revert H0. generalize (mkContactBook [] []).
    induction dbPaths as [|d l IH]; intros cb H; [assumption|].
    cbn [fold_left]. apply IH. now apply loadFromDB_named. }
  assert (Hres : forall c, Resolve (NewContactBook dbPaths) h = Some c -> namedContact c).
  { intros c Hc. destruct (Resolve_lookup _ _ _ Hc) as (k & Hk). exact (Hbook k c Hk). }
  split; [exact Hres|]. split; [|reflexivity].
  intros Hh. unfold ResolveName.
  destruct (Resolve (NewContactBook dbPaths) h) as [c|] eqn:Hc; [|assumption].
  exact (proj1 (Hres c eq_refl)).
Qed.

(** ** The exporter *)

Lemma csvEscape_cases (s : string) :
  csvEscape s = if hasCsvSpecial s then str1 quoteChar ++ doubleQuotes s ++ str1 quoteChar else s.
Proof.
  unfold csvEscape, strings.ReplaceAll.
  now rewrite containsAny_csvSpecials, replace_quote_doubles.
Qed.

Lemma read_plain (s : string) :
  hasCsvSpecial s = false ->
  forall (st : csvState) (field : string) (record : list string) (c : ascii) (rest : string),
    st = FieldStart \/ st = InPlain -> fieldEnd c = true ->
    csvRead st field record (s ++ String c rest) = afterField c (field ++ s) record rest.
Proof.
  induction s as [|x s IH]; intros Hs st field record c rest Hst Hc.
  - rewrite append_empty_r. cbn [append csvRead]. unfold afterField, fieldEnd in *.
    destruct Hst; subst st; destruct (Ascii.eqb c ","); try reflexivity;
      cbn [orb] in Hc; rewrite Hc; reflexivity.
  - cbn [hasCsvSpecial] in Hs.
    apply orb_false_iff in Hs as [Hx Hs]. apply orb_false_iff in Hx as [Hx Hcr].
    apply orb_false_iff in Hx as [Hx Hlf]. apply orb_false_iff in Hx as [Hcomma Hq].
    cbn [append csvRead].
    replace (field ++ String x s) with ((field ++ str1 x) ++ s)
      by (rewrite append_assoc3; reflexivity).
    destruct Hst; subst st; rewrite Hcomma, Hlf, Hq; apply IH; auto.
Qed.

Lemma read_quoted (s : string) :
  forall (field : string) (record : list string) (c : ascii) (rest : string),
    fieldEnd c = true ->
    csvRead InQuoted field record (doubleQuotes s ++ String quoteChar (String c rest))
    = afterField c (field ++ s) record rest.
Proof.
  induction s as [|x s IH]; intros field record c rest Hc.
  - rewrite append_empty_r. cbn [doubleQuotes append csvRead].
    change (Ascii.eqb quoteChar quoteChar) with true. cbv iota.
    unfold afterField, fieldEnd in *.
    destruct (Ascii.eqb c ","); [reflexivity|]. cbn [orb] in Hc. now rewrite Hc.
  - cbn [doubleQuotes].
    replace (field ++ String x s) with ((field ++ str1 x) ++ s)
      by (rewrite append_assoc3; reflexivity).
    destruct (Ascii.eqb x quoteChar) eqn:Hx.
    + apply Ascii.eqb_eq in Hx. subst x.
      cbn [append csvRead]. change (Ascii.eqb quoteChar quoteChar) with true. cbv iota.
      change (Ascii.eqb quoteChar ",") with false.
      change (Ascii.eqb quoteChar LF) with false. cbv iota.
      now apply IH.
    + cbn [append csvRead]. rewrite Hx. now apply IH.
Qed.

Lemma read_escaped (s : string) (record : list string) (c : ascii) (rest : string) :
  fieldEnd c = true ->
  csvRead FieldStart "" record (csvEscape s ++ String c rest) = afterField c s record rest.
Proof.
  intros Hc. rewrite csvEscape_cases. destruct (hasCsvSpecial s) eqn:Hs.
  - rewrite !append_assoc3. cbn [str1 append csvRead].
    change (Ascii.eqb quoteChar ",") with false.
    change (Ascii.eqb quoteChar LF) with false.
    change (Ascii.eqb quoteChar quoteChar) with true. cbv iota.
    now rewrite read_quoted.
  - now rewrite read_plain by auto.
Qed.

(** X16.  Escaped fields are read back: a reader of comma-separated
    text that follows RFC 4180 recovers every string from its
    [csvEscape] form, in front of a comma or of a line feed and whatever
    follows; hence [csvEscape] maps different strings to different
    fields. *)
Theorem X16_csvEscape_read_back :
  (forall (s : string) (record : list string) (rest : string),
      csvRead FieldStart "" record (csvEscape s ++ "," ++ rest)
      = csvRead FieldStart "" (record ++ [s]) rest
      /\ csvRead FieldStart "" record (csvEscape s ++ str1 LF ++ rest)
         = (record ++ [s])%list :: csvRead FieldStart "" [] rest)
  /\ (forall a b : string, csvEscape a = csvEscape b -> a = b).
Proof.
  split.
  - intros s record rest. split.
    + exact (read_escaped s record "," rest eq_refl).
    + exact (read_escaped s record LF rest eq_refl).
  - intros a b Heq.
    pose proof (read_escaped a [] "," "" eq_refl) as Ha.
    pose proof (read_escaped b [] "," "" eq_refl) as Hb.
    rewrite Heq, Hb in Ha. unfold afterField in Ha. cbn in Ha. congruence.
Qed.


Section ExporterFacts.

Variable formatTimestamp : time.Time -> string.
Hypothesis timestamp_plain : forall t, hasCsvSpecial (formatTimestamp t) = false.





End ExporterFacts.


Lemma allBytes_app (p : ascii -> bool) (a b : string) :
  allBytes p (a ++ b) = allBytes p a && allBytes p b.
Proof. induction a as [|c a IH]; simpl; [reflexivity|]. now rewrite IH, andb_assoc. Qed.

Lemma replaceRuns_allBytes (src : string) :
  forall inRun, allBytes isFilenameByte (nonAlphaNum_ReplaceAllString inRun src "_") = true.
Proof.
  induction src as [|c src IH]; intros inRun; cbn [nonAlphaNum_ReplaceAllString]; [reflexivity|].
  destruct (isFilenameByte c) eqn:Hc.
  - cbn [allBytes]. now rewrite Hc, IH.
  - destruct inRun; [apply IH|]. cbn [append allBytes]. now rewrite IH.
Qed.

Lemma trimRightByte_allBytes (p : ascii -> bool) (c : ascii) (s : string) :
  allBytes p s = true -> allBytes p (trimRightByte s c) = true.
Proof.
  induction s as [|d s IH]; intros H; [reflexivity|].
  cbn [allBytes] in H. apply andb_true_iff in H as [Hd Hs].
  cbn [trimRightByte]. specialize (IH Hs).
  destruct (trimRightByte s c) as [|e t].
  - destruct (Ascii.eqb d c); [reflexivity|]. cbn. now rewrite Hd.
  - change (allBytes p (String d (String e t)))
      with (p d && allBytes p (String e t)). now rewrite Hd, IH.
Qed.

Lemma trimLeftByte_allBytes (p : ascii -> bool) (c : ascii) (s : string) :
  allBytes p s = true -> allBytes p (trimLeftByte s c) = true.
Proof.
  induction s as [|d s IH]; intros H; [reflexivity|].
  cbn [trimLeftByte]. destruct (Ascii.eqb d c); [|assumption].
  cbn [allBytes] in H. apply andb_true_iff in H as [_ Hs]. now apply IH.
Qed.

Lemma trimLeftByte_head (c : ascii) (s : string) :
  strings.HasPrefix (trimLeftByte s c) (str1 c) = false.
Proof.
  induction s as [|d s IH]; [reflexivity|].
  cbn [trimLeftByte]. destruct (Ascii.eqb d c) eqn:Hd; [assumption|].
  cbn. now rewrite Hd.
Qed.

Lemma substring_prefix_allBytes (p : ascii -> bool) (n : nat) :
  forall s, allBytes p s = true -> allBytes p (substring 0 n s) = true.
Proof.
  induction n as [|n IH]; intros [|c s] H; try reflexivity.
  cbn [allBytes] in H. apply andb_true_iff in H as [Hc Hs].
  cbn [substring allBytes]. now rewrite Hc, IH.
Qed.

Lemma substring_prefix_length (n : nat) :
  forall s, (n <= String.length s)%nat -> String.length (substring 0 n s) = n.
Proof.
  induction n as [|n IH]; intros [|c s] H; simpl in *; try reflexivity; try lia.
  rewrite IH; lia.
Qed.

Lemma substring_prefix_head (x : ascii) (n : nat) (s : string) :
  strings.HasPrefix s (str1 x) = false ->
  strings.HasPrefix (substring 0 n s) (str1 x) = false.
Proof.
  destruct s as [|c s]; destruct n; intros H; try reflexivity.
  cbn in *. rewrite andb_true_r in *. assumption.
Qed.

(** X18.  The name of an export file is [name_timestamp.csv], where
    [name] has between 1 and 50 bytes, all of them letters, digits,
    [_] or [-], and does not start with [_]: nothing of a chat title or
    a contact name reaches the file system as a path separator or a
    dot. *)
Theorem X18_buildExportFilename_safe (chatTitle : string) (participants : list string)
                                 (contacts : ContactBook) (now : string) :
  exists name : string,
    buildExportFilename chatTitle participants contacts now = name ++ "_" ++ now ++ ".csv"
    /\ (1 <= String.length name <= 50)%nat
    /\ allBytes isFilenameByte name = true
    /\ strings.HasPrefix name "_" = false.
Proof.
  unfold buildExportFilename.
  set (title := if String.eqb chatTitle "" then _ else chatTitle).
  set (trimmed := strings_Trim (nonAlphaNum_ReplaceAllString false title "_") "_").
  assert (Hall : allBytes isFilenameByte trimmed = true).
  { apply trimLeftByte_allBytes, trimRightByte_allBytes, replaceRuns_allBytes. }
  assert (Hhead : strings.HasPrefix trimmed "_" = false) by apply trimLeftByte_head.
  set (cut := if (50 <? String.length trimmed)%nat then substring 0 50 trimmed else trimmed).
  assert (Hcut : (String.length cut <= 50)%nat
                 /\ allBytes isFilenameByte cut = true
                 /\ strings.HasPrefix cut "_" = false).
  { subst cut. destruct (Nat.ltb_spec 50 (String.length trimmed)) as [Hlong|Hshort].
    - rewrite substring_prefix_length by lia.
      split; [lia|]. split; [now apply substring_prefix_allBytes|].
      now apply (substring_prefix_head "_").
    - auto. }
  destruct Hcut as (Hlen & Hbytes & Hpre).
  destruct (String.eqb_spec cut "") as [Hempty|Hne].
  - exists "conversation". repeat split; cbn; lia.
  - exists cut. repeat split; try assumption.
    destruct cut; [contradiction|simpl; lia].
Qed.

(** ** The coordinator: further invariants *)

Ltac split_ifs :=
  repeat match goal with
         | |- context [if ?b then _ else _] => destruct b
         | |- context [match ?x with _ => _ end] => destruct x
         end.

Lemma substring_prefix_len (n : nat) :
  forall s, String.length (substring 0 n s) = Nat.min n (String.length s).
Proof.
  induction n as [|n IH]; intros [|c s]; simpl; try reflexivity. now rewrite IH.
Qed.

(** X19.  [truncate] never returns more than [max] bytes (for
    [max >= 0]): a string that fits is returned as it is; a longer one
    is cut to exactly [max] bytes, which for [max > 3] are its first
    [max - 1] bytes and a tilde. *)
Theorem X19_truncate_bound (s : string) (max : Z) :
  0 <= max ->
  Z.of_nat (String.length (truncate s max)) <= max
  /\ (Z.of_nat (String.length s) <= max -> truncate s max = s)
  /\ (max < Z.of_nat (String.length s) ->
      Z.of_nat (String.length (truncate s max)) = max
      /\ (3 < max -> truncate s max = substring 0 (Z.to_nat max - 1) s ++ "~")).
Proof.
  intros Hmax. unfold truncate.
  destruct (Z.leb_spec (Z.of_nat (String.length s)) max) as [Hfit|Hcut].
  - split; [assumption|]. split; [reflexivity|]. lia.
  - destruct (Z.leb_spec max 3) as [Hsmall|Hbig].
    + rewrite substring_prefix_len. split; [lia|]. split; [lia|]. intros _. split; lia.
    + rewrite length_append, substring_prefix_len. cbn [String.length].
      split; [lia|]. split; [lia|]. intros _. split; [lia|]. intros _.
      now replace (Z.to_nat (max - 1)) with (Z.to_nat max - 1)%nat by lia.
Qed.

Lemma X19_truncate_bound_witness :
  Z.of_nat (String.length (truncate "Alexander Hamilton-Montgomery" senderWidth)) <= senderWidth.
Proof.
  refine (proj1 (X19_truncate_bound "Alexander Hamilton-Montgomery" senderWidth _)).
  unfold senderWidth. lia.
Defined.

Section CoordinatorInvariants.

Context {ui : UI}.

Lemma escape_step (m : model) :
  (escDistance (fst (Update (KeyMsg "esc") m)) <= escDistance m - 1)%nat.
Proof.
  cbn [Update]. change (String.eqb "esc" "ctrl+c") with false. cbv iota.
  unfold escDistance at 2. destruct (state m) eqn:Hs.
  - unfold updateConversationList, convListUpdate.
    change (String.eqb "esc" "enter") with false. change (String.eqb "esc" "s") with false.
    change (String.eqb "esc" "q") with false. cbn [andb].
    destruct (listUpdate convItem (KeyMsg "esc") (convList m)). 
    unfold escDistance. cbn. rewrite Hs. lia.
  - unfold updateMessageView.
    change (String.eqb "esc" "esc" || String.eqb "esc" "backspace") with true. cbv iota.
    unfold escDistance. cbn. lia.
  - unfold updateSearchView. change (String.eqb "esc" "enter") with false.
    change (String.eqb "esc" "esc") with true. cbv iota.
    destruct (textinput.Focused (searchInput m)); unfold escDistance; cbn; lia.
  - unfold updateAttachmentView.
    change (String.eqb "esc" "esc" || String.eqb "esc" "backspace") with true. cbv iota.
    destruct (blist.isFiltering (blist.filterState (attachmentList m))) eqn:Hf.
    + unfold escDistance. cbn. rewrite Hs. unfold blist.ResetFilter.
      destruct (blist.filterState (attachmentList m)); try discriminate. cbn. lia.
    + unfold escDistance. cbn. lia.
Qed.

(** X20.  No view is a trap: from any state of the model, three
    presses of Escape lead to the conversation list (one from a thread
    or from search, two from the attachment list, three when its filter
    is being edited), whatever the list widgets do with the key. *)
Theorem X20_escape_reaches_list (m : model) :
  state (runMsgs [KeyMsg "esc"; KeyMsg "esc"; KeyMsg "esc"] m) = viewConversations.
Proof.
  cbn [runMsgs fold_left].
  pose proof (escape_step m) as H1.
  pose proof (escape_step (fst (Update (KeyMsg "esc") m))) as H2.
  pose proof (escape_step (fst (Update (KeyMsg "esc") (fst (Update (KeyMsg "esc") m))))) as H3.
  remember (fst (Update (KeyMsg "esc") (fst (Update (KeyMsg "esc") (fst (Update (KeyMsg "esc") m)))))) as m3.
  assert (Hm : (escDistance m <= 3)%nat).
  { unfold escDistance. destruct (state m); try lia. destruct (blist.isFiltering _); lia. }
  assert (H0 : escDistance m3 = 0%nat) by lia.
  unfold escDistance in H0. destruct (state m3); try reflexivity; try discriminate.
  destruct (blist.isFiltering _); discriminate.
Qed.

Lemma export_step (m : model) (msg : Msg) :
  match msg with
  | exportDoneMsg _ _ =>
      exporting (fst (Update msg m)) = false
      /\ exportsInFlight (flatten (snd (Update msg m))) = 0%nat
  | _ =>
      Nat.b2n (exporting (fst (Update msg m)))
      = (Nat.b2n (exporting m) + exportsInFlight (flatten (snd (Update msg m))))%nat
  end.
Proof.
  destruct msg as [w h|key|ev|cs e|msgs chatID prepend e|rs term e|path e|atts e|e|tag];
    cbn [Update].
  - cbn. destruct (state m); cbn; try (cbn; destruct (exporting m); reflexivity).
    destruct (0 <? len (messages m)); cbn; destruct (exporting m); reflexivity.
  - destruct (String.eqb key "ctrl+c"); [cbn; destruct (exporting m); reflexivity|].
    destruct (state m).
    + unfold updateConversationList, convListUpdate.
      split_ifs; cbn; destruct (exporting m); reflexivity.
    + unfold updateMessageView.
      destruct (exporting m) eqn:He; cbn [negb];
        split_ifs; cbn; rewrite ?He; reflexivity.
    + unfold updateSearchView, searchInputUpdate, searchResultsUpdate.
      split_ifs; cbn; destruct (exporting m); reflexivity.
    + unfold updateAttachmentView, attachmentListUpdate.
      split_ifs; cbn; destruct (exporting m); reflexivity.
  - unfold updateWidgets, convListUpdate, searchInputUpdate, searchResultsUpdate,
      attachmentListUpdate.
    split_ifs; cbn; destruct (exporting m); reflexivity.
  - destruct e; [cbn; destruct (exporting m); reflexivity|]. unfold blist.SetItems.
    destruct (blist.isUnfiltered _); cbn; destruct (exporting m); reflexivity.
  - destruct e; [cbn; destruct (exporting m); reflexivity|].
    split_ifs; cbn; destruct (exporting m); reflexivity.
  - destruct e; cbn; unfold blist.SetItems;
      try destruct (blist.isUnfiltered _); cbn; destruct (exporting m); reflexivity.
  - destruct e; split; reflexivity.
  - destruct e; [cbn; destruct (exporting m); reflexivity|]. unfold blist.SetItems. cbn.
    destruct (blist.isUnfiltered _); cbn; destruct (exporting m); reflexivity.
  - destruct e; cbn; destruct (exporting m); reflexivity.
  - unfold updateWidgets, convListUpdate, searchInputUpdate, searchResultsUpdate,
      attachmentListUpdate.
    split_ifs; cbn; destruct (exporting m); reflexivity.
Qed.

Lemma exportsInFlight_app (a b : list Cmd) :
  exportsInFlight (a ++ b) = (exportsInFlight a + exportsInFlight b)%nat.
Proof. unfold exportsInFlight. now rewrite filter_app, length_app. Qed.

Lemma completes_export (db : Database) (c : Cmd) (msg : Msg) :
  completes db c msg ->
  match msg with
  | exportDoneMsg _ _ => isExport c = true
  | _ => isExport c = false
  end.
Proof. intros H. destruct H; reflexivity. Qed.

(** X21.  At most one export runs at a time: in every state the
    program can reach, the number of export commands in flight is 1
    when the flag [exporting] is set and 0 when it is not. *)
Theorem X21_one_export_at_a_time (db : Database) (cb : ContactBook) (p : Program) :
  reachable db cb p ->
  exportsInFlight (inflight p) = Nat.b2n (exporting (current p)).
Proof.
  induction 1 as [|p q Hp IH Hstep]; [reflexivity|].
  destruct Hstep as [p msg Hq Hterm|p before c after msg Hq Hin Hc]; cbn [current inflight].
  - rewrite exportsInFlight_app, IH.
    pose proof (export_step (current p) msg) as Hs.
    destruct msg; try discriminate Hterm; symmetry; exact Hs.
  - rewrite Hin, exportsInFlight_app in IH.
    rewrite !exportsInFlight_app.
    pose proof (export_step (current p) msg) as Hs.
    pose proof (completes_export db c msg Hc) as He.
    unfold exportsInFlight at 2 in IH. cbn [filter] in IH.
    destruct msg; rewrite He in IH; cbn [List.length] in IH;
      try (rewrite Hs; unfold exportsInFlight in *; lia).
    destruct Hs as [Hs1 Hs2]. rewrite Hs1, Hs2.
    destruct (exporting (current p)); cbn [Nat.b2n] in *; unfold exportsInFlight in *; lia.
Qed.

Lemma cursorAtHead_step (m : model) (msg : Msg) :
  cursorAtHead m = true -> cursorAtHead (fst (Update msg m)) = true.
Proof.
  intros H. unfold cursorAtHead in H.
  destruct msg as [w h|key|ev|cs e|msgs chatID prepend e|rs term e|path e|atts e|e|tag];
    cbn [Update].
  - unfold cursorAtHead. cbn. destruct (state m) eqn:Hs; cbn; rewrite ?Hs; try exact H.
    destruct (0 <? len (messages m)); cbn; rewrite ?Hs; exact H.
  - destruct (String.eqb key "ctrl+c"); [exact H|].
    destruct (state m) eqn:Hs.
    + unfold updateConversationList, convListUpdate.
      split_ifs; unfold cursorAtHead; cbn; rewrite ?Hs; cbn; rewrite ?orb_true_r; reflexivity.
    + unfold updateMessageView.
      split_ifs; unfold cursorAtHead; cbn; rewrite ?Hs; cbn;
        first [exact H | reflexivity | rewrite ?orb_true_r; reflexivity].
    + unfold updateSearchView, searchInputUpdate, searchResultsUpdate.
      split_ifs; unfold cursorAtHead; cbn; rewrite ?Hs; cbn; rewrite ?orb_true_r; reflexivity.
    + unfold updateAttachmentView, attachmentListUpdate.
      split_ifs; unfold cursorAtHead; cbn; rewrite ?Hs; cbn; exact H.
  - unfold updateWidgets, convListUpdate, searchInputUpdate, searchResultsUpdate,
      attachmentListUpdate.
    destruct (state m) eqn:Hs; split_ifs; unfold cursorAtHead; cbn; rewrite ?Hs; cbn;
      first [exact H | rewrite ?orb_true_r; reflexivity].
  - destruct e; [exact H|]. unfold blist.SetItems.
    destruct (blist.isUnfiltered _); unfold cursorAtHead; cbn; exact H.
  - destruct e; [exact H|].
    destruct (negb (chatID =? activeChatID m)); [exact H|].
    destruct (len msgs =? 0) eqn:H0.
    + unfold cursorAtHead. cbn. rewrite ?orb_true_r. reflexivity.
    + assert (Hne : msgs <> []) by (intros ->; discriminate H0).
      destruct msgs as [|first rest]; [contradiction|].
      destruct prepend; destruct (len (first :: rest) <? messagesPageSize);
        unfold cursorAtHead; cbn; rewrite ?Z.eqb_refl, ?orb_true_r; reflexivity.
  - destruct e; cbn; unfold blist.SetItems;
      try destruct (blist.isUnfiltered _); unfold cursorAtHead; cbn; exact H.
  - destruct e; unfold cursorAtHead; cbn; exact H.
  - destruct e; [exact H|]. unfold blist.SetItems. cbn.
    destruct (blist.isUnfiltered _); unfold cursorAtHead; cbn; exact H.
  - destruct e; exact H.
  - unfold updateWidgets, convListUpdate, searchInputUpdate, searchResultsUpdate,
      attachmentListUpdate.
    destruct (state m) eqn:Hs; split_ifs; unfold cursorAtHead; cbn; rewrite ?Hs; cbn;
      first [exact H | rewrite ?orb_true_r; reflexivity].
Qed.


Lemma backward_fetch_origin (m : model) (msg : Msg) (chatID cursor : Z) :
  In (CmdFetchMessages chatID cursor true) (flatten (snd (Update msg m))) ->
  state m = viewMessages /\ loading m = false /\ allLoaded m = false
  /\ chatID = activeChatID m /\ cursor = oldestCursor m.
Proof.
  destruct msg as [w h|key|ev|cs e|msgs chatID' prepend e|rs term e|path e|atts e|e|tag];
    cbn [Update].
  - cbn. intros [].
  - destruct (String.eqb key "ctrl+c"); [cbn; intuition discriminate|].
    destruct (state m) eqn:Hs.
    + unfold updateConversationList, convListUpdate.
      split_ifs; cbn; intuition discriminate.
    + unfold updateMessageView.
      cbn [allLoaded loading set_viewport].
      destruct (allLoaded m); destruct (loading m);
        cbn [negb]; rewrite ?andb_false_r, ?andb_true_r;
        split_ifs; cbn; intros H; try (now intuition discriminate).
      destruct H as [H|[]]. injection H as <- <-. repeat split.
    + unfold updateSearchView, searchInputUpdate, searchResultsUpdate.
      split_ifs; cbn; intuition discriminate.
    + unfold updateAttachmentView, attachmentListUpdate.
      split_ifs; cbn; intuition discriminate.
  - unfold updateWidgets, convListUpdate, searchInputUpdate, searchResultsUpdate,
      attachmentListUpdate.
    split_ifs; cbn; intuition discriminate.
  - destruct e; [cbn; intuition discriminate|]. unfold blist.SetItems.
    destruct (blist.isUnfiltered _); cbn; intuition discriminate.
  - destruct e; [cbn; intuition discriminate|].
    split_ifs; cbn; intuition discriminate.
  - destruct e; cbn; unfold blist.SetItems;
      try destruct (blist.isUnfiltered _); cbn; intuition discriminate.
  - cbn. intros [].
  - destruct e; [cbn; intuition discriminate|]. unfold blist.SetItems. cbn.
    destruct (blist.isUnfiltered _); cbn; intuition discriminate.
  - destruct e; cbn; intuition discriminate.
  - unfold updateWidgets, convListUpdate, searchInputUpdate, searchResultsUpdate,
      attachmentListUpdate.
    split_ifs; cbn; intuition discriminate.
Qed.

Lemma reachable_cursorAtHead (db : Database) (cb : ContactBook) (p : Program) :
  reachable db cb p -> cursorAtHead (current p) = true.
Proof.
  induction 1 as [|p q Hp IH Hstep]; [reflexivity|].
  destruct Hstep; cbn [current]; now apply cursorAtHead_step.
Qed.

(** X22.  A backward fetch asks for the page just below the window:
    in every state the program can reach, whenever [Update] issues a
    page fetch that prepends, it is for the active chat, the window is
    not empty, and the cursor of the fetch is the id of the first
    message of the window -- never the sentinel of an empty window. *)
Theorem X22_backward_fetch_below_window (db : Database) (cb : ContactBook) (p : Program) :
  reachable db cb p ->
  forall (msg : Msg) (chatID cursor : Z),
    In (CmdFetchMessages chatID cursor true) (flatten (snd (Update msg (current p)))) ->
    chatID = activeChatID (current p)
    /\ exists first rest,
         messages (current p) = first :: rest /\ cursor = ROWID first.
Proof.
  intros Hreach msg chatID cursor Hin.
  pose proof (reachable_cursorAtHead db cb p Hreach) as Hinv.
  destruct (backward_fetch_origin _ _ _ _ Hin) as (Hs & Hl & Ha & Hc & Hcur).
  split; [exact Hc|].
  unfold cursorAtHead in Hinv. rewrite Hs, Hl, Ha in Hinv. cbn [orb] in Hinv.
  destruct (messages (current p)) as [|first rest]; [discriminate|].
  exists first, rest. split; [reflexivity|].
  apply Z.eqb_eq in Hinv. congruence.
Qed.

End CoordinatorInvariants.

(** The seeded chat, opened and shown: the key [e] pressed twice
    starts one export. *)
Lemma X21_one_export_at_a_time_witness :
  exists p : Program,
    @reachable plainUI seedDB emptyBook p
    /\ exporting (current p) = true
    /\ exportsInFlight (inflight p) = 1%nat.
Proof.
  assert (Hp : exists p,
             @replay plainUI seedDB
               [Succeeds 0; Terminal (KeyMsg "enter"); Succeeds 0;
                Terminal (KeyMsg "e"); Terminal (KeyMsg "e")]
               (initial seedDB emptyBook) = Some p
             /\ exporting (current p) = true).
  { eexists. split; [vm_compute; reflexivity|]. vm_compute. reflexivity. }
  destruct Hp as (p & Hrun & He).
  assert (Hr : @reachable plainUI seedDB emptyBook p).
  { eapply (@replay_reachable plainUI); [|exact Hrun]. apply reach_init. }
  clear Hrun. exists p. split; [exact Hr|]. split; [exact He|].
  rewrite (@X21_one_export_at_a_time plainUI seedDB emptyBook p Hr), He. reflexivity.
Defined.

(** The long chat: after the first page, with the viewport at its
    top, the key [k] issues the fetch below message 2. *)
Lemma X22_backward_fetch_below_window_witness :
  exists (p : Program) (first : Message) (rest : list Message),
    @reachable plainUI longChatDB emptyBook p
    /\ In (CmdFetchMessages 1 2 true)
          (flatten (snd (@Update plainUI (KeyMsg "k") (current p))))
    /\ messages (current p) = first :: rest
    /\ 2 = ROWID first.
Proof.
  assert (Hlatest_ok : completes longChatDB (CmdFetchMessages 1 0 false)
            (messagesLoadedMsg (FetchMessages longChatDB 1 0 messagesPageSize) 1 false None))
    by apply messages_ok.
  assert (Hlatest_len : (len (FetchMessages longChatDB 1 0 messagesPageSize) =? 0) = false)
    by (vm_compute; reflexivity).
  assert (Hlatest_full :
            (len (FetchMessages longChatDB 1 0 messagesPageSize) <? messagesPageSize) = false)
    by (vm_compute; reflexivity).
  assert (Hlatest_hd : forall d, headROWID (FetchMessages longChatDB 1 0 messagesPageSize) d = 2)
    by (intros d; vm_compute; reflexivity).
  revert Hlatest_ok Hlatest_len Hlatest_full Hlatest_hd.
  generalize (FetchMessages longChatDB 1 0 messagesPageSize) as latest.
  intros latest Hlatest_ok Hlatest_len Hlatest_full Hlatest_hd.
  assert (Hstart : exists m1 it,
             @reachable plainUI longChatDB emptyBook (mkProgram m1 [])
             /\ state m1 = viewConversations
             /\ blist.SelectedItem (convList m1) = Some it /\ ChatID (conv it) = 1).
  { eexists. eexists. split.
    - apply (@reach_complete plainUI longChatDB emptyBook (NewModel longChatDB emptyBook) [] []
               CmdFetchConversations
               (conversationsLoadedMsg (FetchConversations longChatDB) None) CmdNil).
      + apply reach_init.
      + cbn [In app]; intuition discriminate.
      + apply conversations_ok.
      + vm_compute. reflexivity.
    - vm_compute. repeat split. }
  destruct Hstart as (m1 & it & Hr1 & Hs1 & Hsel & Hit).
  generalize dependent longChatDB. intros db.
  generalize dependent emptyBook. intros cb Hlatest_ok Hr1.
  destruct (@enter_thread plainUI m1 it Hs1 Hsel) as (Hc2 & Hth2 & Hcl2).
  rewrite Hit in Hc2, Hth2.
  pose proof (@reach_terminal plainUI db cb m1 [] (KeyMsg "enter") _ Hr1
                ltac:(cbn [In app]; intuition discriminate) eq_refl Hc2) as Hr2.
  cbn [app flatten] in Hr2.
  remember (fst (@Update plainUI (KeyMsg "enter") m1)) as m2 eqn:Hm2.
  clear Hm2 Hc2 Hcl2 Hr1 Hs1 Hsel m1.
  destruct (thread_fields _ _ _ _ _ _ _ Hth2) as (Hs2 & Ha2 & Hw2 & Hk2 & He2 & Hl2).
  pose proof (@accept_page plainUI m2 latest false Hlatest_len) as H3.
  rewrite Ha2 in H3. destruct H3 as (Hc3 & Hth3 & Hcl3).
  unfold newWindow in Hth3. rewrite Hlatest_hd, Hs2, He2, Hlatest_full in Hth3.
  cbn [orb] in Hth3.
  pose proof (@reach_complete plainUI db cb m2 [] [] _ _ _ Hr2
                ltac:(cbn [In app]; intuition discriminate) Hlatest_ok Hc3) as Hr3.
  cbn [app flatten] in Hr3.
  remember (fst (@Update plainUI (messagesLoadedMsg latest 1 false None) m2)) as m3 eqn:Hm3.
  clear Hm3 Hc3 Hcl3 Hr2 Hth2 Hs2 Ha2 Hw2 Hk2 He2 Hl2 m2.
  destruct (thread_fields _ _ _ _ _ _ _ Hth3) as (Hs3 & Ha3 & Hw3 & Hk3 & He3 & Hl3).
  destruct (@goto_top plainUI m3 Hs3) as (Hc4 & Hth4 & Hcl4 & Htop4).
  rewrite Hth3 in Hth4.
  pose proof (@reach_terminal plainUI db cb m3 [] (KeyMsg "t") _ Hr3
                ltac:(cbn [In app]; intuition discriminate) eq_refl Hc4) as Hr4.
  cbn [app flatten] in Hr4.
  remember (fst (@Update plainUI (KeyMsg "t") m3)) as m4 eqn:Hm4.
  clear Hm4 Hc4 Hcl4 Hr3 Hth3 Hs3 Ha3 Hw3 Hk3 He3 Hl3 m3.
  destruct (thread_fields _ _ _ _ _ _ _ Hth4) as (Hs4 & Ha4 & Hw4 & Hk4 & He4 & Hl4).
  destruct (@scroll_at_top plainUI m4 Hs4 Htop4 He4 Hl4) as (Hc5 & _ & _).
  rewrite Ha4, Hk4 in Hc5.
  assert (Hin : In (CmdFetchMessages 1 2 true)
                   (flatten (snd (@Update plainUI (KeyMsg "k") (current (mkProgram m4 [])))))).
  { cbn [current]. rewrite Hc5. cbn. now left. }
  destruct (@X22_backward_fetch_below_window plainUI db cb (mkProgram m4 []) Hr4 _ _ _ Hin)
    as (_ & first & rest & Hwin & Hfirst).
  exists (mkProgram m4 []), first, rest.
  split; [exact Hr4|]. split; [exact Hin|]. split; [exact Hwin|exact Hfirst].
Defined.

(** ** The window and the history *)





Section WindowAndHistory.

Context {ui : UI}.


End WindowAndHistory.

